(** * Transcript parser, job store and recorder of the focus repository

    A shallow embedding of [src/ingestion/claude_code.py]
    ([parse_session_into_turns] and its helpers), of the job table declared
    in [src/storage/models.py] and of the recorder, with the properties the
    specification states about them; then of the other functions of
    [src/ingestion/claude_code.py] that work on a session file
    ([parse_session_file], [build_session_summary], [get_session_metadata],
    [_parse_decisions], [_parse_timestamp], [ingest_session]) and of
    [store_raw_interaction] of [src/storage/raw.py], with properties read
    off their code.

    Conventions.
    - A Python [str] is represented by its UTF-8 encoding, a Rocq [string]
      (one [ascii] per byte).  Concatenation, prefix tests, equality and
      emptiness coincide on both sides; [strip] below removes the UTF-8
      encodings of the Unicode white space that [str.strip] removes.
    - The values [json.loads] returns are the inductive type [json].
    - A Python exception is the [Raise] outcome of the type [result]. *)

From Stdlib Require Import ZArith String Ascii List Lia SpecFloat Bool.
From stdpp Require Import gmap strings list.
Import ListNotations.

Open Scope string_scope.
Open Scope list_scope.
Open Scope Z_scope.

(* ================================================================== *)
(** * Exceptions *)

Inductive exn : Type :=
| AttributeError
| TypeError
| IntegrityError.

Inductive result (A : Type) : Type :=
| Ok (a : A)
| Raise (e : exn).
Arguments Ok {A} a.
Arguments Raise {A} e.

Definition bind {A B : Type} (r : result A) (k : A -> result B) : result B :=
  match r with
  | Ok a => k a
  | Raise e => Raise e
  end.

(* ================================================================== *)
(** * hashlib.md5 (RFC 1321) *)

Module MD5.

Definition w32 (x : Z) : Z := x mod 2 ^ 32.

Definition rotl (x c : Z) : Z :=
  w32 (Z.lor (Z.shiftl x c) (Z.shiftr x (32 - c))).

Definition shifts : list Z :=
  [ 7; 12; 17; 22; 7; 12; 17; 22; 7; 12; 17; 22; 7; 12; 17; 22;
    5; 9; 14; 20; 5; 9; 14; 20; 5; 9; 14; 20; 5; 9; 14; 20;
    4; 11; 16; 23; 4; 11; 16; 23; 4; 11; 16; 23; 4; 11; 16; 23;
    6; 10; 15; 21; 6; 10; 15; 21; 6; 10; 15; 21; 6; 10; 15; 21 ].

Definition sines : list Z :=
  [ 0xd76aa478; 0xe8c7b756; 0x242070db; 0xc1bdceee;
    0xf57c0faf; 0x4787c62a; 0xa8304613; 0xfd469501;
    0x698098d8; 0x8b44f7af; 0xffff5bb1; 0x895cd7be;
    0x6b901122; 0xfd987193; 0xa679438e; 0x49b40821;
    0xf61e2562; 0xc040b340; 0x265e5a51; 0xe9b6c7aa;
    0xd62f105d; 0x02441453; 0xd8a1e681; 0xe7d3fbc8;
    0x21e1cde6; 0xc33707d6; 0xf4d50d87; 0x455a14ed;
    0xa9e3e905; 0xfcefa3f8; 0x676f02d9; 0x8d2a4c8a;
    0xfffa3942; 0x8771f681; 0x6d9d6122; 0xfde5380c;
    0xa4beea44; 0x4bdecfa9; 0xf6bb4b60; 0xbebfbc70;
    0x289b7ec6; 0xeaa127fa; 0xd4ef3085; 0x04881d05;
    0xd9d4d039; 0xe6db99e5; 0x1fa27cf8; 0xc4ac5665;
    0xf4292244; 0x432aff97; 0xab9423a7; 0xfc93a039;
    0x655b59c3; 0x8f0ccc92; 0xffeff47d; 0x85845dd1;
    0x6fa87e4f; 0xfe2ce6e0; 0xa3014314; 0x4e0811a1;
    0xf7537e82; 0xbd3af235; 0x2ad7d2bb; 0xeb86d391 ].

(** The four 32-bit chaining registers. *)
Record regs := Regs { rA : Z; rB : Z; rC : Z; rD : Z }.

Definition init : regs :=
  Regs 0x67452301 0xefcdab89 0x98badcfe 0x10325476.

Definition bytes_of (s : string) : list Z :=
  map (fun c => Z.of_N (N_of_ascii c)) (list_ascii_of_string s).

(** The [n] low bytes of [x], least significant first. *)
Definition le_bytes (n : nat) (x : Z) : list Z :=
  map (fun i => Z.land (Z.shiftr x (8 * Z.of_nat i)) 255) (seq 0 n).

(** Padding: the byte 0x80, zero bytes up to 56 modulo 64, then the
    length in bits on 64 bits. *)
Definition pad (msg : list Z) : list Z :=
  let len := Z.of_nat (length msg) in
  let zeros := Z.to_nat ((55 - len) mod 64) in
  msg ++ [128] ++ repeat 0 zeros ++ le_bytes 8 ((8 * len) mod 2 ^ 64).

Fixpoint le_word (bs : list Z) : Z :=
  match bs with
  | [] => 0
  | b :: r => b + 256 * le_word r
  end.

Fixpoint words (n : nat) (bs : list Z) : list Z :=
  match n with
  | O => []
  | S n' => le_word (firstn 4 bs) :: words n' (skipn 4 bs)
  end.

Definition round (m : list Z) (r : regs) (i : nat) : regs :=
  let '(Regs a b c d) := r in
  let zi := Z.of_nat i in
  let '(f, g) :=
    if (i <? 16)%nat then
      (Z.lor (Z.land b c) (Z.land (Z.lxor b 0xffffffff) d), zi)
    else if (i <? 32)%nat then
      (Z.lor (Z.land d b) (Z.land (Z.lxor d 0xffffffff) c),
       (5 * zi + 1) mod 16)
    else if (i <? 48)%nat then
      (Z.lxor (Z.lxor b c) d, (3 * zi + 5) mod 16)
    else
      (Z.lxor c (Z.lor b (Z.lxor d 0xffffffff)), (7 * zi) mod 16) in
  let f' := w32 (f + a + nth i sines 0 + nth (Z.to_nat g) m 0) in
  Regs d (w32 (b + rotl f' (nth i shifts 0))) b c.

Definition block (h : regs) (chunk : list Z) : regs :=
  let m := words 16 chunk in
  let r := fold_left (round m) (seq 0 64) h in
  Regs (w32 (rA h + rA r)) (w32 (rB h + rB r))
       (w32 (rC h + rC r)) (w32 (rD h + rD r)).

Fixpoint blocks (n : nat) (h : regs) (bs : list Z) : regs :=
  match n with
  | O => h
  | S n' => blocks n' (block h (firstn 64 bs)) (skipn 64 bs)
  end.

Definition digest (msg : list Z) : regs :=
  let p := pad msg in
  blocks (length p / 64) init p.

Definition hex_digit (x : Z) : ascii :=
  nth (Z.to_nat x) (list_ascii_of_string "0123456789abcdef") "0"%char.

Definition hex_byte (b : Z) : list ascii :=
  [hex_digit (Z.shiftr b 4); hex_digit (Z.land b 15)].

Definition hexdigest (r : regs) : string :=
  string_of_list_ascii
    (concat (map hex_byte
       (le_bytes 4 (rA r) ++ le_bytes 4 (rB r) ++
        le_bytes 4 (rC r) ++ le_bytes 4 (rD r)))).

Definition md5 (s : string) : string := hexdigest (digest (bytes_of s)).

End MD5.

(** [compute_content_hash]: [hashlib.md5(content.encode()).hexdigest()].
    [encode] raises [UnicodeEncodeError] on a [str] that holds a lone
    surrogate; this function gives the digest of the bytes that the
    program reaches for the others, such as the lines read from a file,
    which hold none ([encodable], below). *)
Definition compute_content_hash (content : string) : string :=
  MD5.md5 content.

(* ================================================================== *)
(** * Python strings *)

Definition byte_of (c : ascii) : N := N_of_ascii c.

(** The characters [str.isspace] accepts, by their UTF-8 encodings:
    U+0009..U+000D, U+001C..U+0020 on one byte; U+0085 and U+00A0 on two;
    U+1680, U+2000..U+200A, U+2028, U+2029, U+202F, U+205F and U+3000 on
    three. *)
Definition space1 (a : N) : bool :=
  ((9 <=? a) && (a <=? 13) || (28 <=? a) && (a <=? 32))%N.

Definition space2 (a b : N) : bool :=
  ((a =? 194) && ((b =? 133) || (b =? 160)))%N.

Definition space3 (a b c : N) : bool :=
  ((a =? 225) && (b =? 154) && (c =? 128)
   || (a =? 226) && (b =? 128)
      && ((128 <=? c) && (c <=? 138) || (c =? 168) || (c =? 169) || (c =? 175))
   || (a =? 226) && (b =? 129) && (c =? 159)
   || (a =? 227) && (b =? 128) && (c =? 128))%N.

(** One leading white-space character removed, if there is one. *)
Definition drop_space (s : list N) : option (list N) :=
  match s with
  | a :: r1 =>
      if space1 a then Some r1 else
      match r1 with
      | b :: r2 =>
          if space2 a b then Some r2 else
          match r2 with
          | c :: r3 => if space3 a b c then Some r3 else None
          | [] => None
          end
      | [] => None
      end
  | [] => None
  end.

(** One trailing white-space character removed, on the reversed bytes. *)
Definition drop_space_rev (s : list N) : option (list N) :=
  match s with
  | a :: r1 =>
      if space1 a then Some r1 else
      match r1 with
      | b :: r2 =>
          if space2 b a then Some r2 else
          match r2 with
          | c :: r3 => if space3 c b a then Some r3 else None
          | [] => None
          end
      | [] => None
      end
  | [] => None
  end.

Fixpoint drop_while (drop : list N -> option (list N)) (fuel : nat)
    (s : list N) : list N :=
  match fuel with
  | O => s
  | S fuel' =>
      match drop s with
      | Some r => drop_while drop fuel' r
      | None => s
      end
  end.

Definition bytes (s : string) : list N :=
  map byte_of (list_ascii_of_string s).

Definition of_bytes (l : list N) : string :=
  string_of_list_ascii (map ascii_of_N l).

Definition lstrip_bytes (l : list N) : list N :=
  drop_while drop_space (length l) l.

Definition rstrip_bytes (l : list N) : list N :=
  rev (drop_while drop_space_rev (length l) (rev l)).

(** [str.strip()] *)
Definition strip (s : string) : string :=
  of_bytes (rstrip_bytes (lstrip_bytes (bytes s))).

(** [str.startswith(prefix)] *)
Definition startswith (s p : string) : bool := String.prefix p s.

Definition newline : string := String "010" "".

(** [sep.join(parts)] on strings *)
Definition join (sep : string) (parts : list string) : string :=
  String.concat sep parts.

Definition nonempty (s : string) : bool :=
  match s with
  | EmptyString => false
  | String _ _ => true
  end.

(* ================================================================== *)
(** * Values returned by [json.loads] *)

(** A dict keeps its items in insertion order; the decoder keeps one item
    per key. *)
#[warnings="-register-all"]
Inductive json : Type :=
| JNull
| JBool (b : bool)
| JInt (n : Z)
| JFloat (f : spec_float)
| JStr (s : string)
| JList (items : list json)
| JObj (fields : list (string * json)).

(** [d.get(key)] on the items of a dict: [None] when the key is absent. *)
Fixpoint get (fields : list (string * json)) (key : string) : option json :=
  match fields with
  | [] => None
  | (k, v) :: rest => if String.eqb k key then Some v else get rest key
  end.

(** [d.get(key, dflt)] *)
Definition dict_get (fields : list (string * json)) (key : string)
    (dflt : json) : json :=
  match get fields key with
  | Some v => v
  | None => dflt
  end.

(** Python truth value of a decoded value. *)
Definition truthy (v : json) : bool :=
  match v with
  | JNull => false
  | JBool b => b
  | JInt n => negb (n =? 0)
  | JFloat (S754_zero _) => false
  | JFloat _ => true
  | JStr s => nonempty s
  | JList items => match items with [] => false | _ :: _ => true end
  | JObj fields => match fields with [] => false | _ :: _ => true end
  end.

(** Numbers compare by value across [bool], [int] and [float]:
    a finite number is [m * 2 ^ e]. *)
Inductive pynum : Type :=
| NFin (m e : Z)
| NInf (negative : bool)
| NNan.

Definition num_of (v : json) : option pynum :=
  match v with
  | JBool b => Some (NFin (if b then 1 else 0) 0)
  | JInt n => Some (NFin n 0)
  | JFloat (S754_zero _) => Some (NFin 0 0)
  | JFloat (S754_infinity s) => Some (NInf s)
  | JFloat S754_nan => Some NNan
  | JFloat (S754_finite s m e) =>
      Some (NFin (if s then Z.neg m else Z.pos m) e)
  | _ => None
  end.

(** The decoder returns one and the same object for every [NaN], and the
    membership test [x in l] compares identity before [==]: there a NaN
    equals itself. *)
Definition num_eq (a b : pynum) : bool :=
  match a, b with
  | NFin m1 e1, NFin m2 e2 =>
      let e := Z.min e1 e2 in
      m1 * 2 ^ (e1 - e) =? m2 * 2 ^ (e2 - e)
  | NInf s, NInf t => Bool.eqb s t
  | NNan, NNan => true
  | _, _ => false
  end.

(** [a == b] on decoded values, as [in] and [==] use it. *)
Fixpoint py_eq (a b : json) {struct a} : bool :=
  match a, b with
  | JNull, JNull => true
  | JStr s, JStr t => String.eqb s t
  | JList l, JList m =>
      (fix all2 (l m : list json) {struct l} : bool :=
         match l, m with
         | [], [] => true
         | x :: l', y :: m' => py_eq x y && all2 l' m'
         | _, _ => false
         end) l m
  | JObj f, JObj g =>
      (length f =? length g)%nat &&
      (fix all (f : list (string * json)) {struct f} : bool :=
         match f with
         | [] => true
         | (k, v) :: f' =>
             match get g k with
             | Some w => py_eq v w
             | None => false
             end && all f'
         end) f
  | _, _ =>
      match num_of a, num_of b with
      | Some x, Some y => num_eq x y
      | _, _ => false
      end
  end.

(** [x in l] *)
Definition py_in (x : json) (l : list json) : bool :=
  existsb (fun e => py_eq e x) l.

(** The items [str.join] is given, as strings: it raises [TypeError] on
    an item that is not a [str]. *)
Fixpoint as_strings (parts : list json) : result (list string) :=
  match parts with
  | [] => Ok []
  | JStr s :: rest =>
      match as_strings rest with
      | Ok l => Ok (s :: l)
      | Raise e => Raise e
      end
  | _ :: _ => Raise TypeError
  end.

Definition join_values (sep : string) (parts : list json) : result string :=
  match as_strings parts with
  | Ok l => Ok (join sep l)
  | Raise e => Raise e
  end.

(* ================================================================== *)
(** * [src/ingestion/claude_code.py] *)

(** [isinstance(block, dict) and block.get("type") == kind] *)
Definition block_of_type (kind : string) (block : json) : bool :=
  match block with
  | JObj b =>
      match get b "type" with
      | Some t => py_eq t (JStr kind)
      | None => false
      end
  | _ => false
  end.

(** The [text_parts] list [_extract_text_content] builds from a list. *)
Fixpoint text_parts (blocks : list json) : list json :=
  match blocks with
  | [] => []
  | block :: rest =>
      match block with
      | JObj b =>
          if block_of_type "text" block
          then dict_get b "text" (JStr "") :: text_parts rest
          else text_parts rest
      | _ => text_parts rest
      end
  end.

Definition _extract_text_content (content : json) : result string :=
  match content with
  | JStr s => Ok s
  | JList blocks => join_values newline (text_parts blocks)
  | _ => Ok ""
  end.

(** One iteration of the loop of [_extract_tool_names]. *)
Definition add_tool (tools : list json) (block : json) : list json :=
  match block with
  | JObj b =>
      if block_of_type "tool_use" block then
        let name := dict_get b "name" (JStr "") in
        if truthy name && negb (py_in name tools)
        then tools ++ [name] else tools
      else tools
  | _ => tools
  end.

Definition _extract_tool_names (content : json) : list json :=
  match content with
  | JList blocks => fold_left add_tool blocks []
  | _ => []
  end.

(** The dicts of the list [messages]. *)
Record message := Message {
  role : json;
  content : json;
  text : string;
  timestamp : json;
  model : json;
  raw_line : string
}.

(** A turn while it is [current_turn], before [_finalize_turn]. *)
Record open_turn := OpenTurn {
  cur_user_message : string;
  cur_assistant_texts : list string;
  cur_tool_names : list json;
  cur_model_name : json;
  cur_started_at : json;
  cur_ended_at : json;
  cur_raw_lines : list string
}.

(** A returned turn dict. *)
Record turn := Turn {
  user_message : string;
  tool_names : list json;
  model_name : json;
  started_at : json;
  ended_at : json;
  turn_number : nat;
  assistant_text : string;
  raw_jsonl : string;
  content_hash : string
}.

Definition _finalize_turn (t : open_turn) (index : nat) : turn :=
  let raw := join newline (cur_raw_lines t) in
  let assistant := join newline (cur_assistant_texts t) in
  {| user_message := cur_user_message t;
     tool_names := cur_tool_names t;
     model_name := cur_model_name t;
     started_at := cur_started_at t;
     ended_at := cur_ended_at t;
     turn_number := index;
     assistant_text := assistant;
     raw_jsonl := raw;
     content_hash := compute_content_hash raw |}.

(** What one line of the file does in the first pass. *)
Inductive outcome : Type :=
| Skip
| Keep (m : message)
| Fail (e : exn).

Definition command_marker (s : string) : bool :=
  startswith s "<command-name>" || startswith s "<local-command".

(** [if current_turn and current_turn.get("user_message"): finalize and
    append] *)
Definition flush (turns : list turn) (current : option open_turn)
    : list turn :=
  match current with
  | Some t =>
      if nonempty (cur_user_message t)
      then turns ++ [_finalize_turn t (length turns)]
      else turns
  | None => turns
  end.

Definition start_turn (msg : message) : open_turn :=
  {| cur_user_message := text msg;
     cur_assistant_texts := [];
     cur_tool_names := [];
     cur_model_name := JNull;
     cur_started_at := timestamp msg;
     cur_ended_at := timestamp msg;
     cur_raw_lines := [raw_line msg] |}.

Definition add_name (names : list json) (t : json) : list json :=
  if py_in t names then names else names ++ [t].

Definition absorb (t : open_turn) (msg : message) : open_turn :=
  {| cur_user_message := cur_user_message t;
     cur_assistant_texts :=
       if nonempty (text msg)
       then cur_assistant_texts t ++ [text msg]
       else cur_assistant_texts t;
     cur_tool_names :=
       fold_left add_name (_extract_tool_names (content msg))
         (cur_tool_names t);
     cur_model_name :=
       if truthy (model msg) && negb (truthy (cur_model_name t))
       then model msg else cur_model_name t;
     cur_started_at := cur_started_at t;
     cur_ended_at :=
       if truthy (timestamp msg) then timestamp msg else cur_ended_at t;
     cur_raw_lines := cur_raw_lines t ++ [raw_line msg] |}.

(** The loop variables of the second pass. *)
Definition grouping : Type := list turn * option open_turn.

Definition group_step (st : grouping) (msg : message) : grouping :=
  let '(turns, current) := st in
  if py_eq (role msg) (JStr "user") then
    (flush turns current, Some (start_turn msg))
  else if py_eq (role msg) (JStr "assistant") then
    match current with
    | Some t => (turns, Some (absorb t msg))
    | None => (turns, None)
    end
  else (turns, current).

Definition group_turns (messages : list message) : list turn :=
  let '(turns, current) := fold_left group_step messages ([], None) in
  flush turns current.

(** What the loop returns from a state of its variables. *)
Definition finish (st : grouping) : list turn := flush (fst st) (snd st).

Section Parser.

(** [json.loads] on a stripped line: [None] when it raises
    [json.JSONDecodeError], the one exception the loop catches.  The other
    ways the library and the file object can fail (a nesting too deep for
    the decoder, bytes that are no text) are outside this model. *)
Variable json_loads : string -> option json.

Definition read_line (line : string) : outcome :=
  let line := strip line in
  if negb (nonempty line) then Skip else
  match json_loads line with
  | None => Skip
  | Some (JObj obj) =>
      let msg_type := dict_get obj "type" JNull in
      if negb (py_eq msg_type (JStr "user")
               || py_eq msg_type (JStr "assistant")) then Skip
      else if truthy (dict_get obj "isSidechain" JNull)
              || truthy (dict_get obj "isMeta" JNull) then Skip
      else
        match dict_get obj "message" (JObj []) with
        | JObj message =>
            let role := dict_get message "role" (JStr "") in
            let content := dict_get message "content" (JStr "") in
            match _extract_text_content content with
            | Raise e => Fail e
            | Ok text_content =>
                if nonempty text_content
                   && command_marker (strip text_content)
                then Skip
                else Keep {| role := role;
                             content := content;
                             text := text_content;
                             timestamp := dict_get obj "timestamp" (JStr "");
                             model := dict_get message "model" (JStr "");
                             raw_line := line |}
            end
        | _ => Skip
        end
  | Some _ => Fail AttributeError
  end.

(** First pass: the list [messages]; the first line that raises ends the
    call. *)
Fixpoint collect (lines : list string) : result (list message) :=
  match lines with
  | [] => Ok []
  | line :: rest =>
      match read_line line with
      | Skip => collect rest
      | Fail e => Raise e
      | Keep m =>
          match collect rest with
          | Ok ms => Ok (m :: ms)
          | Raise e => Raise e
          end
      end
  end.

(** The file is [None] when the path does not exist, and the lines its
    iteration yields otherwise. *)
Definition parse_session_into_turns (file : option (list string))
    : result (list turn) :=
  match file with
  | None => Ok []
  | Some lines =>
      match collect lines with
      | Ok messages => Ok (group_turns messages)
      | Raise e => Raise e
      end
  end.

End Parser.

(* ================================================================== *)
(** * A decoder for the examples

    [Decoder.loads] reads the JSON texts made of objects, arrays, strings
    without escape sequences, integers and the literals [true], [false]
    and [null], with white space between tokens as [json.loads] allows it,
    and returns the value [json.loads] returns for them.  It rejects every
    other text; a text with an escape sequence or a fraction is valid JSON
    although this decoder rejects it, so it stands for [json.loads] on the
    lines of the examples only. *)

Module Decoder.

Definition is_ws (c : ascii) : bool :=
  let n := N_of_ascii c in
  ((n =? 32) || (n =? 9) || (n =? 10) || (n =? 13))%N.

Fixpoint skip_ws (s : string) : string :=
  match s with
  | String c r => if is_ws c then skip_ws r else s
  | EmptyString => EmptyString
  end.

(** The body of a string after its opening quote, and what follows the
    closing quote. *)
Fixpoint scan_string (s : string) : option (string * string) :=
  match s with
  | EmptyString => None
  | String c r =>
      let n := N_of_ascii c in
      if (n =? 34)%N then Some (EmptyString, r)
      else if ((n =? 92) || (n <? 32))%N then None
      else
        match scan_string r with
        | Some (body, rest) => Some (String c body, rest)
        | None => None
        end
  end.

Definition digit (c : ascii) : option Z :=
  let n := N_of_ascii c in
  if ((48 <=? n) && (n <=? 57))%N then Some (Z.of_N n - 48) else None.

Fixpoint digits (acc : Z) (s : string) : Z * string :=
  match s with
  | String c r =>
      match digit c with
      | Some d => digits (10 * acc + d) r
      | None => (acc, s)
      end
  | EmptyString => (acc, s)
  end.

(** An optional minus sign, then a zero or a nonzero digit and further
    digits, not followed by a fraction or an exponent. *)
Definition scan_int (s : string) : option (Z * string) :=
  let '(neg, s1) :=
    match s with
    | String c r => if (N_of_ascii c =? 45)%N then (true, r) else (false, s)
    | EmptyString => (false, s)
    end in
  match s1 with
  | String c r =>
      match digit c with
      | Some d =>
          let '(n, rest) := if d =? 0 then (0, r) else digits d r in
          let float_follows :=
            match rest with
            | String c' _ =>
                let k := N_of_ascii c' in
                ((k =? 46) || (k =? 101) || (k =? 69))%N
            | EmptyString => false
            end in
          if float_follows then None
          else Some (if neg then - n else n, rest)
      | None => None
      end
  | EmptyString => None
  end.

Fixpoint strip_prefix (p s : string) : option string :=
  match p, s with
  | EmptyString, _ => Some s
  | String a p', String b s' =>
      if Ascii.eqb a b then strip_prefix p' s' else None
  | String _ _, EmptyString => None
  end.

(** [d[key] = value]: the last value of a key, at the place of its first
    occurrence. *)
Fixpoint set_item (fields : list (string * json)) (key : string)
    (value : json) : list (string * json) :=
  match fields with
  | [] => [(key, value)]
  | (k, v) :: rest =>
      if String.eqb k key then (k, value) :: rest
      else (k, v) :: set_item rest key value
  end.

Definition literal (s : string) : option (json * string) :=
  match strip_prefix "true" s with
  | Some r => Some (JBool true, r)
  | None =>
  match strip_prefix "false" s with
  | Some r => Some (JBool false, r)
  | None =>
  match strip_prefix "null" s with
  | Some r => Some (JNull, r)
  | None =>
  match scan_int s with
  | Some (n, r) => Some (JInt n, r)
  | None => None
  end end end end.

Fixpoint value (fuel : nat) (s : string) {struct fuel}
    : option (json * string) :=
  match fuel with
  | O => None
  | S fuel' =>
      match skip_ws s with
      | String c r =>
          let n := N_of_ascii c in
          if (n =? 34)%N then
            match scan_string r with
            | Some (body, rest) => Some (JStr body, rest)
            | None => None
            end
          else if (n =? 91)%N then
            match skip_ws r with
            | String c' r' =>
                if (N_of_ascii c' =? 93)%N then Some (JList [], r')
                else elements fuel' [] r
            | EmptyString => None
            end
          else if (n =? 123)%N then
            match skip_ws r with
            | String c' r' =>
                if (N_of_ascii c' =? 125)%N then Some (JObj [], r')
                else members fuel' [] r
            | EmptyString => None
            end
          else literal (String c r)
      | EmptyString => None
      end
  end
with elements (fuel : nat) (acc : list json) (s : string) {struct fuel}
    : option (json * string) :=
  match fuel with
  | O => None
  | S fuel' =>
      match value fuel' s with
      | Some (v, r) =>
          match skip_ws r with
          | String c r' =>
              let n := N_of_ascii c in
              if (n =? 93)%N then Some (JList (acc ++ [v]), r')
              else if (n =? 44)%N then elements fuel' (acc ++ [v]) r'
              else None
          | EmptyString => None
          end
      | None => None
      end
  end
with members (fuel : nat) (acc : list (string * json)) (s : string)
    {struct fuel} : option (json * string) :=
  match fuel with
  | O => None
  | S fuel' =>
      match skip_ws s with
      | String q r =>
          if (N_of_ascii q =? 34)%N then
            match scan_string r with
            | Some (key, r1) =>
                match skip_ws r1 with
                | String colon r2 =>
                    if (N_of_ascii colon =? 58)%N then
                      match value fuel' r2 with
                      | Some (v, r3) =>
                          match skip_ws r3 with
                          | String c r4 =>
                              let n := N_of_ascii c in
                              if (n =? 125)%N
                              then Some (JObj (set_item acc key v), r4)
                              else if (n =? 44)%N
                              then members fuel' (set_item acc key v) r4
                              else None
                          | EmptyString => None
                          end
                      | None => None
                      end
                    else None
                | EmptyString => None
                end
            | None => None
            end
          else None
      | EmptyString => None
      end
  end.

Definition loads (s : string) : option json :=
  match value (2 * String.length s + 2)%nat s with
  | Some (v, rest) =>
      match skip_ws rest with
      | EmptyString => Some v
      | String _ _ => None
      end
  | None => None
  end.

End Decoder.

(* ================================================================== *)
(** * The grouping the specification describes

    "A turn starts at a user message and absorbs every following assistant
    message until the next user message or end of input." *)

Definition is_user (m : message) : bool := py_eq (role m) (JStr "user").

Definition is_assistant (m : message) : bool :=
  negb (is_user m) && py_eq (role m) (JStr "assistant").

(** The messages before the next user message. *)
Fixpoint until_user (ms : list message) : list message :=
  match ms with
  | [] => []
  | m :: rest => if is_user m then [] else m :: until_user rest
  end.

(** The messages from the first user message on. *)
Fixpoint from_user (ms : list message) : list message :=
  match ms with
  | [] => []
  | m :: rest => if is_user m then m :: rest else from_user rest
  end.

(** A user message with the assistant messages that follow it. *)
Definition segment : Type := message * list message.

Fixpoint segments (ms : list message) : list segment :=
  match ms with
  | [] => []
  | m :: rest =>
      if is_user m
      then (m, List.filter is_assistant (until_user rest)) :: segments rest
      else segments rest
  end.

Definition has_text (s : segment) : bool := nonempty (text (fst s)).

(** The turn dict of a segment at position [index] of the result. *)
Definition turn_of (s : segment) (index : nat) : turn :=
  _finalize_turn (fold_left absorb (snd s) (start_turn (fst s))) index.

Fixpoint number (index : nat) (segs : list segment) : list turn :=
  match segs with
  | [] => []
  | s :: rest => turn_of s index :: number (S index) rest
  end.

(** The tool names a message carries, in block order: the names of its
    [tool_use] blocks that are true values. *)
Definition tool_use_names (c : json) : list json :=
  match c with
  | JList blocks =>
      flat_map (fun block =>
        match block with
        | JObj b =>
            if block_of_type "tool_use" block && truthy (dict_get b "name" (JStr ""))
            then [dict_get b "name" (JStr "")] else []
        | _ => []
        end) blocks
  | _ => []
  end.

(** First occurrences of a list of strings, in order. *)
Fixpoint first_occurrences (seen : list string) (l : list string)
    : list string :=
  match l with
  | [] => []
  | x :: rest =>
      if existsb (String.eqb x) seen then first_occurrences seen rest
      else x :: first_occurrences (seen ++ [x]) rest
  end.

(** The texts of the text-typed blocks of a content list. *)
Definition block_text (block : json) : list json :=
  match block with
  | JObj b =>
      if block_of_type "text" block then [dict_get b "text" (JStr "")]
      else []
  | _ => []
  end.

Definition is_str (v : json) : Prop := exists s, v = JStr s.

Definition str_of (v : json) : string :=
  match v with
  | JStr s => s
  | _ => EmptyString
  end.

(* ================================================================== *)
(** * Notions the properties use *)

(** The hashes of a result, in order. *)
Definition hashes (r : result (list turn)) : result (list string) :=
  match r with
  | Ok turns => Ok (map content_hash turns)
  | Raise e => Raise e
  end.

(** A list of messages that is empty or starts at a user message. *)
Definition at_user (ms : list message) : Prop :=
  match ms with
  | [] => True
  | m :: _ => is_user m = true
  end.

(** A byte that is an ASCII character and no white space: it is no part of
    the encoding of a white-space character. *)
Definition inert (c : N) : bool := ((c <? 128) && negb (space1 c))%N.

(** The key list of a loop that appends the strings it has not seen. *)
Definition add_str (seen : list string) (x : string) : list string :=
  if existsb (String.eqb x) seen then seen else seen ++ [x].

(** The lines the specification lists as skipped: a line that does not
    decode, an entry whose type is neither user nor assistant, an entry
    with a true [isSidechain] or [isMeta] flag, and an entry whose text
    begins with a command marker. *)
Inductive skipped (json_loads : string -> option json) (line : string)
    : Prop :=
| skipped_not_json :
    json_loads (strip line) = None -> skipped json_loads line
| skipped_other_type obj :
    json_loads (strip line) = Some (JObj obj) ->
    dict_get obj "type" JNull <> JStr "user" ->
    dict_get obj "type" JNull <> JStr "assistant" ->
    skipped json_loads line
| skipped_flag obj :
    json_loads (strip line) = Some (JObj obj) ->
    get obj "isSidechain" = Some (JBool true)
    \/ get obj "isMeta" = Some (JBool true) ->
    skipped json_loads line
| skipped_command obj message resolved :
    json_loads (strip line) = Some (JObj obj) ->
    get obj "message" = Some (JObj message) ->
    _extract_text_content (dict_get message "content" (JStr "")) = Ok resolved ->
    startswith resolved "<command-name>" = true
    \/ startswith resolved "<local-command" = true ->
    skipped json_loads line.

(** A decoded line the first pass handles without an exception: an
    object whose text blocks, when its content is a list, hold strings. *)
Definition readable (v : json) : Prop :=
  match v with
  | JObj obj =>
      match dict_get obj "message" (JObj []) with
      | JObj message =>
          match dict_get message "content" (JStr "") with
          | JList blocks => Forall is_str (flat_map block_text blocks)
          | _ => True
          end
      | _ => True
      end
  | _ => False
  end.

(** The character [c] occurs in [s]. *)
Fixpoint has_char (c : ascii) (s : string) : bool :=
  match s with
  | EmptyString => false
  | String a r => Ascii.eqb a c || has_char c r
  end.

(** The lines of a file from which the first pass keeps a message. *)
Definition kept (json_loads : string -> option json) (line : string) : bool :=
  match read_line json_loads line with
  | Keep _ => true
  | _ => false
  end.

Definition kept_lines (json_loads : string -> option json)
    (lines : list string) : list string :=
  List.filter (kept json_loads) lines.

(** What a kept message holds of its line: the decoded object, its
    message and the content, role, model and timestamp read from them. *)
Definition message_of_line (json_loads : string -> option json)
    (line : string) (m : message) : Prop :=
  exists obj msg,
    json_loads (strip line) = Some (JObj obj)
    /\ dict_get obj "message" (JObj []) = JObj msg
    /\ content m = dict_get msg "content" (JStr "")
    /\ role m = dict_get msg "role" (JStr "")
    /\ model m = dict_get msg "model" (JStr "")
    /\ timestamp m = dict_get obj "timestamp" (JStr "")
    /\ raw_line m = strip line.

(** The stripped lines of the messages of a segment: the source lines
    that compose its turn. *)
Definition turn_lines (s : segment) : list string :=
  map raw_line (fst s :: snd s).

(** The strings of [n] lower-case hexadecimal digits. *)
Definition hex_digits : list ascii :=
  list_ascii_of_string "0123456789abcdef".

Fixpoint hex_strings (n : nat) : list string :=
  match n with
  | O => [EmptyString]
  | S n' => flat_map (fun c => map (String c) (hex_strings n')) hex_digits
  end.

(** Two different strings with the same MD5 digest. *)
Definition collide (a b : string) : Prop :=
  a <> b /\ compute_content_hash a = compute_content_hash b.

(** The tool names the assistant messages of a segment carry. *)
Definition segment_tool_names (s : segment) : list json :=
  flat_map (fun m => tool_use_names (content m)) (snd s).

(** A list built by appending values that were not in it. *)
Inductive once : list json -> Prop :=
| once_nil : once []
| once_snoc l x : once l -> py_in x l = false -> once (l ++ [x]).

(* ================================================================== *)
(** * The job table ([FocusJob] of [src/storage/models.py]) *)

Module Jobs.

(** The values the check constraint of the column [status] allows. *)
Inductive job_status : Type :=
| Queued
| Processing
| Retry
| Done
| Failed.

#[export] Instance job_status_eq_dec : EqDecision job_status.
Proof. solve_decision. Defined.

(** A row; its [id] is the key of the table. *)
Record job := Job {
  kind : string;
  dedupe_key : option string;
  payload : json;
  status : job_status;
  priority : Z;
  attempts : Z;
  max_attempts : Z;
  locked_until : option Z;
  error_message : option string;
  created_at : Z;
  updated_at : Z
}.

Abbreviation table := (gmap nat job).

Definition non_terminal (j : job) : Prop :=
  status j = Queued \/ status j = Processing \/ status j = Retry.

(** No row holds the key: the column [dedupe_key] is declared
    [unique=True], over the rows of every status. *)
Definition key_free (t : table) (k : string) : Prop :=
  map_Forall (fun _ j => dedupe_key j <> Some k) t.

Definition with_status (j : job) (s : job_status) (now : Z) : job :=
  {| kind := kind j; dedupe_key := dedupe_key j; payload := payload j;
     status := s; priority := priority j; attempts := attempts j;
     max_attempts := max_attempts j; locked_until := locked_until j;
     error_message := error_message j; created_at := created_at j;
     updated_at := now |}.

(** Modelled from the spec: [src/storage/jobs.py] is missing.
    [enqueue_job] inserts a queued job; with a [dedupe_key] that a row
    already holds, the unique-constraint-protected insert does nothing
    and the call returns nothing (the test simulates it as
    ON CONFLICT DO NOTHING with a row count of 0).  The insert is one
    atomic statement.  The new row's id stands for [uuid.uuid4()]. *)
Definition enqueue (now : Z) (t : table) (k : string) (p : json)
    (prio maxa : Z) (dedupe : option string) : table * option nat :=
  let conflict :=
    match dedupe with
    | Some key => bool_decide (~ key_free t key)
    | None => false
    end in
  if conflict then (t, None)
  else
    let id := fresh (dom t) in
    (<[id := {| kind := k; dedupe_key := dedupe; payload := p;
                status := Queued; priority := prio; attempts := 0;
                max_attempts := maxa; locked_until := None;
                error_message := None; created_at := now;
                updated_at := now |}]> t,
     Some id).

Definition claimable (kinds : option (list string)) (r : nat * job) : bool :=
  (bool_decide (status r.2 = Queued) || bool_decide (status r.2 = Retry))
  && match kinds with
     | Some ks => existsb (String.eqb (kind r.2)) ks
     | None => true
     end.

(** [ORDER BY priority, created_at]; rows that tie are taken by id. *)
Definition before (a b : nat * job) : bool :=
  (priority a.2 <? priority b.2)
  || (priority a.2 =? priority b.2)
     && ((created_at a.2 <? created_at b.2)
         || (created_at a.2 =? created_at b.2) && (a.1 <=? b.1)%nat).

Definition best (rows : list (nat * job)) : option (nat * job) :=
  fold_right (fun r acc =>
    match acc with
    | Some r' => if before r r' then Some r else Some r'
    | None => Some r
    end) None rows.

(** Modelled from the spec: [claim_job] of the missing
    [src/storage/jobs.py].  The best queued or retry job becomes
    processing, its lease is set and its attempts are incremented. *)
Definition claim (now lease : Z) (t : table) (kinds : option (list string))
    : table * option nat :=
  match best (List.filter (claimable kinds) (map_to_list t)) with
  | Some (id, j) =>
      (<[id := {| kind := kind j; dedupe_key := dedupe_key j;
                  payload := payload j; status := Processing;
                  priority := priority j; attempts := attempts j + 1;
                  max_attempts := max_attempts j;
                  locked_until := Some (now + lease);
                  error_message := error_message j;
                  created_at := created_at j; updated_at := now |}]> t,
       Some id)
  | None => (t, None)
  end.

(** Modelled from the spec: [complete_job] sets the status done. *)
Definition complete (now : Z) (t : table) (id : nat) : table :=
  alter (fun j => with_status j Done now) id t.

(** Modelled from the spec: [fail_job] sets retry while
    [attempts < max_attempts] and failed otherwise, records the message,
    and does nothing when the job no longer exists. *)
Definition fail (now : Z) (t : table) (id : nat) (msg : string) : table :=
  alter (fun j =>
    {| kind := kind j; dedupe_key := dedupe_key j; payload := payload j;
       status := if attempts j <? max_attempts j then Retry else Failed;
       priority := priority j; attempts := attempts j;
       max_attempts := max_attempts j; locked_until := locked_until j;
       error_message := Some msg; created_at := created_at j;
       updated_at := now |}) id t.

Definition stale (now : Z) (j : job) : bool :=
  bool_decide (status j = Processing)
  && match locked_until j with
     | Some l => l <? now
     | None => false
     end.

(** Modelled from the spec: [expire_stale_leases] moves every processing
    job whose lease has passed back to retry. *)
Definition expire_stale_leases (now : Z) (t : table) : table * nat :=
  ((fun j => if stale now j then with_status j Retry now else j) <$> t,
   length (List.filter (fun r => stale now r.2) (map_to_list t))).

(** The calls of the store, as the producers and workers issue them;
    a run of the system is an interleaving of such calls. *)
Inductive call : Type :=
| Enqueue (k : string) (p : json) (prio maxa : Z) (dedupe : option string)
| Claim (lease : Z) (kinds : option (list string))
| Complete (id : nat)
| FailJob (id : nat) (msg : string)
| Expire.

Definition exec (t : table) (c : Z * call) : table :=
  let '(now, what) := c in
  match what with
  | Enqueue k p prio maxa dedupe => (enqueue now t k p prio maxa dedupe).1
  | Claim lease kinds => (claim now lease t kinds).1
  | Complete id => complete now t id
  | FailJob id msg => fail now t id msg
  | Expire => (expire_stale_leases now t).1
  end.

Definition run (calls : list (Z * call)) (t : table) : table :=
  fold_left exec calls t.

Definition status_of (t : table) (id : nat) : option job_status :=
  status <$> t !! id.

(** An enqueue call with the key [k]. *)
Definition enqueues_key (k : string) (c : Z * call) : Prop :=
  match c.2 with
  | Enqueue _ _ _ _ (Some key) => key = k
  | _ => False
  end.

(** No two rows hold the same [dedupe_key]. *)
Definition unique_keys (t : table) : Prop :=
  forall id1 id2 j1 j2 k,
    t !! id1 = Some j1 -> t !! id2 = Some j2 ->
    dedupe_key j1 = Some k -> dedupe_key j2 = Some k -> id1 = id2.

(** A failed job has used up its attempts. *)
Definition failed_exhausted (t : table) : Prop :=
  forall id j, t !! id = Some j -> status j = Failed ->
    max_attempts j <= attempts j.

(** A job that stays terminal: failed or done, with no attempt left. *)
Definition dead (j : job) : Prop :=
  (status j = Failed \/ status j = Done) /\ max_attempts j <= attempts j.

(** Every call but an insertion keeps the ids and the keys of the rows. *)
Definition same_keys (t t' : table) : Prop :=
  forall id, dedupe_key <$> t' !! id = dedupe_key <$> t !! id.

End Jobs.

(* ================================================================== *)
(** * The recorder *)

Module Recorder.

(** An [AgentSession] row with the [AgentTurn] rows it owns, oldest
    first; a turn row keeps what the parser returned for it. *)
Record agent_session := AgentSession {
  transcript_path : string;
  workspace_path : string;
  last_activity_at : Z;
  turn_count : nat;
  turns : list turn
}.

Abbreviation db := (gmap string agent_session).

Inductive outcome : Type :=
| Recorded (turns_recorded turns_skipped : nat) (session_id : string)
| FileNotFound.

Definition turns_recorded (o : outcome) : nat :=
  match o with
  | Recorded r _ _ => r
  | FileNotFound => 0%nat
  end.

Definition turns_skipped (o : outcome) : nat :=
  match o with
  | Recorded _ s _ => s
  | FileNotFound => 0%nat
  end.

Definition known_hashes (d : db) (sid : string) : list string :=
  match d !! sid with
  | Some s => map content_hash (turns s)
  | None => []
  end.

Definition persisted (d : db) (sid : string) : list turn :=
  match d !! sid with
  | Some s => turns s
  | None => []
  end.

Definition is_new (known : list string) (t : turn) : bool :=
  negb (existsb (String.eqb (content_hash t)) known).

(** The turns to persist, in order: those whose hash is neither known
    at the start nor the hash of a turn persisted before them. *)
Fixpoint reconcile (known : list string) (parsed : list turn) : list turn :=
  match parsed with
  | [] => []
  | t :: rest =>
      if is_new known t
      then t :: reconcile (known ++ [content_hash t]) rest
      else reconcile known rest
  end.

Section Record.

Variable json_loads : string -> option json.

(** Modelled from the spec: [src/context/recorder.py] is missing.
[record_session] parses the whole transcript and takes the hashes of
the turns persisted for the session (none for a session it
creates).  For each parsed turn in order, a turn whose hash is not
known is persisted and its hash is known from then on, since a turn
is never re-created for the same [content_hash]; the others are
counted as skipped.  Then the session is updated.  A missing file
gives the file-not-found result; an exception of the parser
propagates.  A row keeps the parser's [turn_number], which
[models.py] declares unique within a session: the store refuses a
second row with a number it holds.  The spec does not give the
value of [turn_count]; it is the number of persisted turns here. *)
Definition record_session (now : Z) (d : db) (sid : string)
    (path : string) (file : option (list string)) (workspace : string)
    : result (db * outcome) :=
  match file with
  | None => Ok (d, FileNotFound)
  | Some _ =>
      match parse_session_into_turns json_loads file with
      | Raise e => Raise e
      | Ok parsed =>
          let known := known_hashes d sid in
          let fresh_turns := reconcile known parsed in
          let taken := map turn_number (persisted d sid) in
          if existsb (fun t => existsb (Nat.eqb (turn_number t)) taken)
               fresh_turns
          then Raise IntegrityError
          else
            let rows := persisted d sid ++ fresh_turns in
            Ok (<[sid := {| transcript_path := path;
                            workspace_path := workspace;
                            last_activity_at := now;
                            turn_count := length rows;
                            turns := rows |}]> d,
                Recorded (length fresh_turns)
                         (length parsed - length fresh_turns)%nat sid)
      end
  end.

End Record.

Definition db_of (r : result (db * outcome)) : db :=
  match r with
  | Ok (d, _) => d
  | Raise _ => ∅
  end.

Definition outcome_of (r : result (db * outcome)) : option outcome :=
  match r with
  | Ok (_, o) => Some o
  | Raise _ => None
  end.

End Recorder.

(* ================================================================== *)
(** * Sample transcript lines *)

Module Examples.

(** The lines are written with apostrophes in the place of the quotation
    marks of JSON. *)
Fixpoint dq (s : string) : string :=
  match s with
  | String c r =>
      String (if Ascii.eqb c "'" then ascii_of_N 34 else c) (dq r)
  | EmptyString => EmptyString
  end.

Definition user_line : string :=
  dq "{'type': 'user', 'message': {'role': 'user', 'content': 'Fix the bug'}, 'timestamp': '2026-02-10T12:00:00Z'}".

Definition assistant_line : string :=
  dq "{'type': 'assistant', 'message': {'role': 'assistant', 'model': 'm-1', 'content': [{'type': 'text', 'text': 'Reading.'}, {'type': 'tool_use', 'name': 'Read', 'input': {}}, {'type': 'tool_use', 'name': 'Edit', 'input': {}}, {'type': 'tool_use', 'name': 'Read', 'input': {}}]}, 'timestamp': '2026-02-10T12:00:30Z'}".

(** The result of a tool call comes back as a user entry without text. *)
Definition tool_result_line : string :=
  dq "{'type': 'user', 'message': {'role': 'user', 'content': [{'type': 'tool_result', 'content': 'ok'}]}, 'timestamp': '2026-02-10T12:00:40Z'}".

Definition followup_line : string :=
  dq "{'type': 'assistant', 'message': {'role': 'assistant', 'content': [{'type': 'text', 'text': 'Done.'}]}, 'timestamp': '2026-02-10T12:00:50Z'}".

Definition sidechain_line : string :=
  dq "{'type': 'assistant', 'isSidechain': true, 'message': {'role': 'assistant', 'content': 'Subagent work'}}".

Definition summary_line : string :=
  dq "{'type': 'summary', 'summary': 'Bug fixes'}".

Definition command_line : string :=
  dq "{'type': 'user', 'message': {'role': 'user', 'content': '<command-name>help</command-name>'}}".

(** A line cut short by a crash of the writer. *)
Definition corrupt_line : string :=
  dq "{'type': 'assistant', 'message': {'role': 'assis".

(** Valid JSON that is no object. *)
Definition number_line : string := "5".

(** A text block whose text is a number. *)
Definition bad_text_line : string :=
  dq "{'type': 'assistant', 'message': {'role': 'assistant', 'content': [{'type': 'text', 'text': 5}]}}".

Definition exchange : list string := [user_line; assistant_line].

Definition with_tool_result : list string :=
  [user_line; assistant_line; tool_result_line; followup_line].

Definition messages_of (lines : list string) : list message :=
  match collect Decoder.loads lines with
  | Ok ms => ms
  | Raise _ => []
  end.

Definition turns_of (lines : list string) : list turn :=
  match parse_session_into_turns Decoder.loads (Some lines) with
  | Ok ts => ts
  | Raise _ => []
  end.

Definition exchange_messages : list message :=
  Eval vm_compute in messages_of exchange.

Definition exchange_turns : list turn :=
  Eval vm_compute in turns_of exchange.

Definition tool_result_messages : list message :=
  Eval vm_compute in messages_of with_tool_result.

Definition second_exchange : list string :=
  [dq "{'type': 'user', 'message': {'role': 'user', 'content': 'Thanks'}, 'timestamp': '2026-02-10T12:01:00Z'}";
   dq "{'type': 'assistant', 'message': {'role': 'assistant', 'content': 'Welcome.'}, 'timestamp': '2026-02-10T12:01:10Z'}"].

Definition second_turn : turn :=
  Eval vm_compute in
    nth 1 (turns_of (exchange ++ second_exchange))
      (Turn "" [] JNull JNull JNull 0 "" "" "").

(** The same exchange with white space added around its first line. *)
Definition exchange_spaced : list string :=
  [String.append "  " (String.append user_line " "); assistant_line].

(** The exchange written twice: two turns of the same lines. *)
Definition doubled : list string := exchange ++ exchange.

(** The exchange with another answer of the assistant in the place of
    the first. *)
Definition exchange_edited : list string := [user_line; followup_line].

Definition user_entry : message :=
  Eval vm_compute in nth 0 exchange_messages (Message JNull JNull "" JNull JNull "").

Definition assistant_entry : message :=
  Eval vm_compute in nth 1 exchange_messages (Message JNull JNull "" JNull JNull "").

(** The exchange with the entry of the assistant written [n] times: one
    turn of [n + 1] lines. *)
Definition long_exchange (n : nat) : list string :=
  user_line :: repeat assistant_line n.

(** The raw field of its turn. *)
Definition long_raw (n : nat) : string :=
  join newline (user_line :: repeat assistant_line n).

End Examples.

(* ================================================================== *)
(** * Sample runs of the job store *)

Module JobsExamples.
Import Jobs.

(** Two producers enqueue the same key, then a worker claims the job. *)
Definition calls : list (Z * call) :=
  [ (1, Enqueue "session_process" JNull 10 10 (Some "k1"));
    (2, Enqueue "session_process" JNull 10 10 (Some "k1"));
    (3, Claim 300 None) ].

Definition claimed : job :=
  {| kind := "session_process"; dedupe_key := Some "k1"; payload := JNull;
     status := Processing; priority := 10; attempts := 1;
     max_attempts := 10; locked_until := Some 303; error_message := None;
     created_at := 1; updated_at := 3 |}.

(** A job with one attempt allowed is claimed and fails. *)
Definition failing : list (Z * call) :=
  [ (1, Enqueue "turn_summary" JNull 10 1 None);
    (2, Claim 300 None);
    (3, FailJob 0 "boom") ].

Definition later : list (Z * call) :=
  [ (4, Claim 300 None); (5, FailJob 0 "again"); (400, Expire);
    (401, Claim 300 None) ].

End JobsExamples.
(* ================================================================== *)
(** * Notions for further properties of the parser *)

(** A lower-case hexadecimal digit. *)
Definition is_hex (c : ascii) : bool :=
  let n := N_of_ascii c in
  ((48 <=? n) && (n <=? 57) || (97 <=? n) && (n <=? 102))%N.

Fixpoint all_hex (s : string) : bool :=
  match s with
  | EmptyString => true
  | String c r => is_hex c && all_hex r
  end.

(** The values of a list that are true, in order. *)
Definition truthy_values (l : list json) : list json := List.filter truthy l.

(* ================================================================== *)
(** * Characters, slices and order of a [str]

    A [str] is held as its UTF-8 bytes.  A character is a byte that is no
    continuation byte, with the continuation bytes that follow it; the
    characters [`], [[], []] and the line feed are one byte each, and no
    byte of another character equals theirs. *)

Definition continuation (b : N) : bool := ((128 <=? b) && (b <? 192))%N.

(** [len(s)] *)
Definition py_len (s : string) : nat :=
  length (List.filter (fun b => negb (continuation b)) (bytes s)).

(** The bytes of the first [n] characters. *)
Fixpoint take_chars (n : nat) (l : list N) : list N :=
  match l with
  | [] => []
  | b :: r =>
      if continuation b then b :: take_chars n r
      else
        match n with
        | O => []
        | S n' => b :: take_chars n' r
        end
  end.

(** [s[:n]] *)
Definition py_take (n : nat) (s : string) : string :=
  of_bytes (take_chars n (bytes s)).

(** A [str] can hold a lone surrogate: the decoder returns one for an
    escape such as [\ud83d] that no low surrogate follows.  A surrogate has
    no UTF-8 encoding; it is held here as the three bytes 237, 160..191,
    128..191 that the error handler [surrogatepass] gives it, a sequence
    that the encoding of no other character contains.  [s.encode()] raises
    [UnicodeEncodeError] on a [str] that holds one. *)
Fixpoint has_surrogate (l : list N) : bool :=
  match l with
  | [] => false
  | a :: r =>
      match r with
      | b :: _ => ((a =? 237) && (160 <=? b) && (b <=? 191))%N
      | [] => false
      end
      || has_surrogate r
  end.

Definition encodable (s : string) : bool := negb (has_surrogate (bytes s)).

(** [s.rstrip()] *)
Definition rstrip (s : string) : string := of_bytes (rstrip_bytes (bytes s)).

(** [s.endswith(p)]: a suffix of [s] is [p]. *)
Fixpoint endswith (s p : string) : bool :=
  String.eqb s p ||
  match s with
  | String _ r => endswith r p
  | EmptyString => false
  end.

(** [s[n:]] and [s[:-n]], for characters of one byte. *)
Fixpoint drop_chars (n : nat) (s : string) : string :=
  match n, s with
  | S n', String _ r => drop_chars n' r
  | _, _ => s
  end.

Definition drop_last (n : nat) (s : string) : string :=
  substring 0 (String.length s - n) s.

(** [s.split(c, 1)[1]]: what follows the first [c], when [c in s]. *)
Fixpoint after_first (c : ascii) (s : string) : option string :=
  match s with
  | EmptyString => None
  | String a r => if Ascii.eqb a c then Some r else after_first c r
  end.

(** [s.index(c)] and [s.rindex(c)]: [None] when they raise [ValueError]. *)
Fixpoint index_of (c : ascii) (s : string) : option nat :=
  match s with
  | EmptyString => None
  | String a r =>
      if Ascii.eqb a c then Some O
      else
        match index_of c r with
        | Some i => Some (S i)
        | None => None
        end
  end.

Fixpoint rindex_of (c : ascii) (s : string) : option nat :=
  match s with
  | EmptyString => None
  | String a r =>
      match rindex_of c r with
      | Some i => Some (S i)
      | None => if Ascii.eqb a c then Some O else None
      end
  end.

(** [s[start:stop]]: empty when [stop <= start]. *)
Definition slice (s : string) (start stop : nat) : string :=
  substring start (stop - start) s.

(** [s.replace(c, by)] for a character [c] *)
Fixpoint replace_char (c : ascii) (by_ : string) (s : string) : string :=
  match s with
  | EmptyString => EmptyString
  | String a r =>
      if Ascii.eqb a c then by_ ++ replace_char c by_ r
      else String a (replace_char c by_ r)
  end.

(** The order of numbers across [bool], [int] and [float]; a NaN is
    neither below nor above a number. *)
Definition num_lt (a b : pynum) : bool :=
  match a, b with
  | NFin m1 e1, NFin m2 e2 =>
      let e := Z.min e1 e2 in
      m1 * 2 ^ (e1 - e) <? m2 * 2 ^ (e2 - e)
  | NFin _ _, NInf negative => negb negative
  | NInf negative, NFin _ _ => negative
  | NInf s, NInf t => s && negb t
  | _, _ => false
  end.

(** [a < b], and [a > b] when [greater] is set, on decoded values: strings
    by their characters (which is the order of their UTF-8 bytes), numbers
    by value, lists by their first items that differ and then by length;
    [TypeError] for [None], for a dict and for values of two kinds. *)
Fixpoint py_order (greater : bool) (a b : json) {struct a} : result bool :=
  match a, b with
  | JStr s, JStr t =>
      Ok (if greater then String.ltb t s else String.ltb s t)
  | JList l, JList m =>
      (fix items (l m : list json) {struct l} : result bool :=
         match l, m with
         | x :: l', y :: m' =>
             if py_eq x y then items l' m' else py_order greater x y
         | [], _ :: _ => Ok (negb greater)
         | _ :: _, [] => Ok greater
         | [], [] => Ok false
         end) l m
  | _, _ =>
      match num_of a, num_of b with
      | Some x, Some y => Ok (if greater then num_lt y x else num_lt x y)
      | _, _ => Raise TypeError
      end
  end.

(** The loop of [min] and of [max] ([greater] set) after the first item:
    an item replaces the one held when it is strictly below (above) it. *)
Fixpoint pick (greater : bool) (best : json) (items : list json)
    : result json :=
  match items with
  | [] => Ok best
  | x :: rest =>
      match py_order greater x best with
      | Ok true => pick greater x rest
      | Ok false => pick greater best rest
      | Raise e => Raise e
      end
  end.

(** [min(l) if l else None] and [max(l) if l else None] *)
Definition min_or_none (l : list json) : result json :=
  match l with
  | [] => Ok JNull
  | x :: rest => pick false x rest
  end.

Definition max_or_none (l : list json) : result json :=
  match l with
  | [] => Ok JNull
  | x :: rest => pick true x rest
  end.

(* ================================================================== *)
(** * [src/ingestion/claude_code.py]: the session file as a transcript *)

Module SessionFile.

(** The dicts [parse_session_file] returns. *)
Record entry := Entry {
  role : json;
  content : string;
  timestamp : json;
  session_id : json
}.

(** What one line of the file does in the loop. *)
Inductive outcome : Type :=
| Skip
| Keep (e : entry)
| Fail (x : exn).

Section Parser.

(** [json.loads], as for [parse_session_into_turns]. *)
Variable json_loads : string -> option json.

Definition read_line (line : string) : outcome :=
  let line := strip line in
  if negb (nonempty line) then Skip else
  match json_loads line with
  | None => Skip
  | Some (JObj obj) =>
      let msg_type := dict_get obj "type" JNull in
      if negb (py_eq msg_type (JStr "user")
               || py_eq msg_type (JStr "assistant")) then Skip
      else if truthy (dict_get obj "isSidechain" JNull) then Skip
      else if truthy (dict_get obj "isMeta" JNull) then Skip
      else
        match dict_get obj "message" (JObj []) with
        | JObj message =>
            let role := dict_get message "role" (JStr "") in
            let timestamp := dict_get obj "timestamp" (JStr "") in
            match _extract_text_content
                    (dict_get message "content" (JStr "")) with
            | Raise e => Fail e
            | Ok content_text =>
                if negb (nonempty content_text)
                   || (py_len (strip content_text) <? 10)%nat then Skip
                else if startswith (strip content_text) "<command-name>"
                then Skip
                else if startswith (strip content_text) "<local-command"
                then Skip
                else Keep {| role := role;
                             content := content_text;
                             timestamp := timestamp;
                             session_id :=
                               dict_get obj "sessionId" (JStr "") |}
            end
        | _ => Skip
        end
  | Some _ => Fail AttributeError
  end.

(** The list [turns] for the lines of the opened file; the first line
    that raises ends the call. *)
Fixpoint parse_session_file (lines : list string) : result (list entry) :=
  match lines with
  | [] => Ok []
  | line :: rest =>
      match read_line line with
      | Skip => parse_session_file rest
      | Fail e => Raise e
      | Keep t =>
          match parse_session_file rest with
          | Ok turns => Ok (t :: turns)
          | Raise e => Raise e
          end
      end
  end.

End Parser.

Section Summary.

(** [str.upper] *)
Variable upper : string -> string.

(** [content[:1000] + "..."] for a content of more than 1000 characters. *)
Definition shorten (content : string) : string :=
  if (1000 <? py_len content)%nat
  then py_take 1000 content ++ "..."
  else content.

(** [f"[{role}]: {content}"] *)
Definition entry_text (role content : string) : string :=
  "[" ++ upper role ++ "]: " ++ shorten content.

(** The list [parts] from a turn on, with [total] characters kept so
    far: [turn["role"].upper()] raises [AttributeError] on a role that is
    no [str], and the first entry that does not fit ends the loop. *)
Fixpoint summary_parts (max_chars total : Z) (turns : list entry)
    : result (list string) :=
  match turns with
  | [] => Ok []
  | turn :: rest =>
      match role turn with
      | JStr r =>
          let e := entry_text r (content turn) in
          if max_chars <? total + Z.of_nat (py_len e) then Ok []
          else
            match summary_parts max_chars (total + Z.of_nat (py_len e)) rest with
            | Ok parts => Ok (e :: parts)
            | Raise x => Raise x
            end
      | _ => Raise AttributeError
      end
  end.

Definition blank_line : string := newline ++ newline.

Definition build_session_summary (turns : list entry) (max_chars : Z)
    : result string :=
  match summary_parts max_chars 0 turns with
  | Ok parts => Ok (join blank_line parts)
  | Raise x => Raise x
  end.

End Summary.

(** The dict [get_session_metadata] returns. *)
Module Metadata.
Record t := Make {
  session_id : string;
  project_dir : string;
  turn_count : nat;
  user_turns : nat;
  assistant_turns : nat;
  start_time : json;
  end_time : json
}.
End Metadata.

(** [sum(1 for t in turns if t["role"] == name)] *)
Definition count_role (name : string) (turns : list entry) : nat :=
  length (List.filter (fun t => py_eq (role t) (JStr name)) turns).

(** [[t["timestamp"] for t in turns if t.get("timestamp")]] *)
Definition timestamps (turns : list entry) : list json :=
  List.filter truthy (map timestamp turns).

(** The path is given by its [stem] and by the name of its parent. *)
Definition get_session_metadata (stem parent_name : string)
    (turns : list entry) : result Metadata.t :=
  match min_or_none (timestamps turns) with
  | Raise e => Raise e
  | Ok start_time =>
      match max_or_none (timestamps turns) with
      | Raise e => Raise e
      | Ok end_time =>
          Ok {| Metadata.session_id := stem;
                Metadata.project_dir := parent_name;
                Metadata.turn_count := length turns;
                Metadata.user_turns := count_role "user" turns;
                Metadata.assistant_turns := count_role "assistant" turns;
                Metadata.start_time := start_time;
                Metadata.end_time := end_time |}
      end
  end.

Section Timestamp.

(** [datetime.fromisoformat]: [None] when it raises [ValueError]. *)
Variable datetime : Type.
Variable fromisoformat : string -> option datetime.

(** [ts.replace] raises [AttributeError] on a true value that is no
    [str]; the [ValueError] of [fromisoformat] is caught. *)
Definition _parse_timestamp (ts : json) : result (option datetime) :=
  if negb (truthy ts) then Ok None else
  match ts with
  | JStr s => Ok (fromisoformat (replace_char "Z" "+00:00" s))
  | _ => Raise AttributeError
  end.

End Timestamp.

Section Decisions.

(** [json.loads] on the text between the brackets: [None] when it raises
    [json.JSONDecodeError]. *)
Variable json_loads : string -> option json.

Definition fence : string := "```".

(** The two steps that strip a markdown code fence. *)
Definition open_fence (text : string) : string :=
  if startswith text fence then
    match after_first "010" text with
    | Some r => r
    | None => drop_chars 3 text
    end
  else text.

Definition close_fence (text : string) : string :=
  if endswith (rstrip text) fence then drop_last 3 (rstrip text) else text.

(** The dict kept for an item of the decoded list. *)
Definition valid_decision (d : json) : option json :=
  match d with
  | JObj f =>
      if truthy (dict_get f "decision" JNull) then
        Some (JObj [("decision", dict_get f "decision" JNull);
                    ("context", dict_get f "context" (JStr ""));
                    ("trade_off", dict_get f "trade_off" (JStr ""));
                    ("date", dict_get f "date" JNull);
                    ("tags", dict_get f "tags" (JList []))])
      else None
  | _ => None
  end.

Fixpoint valid_decisions (decisions : list json) : list json :=
  match decisions with
  | [] => []
  | d :: rest =>
      match valid_decision d with
      | Some v => v :: valid_decisions rest
      | None => valid_decisions rest
      end
  end.

(** The value of [decisions] once decoded. *)
Definition decoded (decisions : option json) : list json :=
  match decisions with
  | Some (JList items) => valid_decisions items
  | _ => []
  end.

Definition _parse_decisions (raw_text : string) : list json :=
  let text := close_fence (open_fence (strip raw_text)) in
  match index_of "[" text with
  | None => []
  | Some start =>
      match rindex_of "]" text with
      | None => []
      | Some last => decoded (json_loads (slice text start (S last)))
      end
  end.

End Decisions.

End SessionFile.

(* ================================================================== *)
(** * Sample transcripts *)

Module SessionExamples.
Import SessionFile.

(** [str.upper] on the letters [a] to [z]; the other characters of ASCII
    are their own upper case. *)
Definition ascii_upper_char (c : ascii) : ascii :=
  let n := N_of_ascii c in
  if ((97 <=? n) && (n <=? 122))%N then ascii_of_N (n - 32) else c.

Fixpoint ascii_upper (s : string) : string :=
  match s with
  | EmptyString => EmptyString
  | String c r => String (ascii_upper_char c) (ascii_upper r)
  end.

Definition question_line : string :=
  Examples.dq "{'type': 'user', 'sessionId': 's1', 'message': {'role': 'user', 'content': 'Fix the bug in the parser'}, 'timestamp': '2026-02-10T12:00:00Z'}".

Definition answer_line : string :=
  Examples.dq "{'type': 'assistant', 'sessionId': 's1', 'message': {'role': 'assistant', 'content': [{'type': 'text', 'text': 'Reading the parser.'}]}, 'timestamp': '2026-02-10T12:00:30Z'}".

(** A text of fewer than ten characters. *)
Definition short_line : string :=
  Examples.dq "{'type': 'user', 'sessionId': 's1', 'message': {'role': 'user', 'content': 'Thanks'}, 'timestamp': '2026-02-10T12:01:00Z'}".

(** A timestamp that is a number. *)
Definition numbered_line : string :=
  Examples.dq "{'type': 'user', 'sessionId': 's1', 'message': {'role': 'user', 'content': 'Run the tests again'}, 'timestamp': 1770724860}".

Definition transcript : list string :=
  [question_line; answer_line; short_line].

Definition entries_of (lines : list string) : list entry :=
  match parse_session_file Decoder.loads lines with
  | Ok es => es
  | Raise _ => []
  end.

Definition transcript_entries : list entry :=
  Eval vm_compute in entries_of transcript.

Definition numbered_entries : list entry :=
  Eval vm_compute in entries_of [question_line; numbered_line].

Definition summary_of (turns : list entry) (max_chars : Z) : string :=
  match build_session_summary ascii_upper turns max_chars with
  | Ok s => s
  | Raise _ => EmptyString
  end.

(** The items of a reply of the model: a decision, a dict without a
    decision and a number. *)
Definition reply_items : string :=
  Examples.dq "{'decision': 'Use SQLite', 'tags': ['db']}, {'context': 'no decision'}, 5".

Definition reply : string := String "[" (reply_items ++ "]").

End SessionExamples.

(* ================================================================== *)
(** * Notions the properties of the transcript use *)

(** A text of ten characters or more between its outer white space. *)
Definition long_text (s : string) : bool :=
  (10 <=? py_len (strip s))%nat.

(** What the transcript and the first pass of [parse_session_into_turns]
    both keep of a line. *)
Definition spoken (m : message) : json * string * json :=
  (role m, text m, timestamp m).

Definition transcribed (e : SessionFile.entry) : json * string * json :=
  (SessionFile.role e, SessionFile.content e, SessionFile.timestamp e).

(** The entry of the summary for a turn whose role is a [str]. *)
Definition entry_of (upper : string -> string) (t : SessionFile.entry)
    : option string :=
  match SessionFile.role t with
  | JStr r => Some (SessionFile.entry_text upper r (SessionFile.content t))
  | _ => None
  end.

(** The characters of a list of strings. *)
Definition total_len (parts : list string) : Z :=
  fold_right (fun p acc => Z.of_nat (py_len p) + acc) 0 parts.

(** [t] is a part of [s]. *)
Definition within (t s : string) : Prop :=
  exists a b, s = (a ++ t ++ b)%string.

(* ================================================================== *)
(** * SHA-256 ([hashlib.sha256]) *)

Module SHA256.

Definition w32 (x : Z) : Z := x mod 2 ^ 32.

Definition rotr (x c : Z) : Z :=
  w32 (Z.lor (Z.shiftr x c) (Z.shiftl x (32 - c))).

(** The first 64 primes, by trial division. *)
Definition is_prime (n : nat) : bool :=
  (2 <=? n)%nat
  && forallb (fun d => negb (n mod d =? 0)%nat) (seq 2 (n - 2)).

Definition primes : list Z :=
  Eval vm_compute in
    map Z.of_nat (firstn 64 (List.filter is_prime (seq 2 400))).

(** The integer cube root, by bisection between [lo] and [hi]. *)
Fixpoint cbrt_between (fuel : nat) (lo hi n : Z) : Z :=
  match fuel with
  | O => lo
  | S fuel' =>
      let mid := (lo + hi) / 2 in
      if mid =? lo then lo
      else if mid * mid * mid <=? n then cbrt_between fuel' mid hi n
      else cbrt_between fuel' lo mid n
  end.

Definition cbrt (n : Z) : Z := cbrt_between 128 0 (n + 1) n.

(** The round constants: the first 32 bits of the fractional parts of the
    cube roots of the first 64 primes. *)
Definition constants : list Z :=
  Eval vm_compute in map (fun p => cbrt (p * 2 ^ 96) mod 2 ^ 32) primes.

(** The initial hash value: the first 32 bits of the fractional parts of
    the square roots of the first 8 primes. *)
Definition init : list Z :=
  Eval vm_compute in
    map (fun p => Z.sqrt (p * 2 ^ 64) mod 2 ^ 32) (firstn 8 primes).

(** The bytes of [x] on [n] bytes, most significant byte first. *)
Definition be_bytes (n : nat) (x : Z) : list Z :=
  map (fun i => Z.land (Z.shiftr x (8 * Z.of_nat i)) 255) (rev (seq 0 n)).

(** 0x80, zero bytes up to 56 mod 64, then the bit length on 64 bits. *)
Definition pad (msg : list Z) : list Z :=
  let len := Z.of_nat (length msg) in
  let zeros := Z.to_nat ((55 - len) mod 64) in
  msg ++ [128] ++ repeat 0 zeros ++ be_bytes 8 ((8 * len) mod 2 ^ 64).

Definition be_word (bs : list Z) : Z :=
  fold_left (fun acc b => 256 * acc + b) bs 0.

Fixpoint words (n : nat) (bs : list Z) : list Z :=
  match n with
  | O => []
  | S n' => be_word (firstn 4 bs) :: words n' (skipn 4 bs)
  end.

Definition sigma0 (x : Z) : Z :=
  Z.lxor (Z.lxor (rotr x 7) (rotr x 18)) (Z.shiftr x 3).

Definition sigma1 (x : Z) : Z :=
  Z.lxor (Z.lxor (rotr x 17) (rotr x 19)) (Z.shiftr x 10).

(** The message schedule: one more word from the sixteen before it. *)
Definition extend (w : list Z) (i : nat) : list Z :=
  w ++ [w32 (sigma1 (nth (i - 2) w 0) + nth (i - 7) w 0
             + sigma0 (nth (i - 15) w 0) + nth (i - 16) w 0)].

Definition schedule (chunk : list Z) : list Z :=
  fold_left extend (seq 16 48) (words 16 chunk).

Definition round (w : list Z) (v : list Z) (i : nat) : list Z :=
  match v with
  | [a; b; c; d; e; f; g; h] =>
      let s1 := Z.lxor (Z.lxor (rotr e 6) (rotr e 11)) (rotr e 25) in
      let ch := Z.lxor (Z.land e f) (Z.land (Z.lxor e 0xffffffff) g) in
      let temp1 := w32 (h + s1 + ch + nth i constants 0 + nth i w 0) in
      let s0 := Z.lxor (Z.lxor (rotr a 2) (rotr a 13)) (rotr a 22) in
      let maj := Z.lxor (Z.lxor (Z.land a b) (Z.land a c)) (Z.land b c) in
      let temp2 := w32 (s0 + maj) in
      [w32 (temp1 + temp2); a; b; c; w32 (d + temp1); e; f; g]
  | _ => v
  end.

Fixpoint add_words (h v : list Z) : list Z :=
  match h, v with
  | x :: h', y :: v' => w32 (x + y) :: add_words h' v'
  | _, _ => []
  end.

Definition block (h : list Z) (chunk : list Z) : list Z :=
  add_words h (fold_left (round (schedule chunk)) (seq 0 64) h).

Fixpoint blocks (n : nat) (h : list Z) (bs : list Z) : list Z :=
  match n with
  | O => h
  | S n' => blocks n' (block h (firstn 64 bs)) (skipn 64 bs)
  end.

Definition digest (msg : list Z) : list Z :=
  let p := pad msg in
  blocks (length p / 64) init p.

Definition hexdigest (h : list Z) : string :=
  string_of_list_ascii (concat (map MD5.hex_byte (flat_map (be_bytes 4) h))).

Definition sha256 (s : string) : string := hexdigest (digest (MD5.bytes_of s)).

End SHA256.

(* ================================================================== *)
(** * [src/storage/raw.py]: the archive of raw interactions *)

Module Archive.

(** A row of [raw_interactions], with the columns [store_raw_interaction]
    sets; the database fills in the key and the two dates of the row. *)
Record raw_interaction (datetime : Type) := RawInteraction {
  source_type : string;
  source_id : option string;
  account_id : option string;
  raw_content : string;
  raw_metadata : list (string * json);
  content_hash : option string;
  interaction_date : option datetime
}.

Arguments RawInteraction {datetime}.
Arguments source_type {datetime}.
Arguments source_id {datetime}.
Arguments account_id {datetime}.
Arguments raw_content {datetime}.
Arguments raw_metadata {datetime}.
Arguments content_hash {datetime}.
Arguments interaction_date {datetime}.

(** What a call leaves: the rows of the session and the row returned, or
    the exception it raises, the [UnicodeEncodeError] of
    [raw_content.encode()] or the [MultipleResultsFound] of
    [scalar_one_or_none]; the rows are as before then. *)
Inductive stored (datetime : Type) : Type :=
| Row (rows : list (raw_interaction datetime)) (row : raw_interaction datetime)
| UnicodeEncodeError
| MultipleResultsFound.

Arguments Row {datetime}.
Arguments UnicodeEncodeError {datetime}.
Arguments MultipleResultsFound {datetime}.

Section Store.

Context {datetime : Type}.

(** The rows in the order of their insertion. *)
Definition table : Type := list (raw_interaction datetime).

(** [select(RawInteraction).where(RawInteraction.content_hash == h)] *)
Definition has_hash (h : string) (row : raw_interaction datetime) : bool :=
  match content_hash row with
  | Some h' => String.eqb h' h
  | None => false
  end.

Definition with_hash (h : string) (rows : table) : table :=
  List.filter (has_hash h) rows.

Definition store_raw_interaction (rows : table)
    (source_type raw_content : string) (source_id account_id : option string)
    (raw_metadata : option (list (string * json)))
    (interaction_date : option datetime) : stored datetime :=
  if negb (encodable raw_content) then UnicodeEncodeError else
  let content_hash := SHA256.sha256 raw_content in
  match with_hash content_hash rows with
  | [] =>
      let interaction :=
        {| source_type := source_type;
           source_id := source_id;
           account_id := account_id;
           raw_content := raw_content;
           raw_metadata :=
             match raw_metadata with
             | Some m => m
             | None => []
             end;
           content_hash := Some content_hash;
           interaction_date := interaction_date |} in
      Row (rows ++ [interaction]) interaction
  | [found] => Row rows found
  | _ :: _ :: _ => MultipleResultsFound
  end.

End Store.

End Archive.

(* ================================================================== *)
(** * [src/ingestion/claude_code.py]: [ingest_session] *)

Module Ingest.
Import SessionFile.

(** The dict [ingest_session] returns; it has no key [decisions] for a
    file without turns. *)
Record ingested := Ingested {
  session_id : string;
  turns : nat;
  decisions_count : nat;
  decisions : option (list json)
}.

(** The exception of a call: one of the parser and of the helpers, the
    [UnicodeEncodeError] or the [MultipleResultsFound] of a store. *)
Inductive failure : Type :=
| Python (e : exn)
| Unicode
| Multiple.

(** The rows of the session when the call returns or raises. *)
Inductive outcome (datetime : Type) : Type :=
| Done (rows : list (Archive.raw_interaction datetime)) (result : ingested)
| Failed (rows : list (Archive.raw_interaction datetime)) (f : failure).

Arguments Done {datetime}.
Arguments Failed {datetime}.

(** The dict of the metadata, as it is stored with a row. *)
Definition metadata_dict (m : Metadata.t) : list (string * json) :=
  [ ("session_id", JStr (Metadata.session_id m));
    ("project_dir", JStr (Metadata.project_dir m));
    ("turn_count", JInt (Z.of_nat (Metadata.turn_count m)));
    ("user_turns", JInt (Z.of_nat (Metadata.user_turns m)));
    ("assistant_turns", JInt (Z.of_nat (Metadata.assistant_turns m)));
    ("start_time", Metadata.start_time m);
    ("end_time", Metadata.end_time m) ].

Section Session.

Variable json_loads : string -> option json.
Variable upper : string -> string.
Variable datetime : Type.
Variable fromisoformat : string -> option datetime.

(** [extract_decisions] on a transcript: the decisions read from the reply
    of the model, and [[]] without a key or when the call fails.  The rows
    it writes are rows of another table. *)
Variable extract_decisions : string -> list json.

(** [json.dumps(decisions, indent=2)] *)
Variable json_dumps : list json -> string.

(** The path is given by its [stem], the name of its parent and the lines
    of the opened file. *)
Definition ingest_session (rows : Archive.table) (stem parent_name : string)
    (lines : list string) (extract : bool) : outcome datetime :=
  match parse_session_file json_loads lines with
  | Raise e => Failed rows (Python e)
  | Ok [] =>
      Done rows {| session_id := stem; turns := 0; decisions_count := 0;
                   decisions := None |}
  | Ok ((_ :: _) as entries) =>
      match get_session_metadata stem parent_name entries with
      | Raise e => Failed rows (Python e)
      | Ok metadata =>
          match build_session_summary upper entries 8000 with
          | Raise e => Failed rows (Python e)
          | Ok transcript =>
              match _parse_timestamp datetime fromisoformat
                      (Metadata.start_time metadata) with
              | Raise e => Failed rows (Python e)
              | Ok started =>
                  match Archive.store_raw_interaction rows
                          "claude_code_session" transcript
                          (Some (Metadata.session_id metadata)) None
                          (Some (metadata_dict metadata)) started with
                  | Archive.UnicodeEncodeError => Failed rows Unicode
                  | Archive.MultipleResultsFound => Failed rows Multiple
                  | Archive.Row rows1 _ =>
                      let found :=
                        if extract && (3 <=? length entries)%nat
                        then extract_decisions transcript else [] in
                      let result :=
                        {| session_id := Metadata.session_id metadata;
                           turns := length entries;
                           decisions_count := length found;
                           decisions := Some found |} in
                      match found with
                      | [] => Done rows1 result
                      | _ :: _ =>
                          match _parse_timestamp datetime fromisoformat
                                  (Metadata.end_time metadata) with
                          | Raise e => Failed rows1 (Python e)
                          | Ok ended =>
                              match Archive.store_raw_interaction rows1
                                      "claude_code_decisions"
                                      (json_dumps found)
                                      (Some (Metadata.session_id metadata
                                             ++ "_decisions")%string)
                                      None
                                      (Some (metadata_dict metadata
                                             ++ [("decision_count",
                                                  JInt (Z.of_nat (length found)))]))
                                      ended with
                              | Archive.UnicodeEncodeError =>
                                  Failed rows1 Unicode
                              | Archive.MultipleResultsFound =>
                                  Failed rows1 Multiple
                              | Archive.Row rows2 _ => Done rows2 result
                              end
                          end
                      end
                  end
              end
          end
      end
  end.

End Session.

End Ingest.

(* ================================================================== *)
(** * Notions the properties of the archive use *)

(** No two rows have the same content hash. *)
Definition unique_hashes {datetime : Type}
    (rows : list (Archive.raw_interaction datetime)) : Prop :=
  forall h, (length (Archive.with_hash h rows) <= 1)%nat.

(** The rows of the session after a call of [ingest_session]. *)
Definition rows_after {datetime : Type} (o : Ingest.outcome datetime)
    : list (Archive.raw_interaction datetime) :=
  match o with
  | Ingest.Done rows _ => rows
  | Ingest.Failed rows _ => rows
  end.

(* ================================================================== *)
(** * A sample archive *)

Module ArchiveExamples.

(** Dates are kept as the text [fromisoformat] is given. *)
Definition fromisoformat (s : string) : option string := Some s.

(** A reply of the model with one decision, already read. *)
Definition extract_decisions (transcript : string) : list json :=
  SessionFile._parse_decisions Decoder.loads SessionExamples.reply.

Definition json_dumps (decisions : list json) : string := "[...]".

Definition ingest (rows : Archive.table) (lines : list string)
    (extract : bool) : Ingest.outcome string :=
  Ingest.ingest_session Decoder.loads SessionExamples.ascii_upper string
    fromisoformat extract_decisions json_dumps rows "abc" "-home-u-p"
    lines extract.

(** A transcript of three entries. *)
Definition long_transcript : list string :=
  [SessionExamples.question_line; SessionExamples.answer_line;
   Examples.dq "{'type': 'user', 'sessionId': 's1', 'message': {'role': 'user', 'content': 'Now run the tests'}, 'timestamp': '2026-02-10T12:01:00Z'}"].

Definition first_rows : Archive.table :=
  Eval vm_compute in rows_after (ingest [] long_transcript true).

Definition first_result : Ingest.ingested :=
  Eval vm_compute in
    match ingest [] long_transcript true with
    | Ingest.Done _ r => r
    | Ingest.Failed _ _ => Ingest.Ingested "" 0 0 None
    end.

(** The [str] of one lone surrogate, U+D83D. *)
Definition lone_surrogate : string :=
  String (ascii_of_N 237) (String (ascii_of_N 160) (String (ascii_of_N 189) "")).

Definition stored_row : Archive.raw_interaction string :=
  Eval vm_compute in
    match Archive.store_raw_interaction [] "note" "hello" None None None None with
    | Archive.Row _ r => r
    | _ => Archive.RawInteraction "" None None "" [] None None
    end.

End ArchiveExamples.

(* ================================================================== *)
(** * Properties of the parser *)

(** ** The loop of the second pass computes the segments *)

Lemma absorb_user_message t m :
  cur_user_message (absorb t m) = cur_user_message t.
Proof. reflexivity. Qed.

Lemma fold_absorb_user_message ms t :
  cur_user_message (fold_left absorb ms t) = cur_user_message t.
Proof.
  revert t. induction ms as [|m ms IH]; intros t; simpl; [reflexivity|].
  rewrite IH. apply absorb_user_message.
Qed.

Lemma is_assistant_not_user m :
  is_user m = false -> is_assistant m = py_eq (role m) (JStr "assistant").
Proof. intros H. unfold is_assistant. rewrite H. reflexivity. Qed.

Lemma group_step_user turns current m :
  is_user m = true ->
  group_step (turns, current) m = (flush turns current, Some (start_turn m)).
Proof. unfold is_user, group_step. intros ->. reflexivity. Qed.

Lemma group_step_other turns t m :
  is_user m = false ->
  group_step (turns, Some t) m =
  (turns, Some (if is_assistant m then absorb t m else t)).
Proof.
  intros H. rewrite (is_assistant_not_user _ H).
  unfold is_user in H. unfold group_step. rewrite H.
  destruct (py_eq (role m) (JStr "assistant")); reflexivity.
Qed.

Lemma group_step_idle turns m :
  is_user m = false -> group_step (turns, None) m = (turns, None).
Proof.
  unfold is_user, group_step. intros ->.
  destruct (py_eq (role m) (JStr "assistant")); reflexivity.
Qed.

Lemma flush_open turns t :
  flush turns (Some t) =
  if nonempty (cur_user_message t)
  then turns ++ [_finalize_turn t (length turns)] else turns.
Proof. reflexivity. Qed.

Lemma group_open ms : forall turns t,
  finish (fold_left group_step ms (turns, Some t)) =
  let t' := fold_left absorb (List.filter is_assistant (until_user ms)) t in
  let done := flush turns (Some t') in
  done ++ number (length done) (List.filter has_text (segments ms)).
Proof.
  induction ms as [|m ms IH]; intros turns t.
  - unfold finish; simpl. rewrite app_nil_r. reflexivity.
  - cbn [fold_left until_user segments]. destruct (is_user m) eqn:Hu.
    + rewrite group_step_user by exact Hu. rewrite IH.
      cbn [List.filter fold_left]. cbv zeta.
      unfold has_text at 2. cbn [fst].
      set (t' := fold_left absorb _ (start_turn m)).
      rewrite !flush_open.
      assert (Ht' : cur_user_message t' = text m).
      { unfold t'. rewrite fold_absorb_user_message. reflexivity. }
      rewrite Ht'. destruct (nonempty (text m)); simpl.
      * rewrite <- app_assoc. simpl. f_equal. f_equal.
        rewrite length_app. simpl. f_equal. lia.
      * reflexivity.
    + rewrite group_step_other by exact Hu. rewrite IH.
      cbn [List.filter]. destruct (is_assistant m); reflexivity.
Qed.

Lemma group_idle ms : forall turns,
  finish (fold_left group_step ms (turns, None)) =
  turns ++ number (length turns) (List.filter has_text (segments ms)).
Proof.
  induction ms as [|m ms IH]; intros turns.
  - unfold finish; simpl. rewrite app_nil_r. reflexivity.
  - cbn [fold_left segments]. destruct (is_user m) eqn:Hu.
    + rewrite group_step_user by exact Hu. rewrite group_open.
      change (flush turns None) with turns.
      cbn [List.filter]. cbv zeta.
      unfold has_text at 2. cbn [fst].
      set (t' := fold_left absorb _ (start_turn m)).
      rewrite !flush_open.
      assert (Ht' : cur_user_message t' = text m).
      { unfold t'. rewrite fold_absorb_user_message. reflexivity. }
      rewrite Ht'. destruct (nonempty (text m)); simpl.
      * rewrite <- app_assoc. simpl. f_equal. f_equal.
        rewrite length_app. simpl. f_equal. lia.
      * reflexivity.
    + rewrite group_step_idle by exact Hu. apply IH.
Qed.

Lemma group_turns_finish ms :
  group_turns ms = finish (fold_left group_step ms ([], None)).
Proof.
  unfold group_turns, finish.
  destruct (fold_left group_step ms ([], None)). reflexivity.
Qed.

Lemma group_turns_segments ms :
  group_turns ms = number 0 (List.filter has_text (segments ms)).
Proof. rewrite group_turns_finish, group_idle. reflexivity. Qed.

(** ** Turns without a user text *)

Lemma until_user_app pre rest :
  at_user rest -> until_user (pre ++ rest) = until_user pre.
Proof.
  intros H. induction pre as [|m pre IH]; simpl.
  - destruct rest as [|r rest]; simpl in *; [reflexivity | rewrite H; reflexivity].
  - destruct (is_user m); [reflexivity | rewrite IH; reflexivity].
Qed.

Lemma segments_app pre rest :
  at_user rest -> segments (pre ++ rest) = segments pre ++ segments rest.
Proof.
  intros H. induction pre as [|m pre IH]; simpl; [reflexivity|].
  destruct (is_user m); [|exact IH].
  rewrite (until_user_app _ _ H), IH. reflexivity.
Qed.

Lemma segments_no_user absorbed rest :
  Forall (fun m => is_user m = false) absorbed ->
  segments (absorbed ++ rest) = segments rest.
Proof.
  induction 1 as [|m absorbed Hm _ IH]; simpl; [reflexivity|].
  rewrite Hm. exact IH.
Qed.

Lemma number_user_message segs : forall index,
  Forall (fun s => has_text s = true) segs ->
  Forall (fun t => user_message t <> "") (number index segs).
Proof.
  induction segs as [|s segs IH]; intros index H; simpl; constructor.
  - inversion H as [|? ? Hs _]; subst. unfold turn_of. simpl.
    rewrite fold_absorb_user_message. simpl.
    unfold has_text in Hs. destruct (text (fst s)); [discriminate | discriminate].
  - apply IH. inversion H; assumption.
Qed.

Lemma filter_has_text segs :
  Forall (fun s => has_text s = true) (List.filter has_text segs).
Proof.
  induction segs as [|s segs IH]; simpl; [constructor|].
  destruct (has_text s) eqn:E; [constructor; assumption | assumption].
Qed.

Lemma parse_some json_loads lines messages :
  collect json_loads lines = Ok messages ->
  parse_session_into_turns json_loads (Some lines) =
  Ok (number 0 (List.filter has_text (segments messages))).
Proof.
  intros H. unfold parse_session_into_turns. rewrite H.
  rewrite group_turns_segments. reflexivity.
Qed.

(** C10: every returned turn has a user message that is not empty; a user
    message without text opens a grouping that is dropped with the
    assistant messages it absorbed: the result is the one of the input
    without that grouping, so nothing of it is returned or merged into the
    turn before it. *)
Theorem empty_user_grouping_is_discarded :
  (forall json_loads file turns,
      parse_session_into_turns json_loads file = Ok turns ->
      Forall (fun t => user_message t <> "") turns)
  /\
  (forall pre u absorbed rest,
      is_user u = true ->
      text u = "" ->
      Forall (fun m => is_user m = false) absorbed ->
      at_user rest ->
      group_turns (pre ++ u :: absorbed ++ rest) = group_turns (pre ++ rest)).
Proof.
  split.
  - intros json_loads [lines|] turns H; simpl in H.
    + destruct (collect json_loads lines) as [messages|e]; [|discriminate].
      injection H as <-. rewrite group_turns_segments.
      apply number_user_message, filter_has_text.
    + injection H as <-. constructor.
  - intros pre u absorbed rest Hu Ht Habs Hrest.
    rewrite !group_turns_segments. f_equal.
    rewrite (segments_app pre (u :: absorbed ++ rest)) by exact Hu.
    rewrite (segments_app pre rest) by exact Hrest.
    rewrite !List.filter_app. f_equal.
    simpl. rewrite Hu. simpl. unfold has_text at 1. simpl. rewrite Ht. simpl.
    rewrite segments_no_user by exact Habs. reflexivity.
Qed.

(** ** Segments partition the messages *)

Lemma segments_cover rest :
  List.filter (fun m => is_user m || is_assistant m) rest =
  List.filter is_assistant (until_user rest)
  ++ flat_map (fun s => fst s :: snd s) (segments rest).
Proof.
  induction rest as [|r rest IH]; simpl; [reflexivity|].
  destruct (is_user r) eqn:Hu; simpl.
  - rewrite IH. reflexivity.
  - destruct (is_assistant r); simpl; rewrite IH; reflexivity.
Qed.

Lemma segments_partition ms :
  flat_map (fun s => fst s :: snd s) (segments ms) =
  List.filter (fun m => is_user m || is_assistant m) (from_user ms).
Proof.
  induction ms as [|m ms IH]; simpl; [reflexivity|].
  destruct (is_user m) eqn:Hu; [|exact IH].
  simpl. rewrite Hu. simpl. rewrite segments_cover. reflexivity.
Qed.

Lemma absorb_raw_lines absorbed : forall t,
  cur_raw_lines (fold_left absorb absorbed t) =
  cur_raw_lines t ++ map raw_line absorbed.
Proof.
  induction absorbed as [|m absorbed IH]; intros t; simpl.
  - rewrite app_nil_r. reflexivity.
  - rewrite IH. simpl. rewrite <- app_assoc. reflexivity.
Qed.

Lemma turn_of_raw s index :
  raw_jsonl (turn_of s index) = join newline (map raw_line (fst s :: snd s)).
Proof.
  unfold turn_of. cbn [raw_jsonl _finalize_turn].
  rewrite absorb_raw_lines. reflexivity.
Qed.

Lemma absorb_texts absorbed : forall t,
  cur_assistant_texts (fold_left absorb absorbed t) =
  cur_assistant_texts t ++ List.filter nonempty (map text absorbed).
Proof.
  induction absorbed as [|m absorbed IH]; intros t; simpl.
  - rewrite app_nil_r. reflexivity.
  - rewrite IH. simpl. destruct (nonempty (text m)).
    + rewrite <- app_assoc. reflexivity.
    + reflexivity.
Qed.

Lemma turn_of_fields s index :
  user_message (turn_of s index) = text (fst s)
  /\ raw_jsonl (turn_of s index) =
     join newline (map raw_line (fst s :: snd s))
  /\ assistant_text (turn_of s index) =
     join newline (List.filter nonempty (map text (snd s)))
  /\ turn_number (turn_of s index) = index.
Proof.
  split; [|split; [|split]].
  - unfold turn_of. cbn [user_message _finalize_turn].
    apply fold_absorb_user_message.
  - apply turn_of_raw.
  - unfold turn_of. cbn [assistant_text _finalize_turn].
    rewrite absorb_texts. reflexivity.
  - reflexivity.
Qed.

(** What the loop does: the returned turns are, in order, the segments
    whose user message has a text, each made of that user message and of
    the assistant messages that follow it up to the next user message or
    the end of the input, whose lines and texts are the turn's raw lines
    and assistant text; and the segments partition the user and assistant
    messages from the first user message on, so an assistant message
    there lies in exactly one segment, returned or not. *)
Theorem turns_are_the_segments_with_text json_loads lines messages :
  collect json_loads lines = Ok messages ->
  parse_session_into_turns json_loads (Some lines) =
    Ok (number 0 (List.filter has_text (segments messages)))
  /\ (forall s index,
        user_message (turn_of s index) = text (fst s)
        /\ raw_jsonl (turn_of s index) =
           join newline (map raw_line (fst s :: snd s))
        /\ assistant_text (turn_of s index) =
           join newline (List.filter nonempty (map text (snd s)))
        /\ turn_number (turn_of s index) = index)
  /\ flat_map (fun s => fst s :: snd s) (segments messages) =
     List.filter (fun m => is_user m || is_assistant m) (from_user messages).
Proof.
  intros H. split; [apply parse_some, H|].
  split; [apply turn_of_fields | apply segments_partition].
Qed.

(** ** [strip] keeps what lies between two visible ASCII characters *)

Lemma inert_facts c :
  inert c = true -> space1 c = false /\ (c < 128)%N.
Proof.
  unfold inert. intros H. apply andb_true_iff in H as [H1 H2].
  apply N.ltb_lt in H1. apply negb_true_iff in H2. auto.
Qed.

Lemma space2_first c b : (c < 128)%N -> space2 c b = false.
Proof.
  intros H. unfold space2. destruct (N.eqb_spec c 194); [lia | reflexivity].
Qed.

Lemma space2_last a c : (c < 128)%N -> space2 a c = false.
Proof.
  intros H. unfold space2.
  destruct (N.eqb_spec c 133); [lia|]. destruct (N.eqb_spec c 160); [lia|].
  apply andb_false_r.
Qed.

Lemma space3_first c a b : (c < 128)%N -> space3 c a b = false.
Proof.
  intros H. unfold space3.
  destruct (N.eqb_spec c 225); [lia|]. destruct (N.eqb_spec c 226); [lia|].
  destruct (N.eqb_spec c 227); [lia|]. reflexivity.
Qed.

Lemma space3_middle a c b : (c < 128)%N -> space3 a c b = false.
Proof.
  intros H. unfold space3.
  destruct (N.eqb_spec c 154); [lia|]. destruct (N.eqb_spec c 128); [lia|].
  destruct (N.eqb_spec c 129); [lia|].
  rewrite !andb_false_r. reflexivity.
Qed.

Lemma space3_last a b c : (c < 128)%N -> space3 a b c = false.
Proof.
  intros H. unfold space3.
  destruct (N.eqb_spec c 128); [lia|]. destruct (N.eqb_spec c 159); [lia|].
  destruct (N.eqb_spec c 168); [lia|]. destruct (N.eqb_spec c 169); [lia|].
  destruct (N.eqb_spec c 175); [lia|].
  destruct (N.leb_spec 128 c); [lia|].
  rewrite !andb_false_r. reflexivity.
Qed.

Lemma drop_space_inert c r : inert c = true -> drop_space (c :: r) = None.
Proof.
  intros H. apply inert_facts in H as [H1 H2]. unfold drop_space.
  rewrite H1. destruct r as [|b r]; [reflexivity|].
  rewrite space2_first by exact H2. destruct r as [|d r]; [reflexivity|].
  rewrite space3_first by exact H2. reflexivity.
Qed.

Lemma lstrip_inert c r :
  inert c = true -> lstrip_bytes (c :: r) = c :: r.
Proof.
  intros H. unfold lstrip_bytes. simpl length. cbn [drop_while].
  rewrite drop_space_inert by exact H. reflexivity.
Qed.

Lemma drop_space_rev_inert c tail : inert c = true -> forall front,
  drop_space_rev (front ++ c :: tail) = None \/
  exists front', drop_space_rev (front ++ c :: tail) = Some (front' ++ c :: tail).
Proof.
  intros H. apply inert_facts in H as [H1 H2].
  intros [|y1 [|y2 [|y3 front]]]; cbn [app drop_space_rev].
  - rewrite H1. left. destruct tail as [|b tail]; [reflexivity|].
    rewrite space2_last by exact H2. destruct tail as [|d tail]; [reflexivity|].
    rewrite space3_last by exact H2. reflexivity.
  - destruct (space1 y1); [right; exists []; reflexivity|].
    rewrite space2_first by exact H2. left.
    destruct tail as [|b tail]; [reflexivity|].
    rewrite space3_middle by exact H2. reflexivity.
  - destruct (space1 y1); [right; exists [y2]; reflexivity|].
    destruct (space2 y2 y1); [right; exists []; reflexivity|].
    rewrite space3_first by exact H2. left. reflexivity.
  - destruct (space1 y1); [right; exists (y2 :: y3 :: front); reflexivity|].
    destruct (space2 y2 y1); [right; exists (y3 :: front); reflexivity|].
    destruct (space3 y3 y2 y1); [right; exists front; reflexivity|].
    left. reflexivity.
Qed.

Lemma drop_while_rev_inert c tail : inert c = true -> forall fuel front,
  exists front',
    drop_while drop_space_rev fuel (front ++ c :: tail) = front' ++ c :: tail.
Proof.
  intros H. induction fuel as [|fuel IH]; intros front; cbn [drop_while].
  - exists front. reflexivity.
  - destruct (drop_space_rev_inert c tail H front) as [E | [front' E]];
      rewrite E.
    + exists front. reflexivity.
    + apply IH.
Qed.

Lemma rstrip_inert body c rest : inert c = true ->
  exists rest', rstrip_bytes (body ++ c :: rest) = body ++ c :: rest'.
Proof.
  intros H. unfold rstrip_bytes.
  rewrite rev_app_distr. cbn [rev]. rewrite <- app_assoc. cbn [app].
  destruct (drop_while_rev_inert c (rev body) H
              (length (body ++ c :: rest)) (rev rest)) as [front' E].
  rewrite E. exists (rev front').
  rewrite rev_app_distr. cbn [rev]. rewrite rev_involutive, <- app_assoc.
  reflexivity.
Qed.

Lemma bytes_append s1 s2 : bytes (s1 ++ s2)%string = bytes s1 ++ bytes s2.
Proof.
  unfold bytes. induction s1 as [|a s1 IH]; simpl; [reflexivity|].
  f_equal. exact IH.
Qed.

Lemma of_bytes_app l1 l2 :
  of_bytes (l1 ++ l2) = (of_bytes l1 ++ of_bytes l2)%string.
Proof.
  unfold of_bytes. induction l1 as [|a l1 IH]; simpl; [reflexivity|].
  rewrite IH. reflexivity.
Qed.

Lemma of_bytes_bytes s : of_bytes (bytes s) = s.
Proof.
  unfold of_bytes, bytes, byte_of. induction s as [|a s IH]; simpl; [reflexivity|].
  rewrite ascii_N_embedding, IH. reflexivity.
Qed.

Lemma prefix_split p : forall s,
  String.prefix p s = true -> exists r, s = (p ++ r)%string.
Proof.
  induction p as [|a p IH]; intros s H.
  - exists s. reflexivity.
  - destruct s as [|b s]; [discriminate|]. simpl in H.
    destruct (ascii_dec a b) as [->|]; [|discriminate].
    destruct (IH s H) as [r ->]. exists r. reflexivity.
Qed.

Lemma prefix_append p r : String.prefix p (p ++ r)%string = true.
Proof.
  induction p as [|a p IH]; simpl; [destruct r; reflexivity|].
  destruct (ascii_dec a a); [exact IH | contradiction].
Qed.

(** A string that starts with a word whose first and last characters are
    visible ASCII characters keeps the word in front after [strip]. *)
Lemma strip_keeps_word word first body last s :
  bytes word = first :: body ++ [last] ->
  inert first = true -> inert last = true ->
  startswith s word = true -> startswith (strip s) word = true.
Proof.
  intros Hw Hf Hl H. unfold startswith in *.
  destruct (prefix_split _ _ H) as [r ->].
  unfold strip. rewrite bytes_append, Hw.
  cbn [app]. rewrite lstrip_inert by exact Hf.
  rewrite <- app_assoc. cbn [app].
  destruct (rstrip_inert (first :: body) last (bytes r) Hl) as [rest' E].
  cbn [app] in E. rewrite E.
  replace (first :: body ++ last :: rest')
    with ((first :: body ++ [last]) ++ rest')
    by (cbn [app]; rewrite <- app_assoc; reflexivity).
  rewrite of_bytes_app, <- Hw, of_bytes_bytes.
  apply prefix_append.
Qed.

Lemma command_marker_strip s :
  command_marker s = true -> command_marker (strip s) = true.
Proof.
  unfold command_marker. intros H. apply orb_true_iff in H as [H | H];
    apply orb_true_iff; [left | right].
  - apply (strip_keeps_word _ 60%N (tl (removelast (bytes "<command-name>"))) 62%N);
      [reflexivity | reflexivity | reflexivity | exact H].
  - apply (strip_keeps_word _ 60%N (tl (removelast (bytes "<local-command"))) 100%N);
      [reflexivity | reflexivity | reflexivity | exact H].
Qed.

Lemma command_marker_nonempty s : command_marker s = true -> nonempty s = true.
Proof. destruct s; [intros H; discriminate H | reflexivity]. Qed.

(** ** [hashlib.md5] and [strip] do what Python does *)

(** The test suite of RFC 1321. *)
Example md5_test_suite :
  MD5.md5 "" = "d41d8cd98f00b204e9800998ecf8427e"
  /\ MD5.md5 "a" = "0cc175b9c0f1b6a831c399e269772661"
  /\ MD5.md5 "abc" = "900150983cd24fb0d6963f7d28e17f72"
  /\ MD5.md5 "message digest" = "f96b697d7cb7938d525a2f31aaf161d0"
  /\ MD5.md5 "12345678901234567890123456789012345678901234567890123456789012345678901234567890"
     = "57edf4a22be3c955ac49da2e2107b67a".
Proof. repeat split; vm_compute; reflexivity. Qed.

Lemma drop_space_shorter s r :
  drop_space s = Some r -> (length r < length s)%nat.
Proof.
  unfold drop_space. destruct s as [|a [|b [|c s]]]; try discriminate;
    repeat match goal with
           | |- context [if ?b then _ else _] => destruct b
           end;
    intros [= <-]; simpl; lia.
Qed.

Lemma drop_space_rev_shorter s r :
  drop_space_rev s = Some r -> (length r < length s)%nat.
Proof.
  unfold drop_space_rev. destruct s as [|a [|b [|c s]]]; try discriminate;
    repeat match goal with
           | |- context [if ?b then _ else _] => destruct b
           end;
    intros [= <-]; simpl; lia.
Qed.

(** The fuel of [drop_while] is enough: nothing is left to drop. *)
Lemma drop_while_done drop :
  (forall s r, drop s = Some r -> (length r < length s)%nat) ->
  forall fuel s, (length s <= fuel)%nat ->
  drop (drop_while drop fuel s) = None.
Proof.
  intros Hdrop. induction fuel as [|fuel IH]; intros s Hs; cbn [drop_while].
  - destruct (drop s) as [r|] eqn:E; [|reflexivity].
    apply Hdrop in E. lia.
  - destruct (drop s) as [r|] eqn:E; [|exact E].
    apply IH. apply Hdrop in E. lia.
Qed.

Lemma strip_is_complete s :
  drop_space (lstrip_bytes (bytes s)) = None
  /\ drop_space_rev (rev (rstrip_bytes (lstrip_bytes (bytes s)))) = None.
Proof.
  split.
  - apply (drop_while_done _ drop_space_shorter). lia.
  - unfold rstrip_bytes. rewrite rev_involutive.
    apply (drop_while_done _ drop_space_rev_shorter).
    rewrite length_rev. lia.
Qed.

Example strip_samples :
  strip (String "009" (String.append " a b " (String "194" (String "160" (String "010" ""))))) = "a b"
  /\ strip (String "226" (String "128" (String "131" "x"))) = "x"
  /\ strip (String "226" (String "130" (String "172" " "))) =
     String "226" (String "130" (String "172" "")).
Proof. repeat split; vm_compute; reflexivity. Qed.

(** ** Lines the first pass skips *)

Lemma py_eq_str v s : py_eq v (JStr s) = true <-> v = JStr s.
Proof.
  destruct v as [| b | n | f | t | l | o];
    try destruct f; try destruct l; try destruct o; simpl;
    try (split; [discriminate | intros H; discriminate H]).
  rewrite String.eqb_eq.
  split; [intros ->; reflexivity | intros [= ->]; reflexivity].
Qed.

Lemma py_eq_str_false v s : v <> JStr s -> py_eq v (JStr s) = false.
Proof.
  intros H. destruct (py_eq v (JStr s)) eqn:E; [|reflexivity].
  apply py_eq_str in E. contradiction.
Qed.

Lemma read_line_skipped json_loads line :
  skipped json_loads line -> read_line json_loads line = Skip.
Proof.
  intros H. unfold read_line.
  destruct (nonempty (strip line)); [|reflexivity]. cbn [negb].
  destruct H as [H | obj H Hu Ha | obj H Hf | obj message resolved H Hm Ht Hc];
    rewrite H.
  - reflexivity.
  - rewrite (py_eq_str_false _ _ Hu), (py_eq_str_false _ _ Ha). reflexivity.
  - destruct (negb _); [reflexivity|].
    assert (Hflag : truthy (dict_get obj "isSidechain" JNull)
                    || truthy (dict_get obj "isMeta" JNull) = true).
    { unfold dict_get. destruct Hf as [-> | ->];
        [reflexivity | apply orb_true_r]. }
    rewrite Hflag. reflexivity.
  - destruct (negb _); [reflexivity|].
    destruct (_ || _); [reflexivity|].
    unfold dict_get at 1. rewrite Hm, Ht.
    assert (Hmark : command_marker resolved = true).
    { unfold command_marker. destruct Hc as [-> | ->];
        [reflexivity | apply orb_true_r]. }
    rewrite (command_marker_nonempty _ Hmark), (command_marker_strip _ Hmark).
    reflexivity.
Qed.

Lemma collect_skip json_loads pre line post :
  read_line json_loads line = Skip ->
  collect json_loads (pre ++ line :: post) = collect json_loads (pre ++ post).
Proof.
  intros H. induction pre as [|l pre IH]; simpl.
  - rewrite H. reflexivity.
  - rewrite IH. reflexivity.
Qed.

(** C5: a line that fails to decode, an entry of another type, a flagged
    entry and an entry whose text begins with a command marker contribute
    nothing: the call returns what it returns on the file without the
    line, so no field of a turn holds anything of it. *)
Theorem skipped_line_contributes_nothing json_loads pre line post :
  skipped json_loads line ->
  parse_session_into_turns json_loads (Some (pre ++ line :: post)) =
  parse_session_into_turns json_loads (Some (pre ++ post)).
Proof.
  intros H. unfold parse_session_into_turns.
  rewrite (collect_skip _ _ _ _ (read_line_skipped _ _ H)). reflexivity.
Qed.

(** ** Text and tool names *)

#[local] Arguments block_of_type : simpl never.

Lemma as_strings_str l : as_strings (map JStr l) = Ok l.
Proof.
  induction l as [|s l IH]; simpl; [reflexivity | rewrite IH; reflexivity].
Qed.

Lemma is_str_map l : Forall is_str l -> l = map JStr (map str_of l).
Proof.
  induction 1 as [|v l [s ->] _ IH]; simpl; [reflexivity|].
  f_equal. exact IH.
Qed.

Lemma text_parts_blocks blocks : text_parts blocks = flat_map block_text blocks.
Proof.
  induction blocks as [|b blocks IH]; simpl; [reflexivity|].
  destruct b; simpl; try exact IH.
  destruct (block_of_type "text" (JObj fields)); simpl; rewrite IH; reflexivity.
Qed.

Lemma text_parts_filter blocks :
  text_parts (List.filter (block_of_type "text") blocks) = text_parts blocks.
Proof.
  induction blocks as [|b blocks IH]; simpl; [reflexivity|].
  destruct (block_of_type "text" b) eqn:E.
  - destruct b; try discriminate E. simpl. rewrite E, IH. reflexivity.
  - destruct b; try exact IH; rewrite E; exact IH.
Qed.

Lemma mem_in x l : existsb (String.eqb x) l = true <-> In x l.
Proof.
  rewrite existsb_exists. split.
  - intros [y [Hy E]]. apply String.eqb_eq in E. subst. exact Hy.
  - intros H. exists x. split; [exact H | apply String.eqb_refl].
Qed.

Lemma mem_incl x l1 l2 :
  incl l1 l2 -> existsb (String.eqb x) l1 = true ->
  existsb (String.eqb x) l2 = true.
Proof. rewrite !mem_in. intros H. apply H. Qed.

Lemma fold_add_str xs : forall acc,
  fold_left add_str xs acc = acc ++ first_occurrences acc xs.
Proof.
  induction xs as [|x xs IH]; intros acc; simpl.
  - rewrite app_nil_r. reflexivity.
  - rewrite IH. unfold add_str.
    destruct (existsb (String.eqb x) acc); [reflexivity|].
    rewrite <- app_assoc. reflexivity.
Qed.

Lemma first_occurrences_twice xs : forall seen acc,
  incl seen acc ->
  first_occurrences acc (first_occurrences seen xs) = first_occurrences acc xs.
Proof.
  induction xs as [|x xs IH]; intros seen acc Hincl; simpl; [reflexivity|].
  destruct (existsb (String.eqb x) seen) eqn:Es.
  - rewrite (mem_incl _ _ _ Hincl Es). apply IH, Hincl.
  - simpl. destruct (existsb (String.eqb x) acc) eqn:Ea.
    + apply IH. intros y Hy. apply in_app_or in Hy as [Hy | [<- | []]].
      * apply Hincl, Hy.
      * apply mem_in, Ea.
    + f_equal. apply IH. intros y Hy. apply in_app_or in Hy as [Hy | Hy].
      * apply in_or_app. left. apply Hincl, Hy.
      * apply in_or_app. right. exact Hy.
Qed.

Lemma py_in_str x l :
  py_in (JStr x) (map JStr l) = existsb (String.eqb x) l.
Proof.
  unfold py_in. induction l as [|y l IH]; simpl; [reflexivity|].
  rewrite IH, (String.eqb_sym y x). reflexivity.
Qed.

Lemma fold_add_name_str xs : forall acc,
  fold_left add_name (map JStr xs) (map JStr acc) =
  map JStr (fold_left add_str xs acc).
Proof.
  induction xs as [|x xs IH]; intros acc; simpl; [reflexivity|].
  unfold add_name at 2, add_str at 2. rewrite py_in_str.
  destruct (existsb (String.eqb x) acc).
  - apply IH.
  - rewrite <- (IH (acc ++ [x])), map_app. reflexivity.
Qed.

Lemma add_tool_names block : forall tools,
  add_tool tools block =
  fold_left add_name (tool_use_names (JList [block])) tools.
Proof.
  intros tools. unfold add_tool, tool_use_names. cbn [flat_map].
  destruct block; try reflexivity.
  destruct (block_of_type "tool_use" (JObj fields)); [|reflexivity].
  cbn [andb]. destruct (truthy _); [|reflexivity].
  cbn [andb app fold_left]. unfold add_name.
  destruct (py_in _ tools); reflexivity.
Qed.

Lemma tool_use_names_cons block blocks :
  tool_use_names (JList (block :: blocks)) =
  tool_use_names (JList [block]) ++ tool_use_names (JList blocks).
Proof. unfold tool_use_names. cbn [flat_map]. rewrite app_nil_r. reflexivity. Qed.

Lemma extract_tool_names_fold c :
  _extract_tool_names c = fold_left add_name (tool_use_names c) [].
Proof.
  destruct c; try reflexivity. unfold _extract_tool_names.
  generalize (@nil json). induction items as [|b items IH]; intros tools.
  - reflexivity.
  - rewrite tool_use_names_cons, fold_left_app. cbn [fold_left].
    rewrite add_tool_names. apply IH.
Qed.

Lemma absorb_tool_names absorbed : forall t,
  cur_tool_names (fold_left absorb absorbed t) =
  fold_left (fun names m =>
               fold_left add_name (_extract_tool_names (content m)) names)
            absorbed (cur_tool_names t).
Proof.
  induction absorbed as [|m absorbed IH]; intros t; simpl; [reflexivity|].
  rewrite IH. reflexivity.
Qed.

Lemma tool_names_strings absorbed : forall seen,
  Forall is_str (flat_map (fun m => tool_use_names (content m)) absorbed) ->
  fold_left (fun names m =>
               fold_left add_name (_extract_tool_names (content m)) names)
            absorbed (map JStr seen) =
  map JStr (fold_left add_str
              (map str_of (flat_map (fun m => tool_use_names (content m)) absorbed))
              seen).
Proof.
  induction absorbed as [|m absorbed IH]; intros seen H; simpl; [reflexivity|].
  simpl in H. apply Forall_app in H as [Hm Hrest].
  rewrite extract_tool_names_fold.
  rewrite (is_str_map _ Hm) at 1.
  change (@nil json) with (map JStr []).
  rewrite fold_add_name_str, fold_add_name_str, (IH _ Hrest).
  f_equal. rewrite map_app, fold_left_app. f_equal.
  rewrite !fold_add_str. cbn [app]. f_equal.
  apply first_occurrences_twice. intros y [].
Qed.

Lemma add_name_once names t : once names -> once (add_name names t).
Proof.
  intros H. unfold add_name. destruct (py_in t names) eqn:E; [exact H|].
  constructor; assumption.
Qed.

Lemma fold_add_name_once xs : forall names,
  once names -> once (fold_left add_name xs names).
Proof.
  induction xs as [|x xs IH]; intros names H; simpl; [exact H|].
  apply IH, add_name_once, H.
Qed.

Lemma absorbed_names_once absorbed : forall names,
  once names ->
  once (fold_left (fun names m =>
                     fold_left add_name (_extract_tool_names (content m)) names)
                  absorbed names).
Proof.
  induction absorbed as [|m absorbed IH]; intros names H; simpl; [exact H|].
  apply IH, fold_add_name_once, H.
Qed.

(** ** From the lines to the messages and to the turns *)

Lemma number_Forall2 (P : turn -> segment -> Prop) segs :
  (forall s index, P (turn_of s index) s) ->
  forall index, Forall2 P (number index segs) segs.
Proof.
  intros H. induction segs as [|s segs IH]; intros index; cbn [number];
    constructor; [apply H | apply IH].
Qed.

(** A kept message holds what its own line gives. *)
Lemma read_line_keeps json_loads line m :
  read_line json_loads line = Keep m ->
  message_of_line json_loads line m
  /\ _extract_text_content (content m) = Ok (text m).
Proof.
  unfold read_line, message_of_line. destruct (negb _); [discriminate|].
  destruct (json_loads (strip line)) as [[| | | | | |obj]|] eqn:L;
    try discriminate.
  destruct (negb _); [discriminate|]. destruct (_ || _); [discriminate|].
  destruct (dict_get obj "message" (JObj [])) as [| | | | | |msg] eqn:M;
    try discriminate.
  destruct (_extract_text_content _) as [t|e] eqn:T; [|discriminate].
  destruct (_ && _); [discriminate|]. intros [= <-].
  cbn [content role model timestamp raw_line text].
  split; [|exact T]. exists obj, msg.
  split; [reflexivity|]. split; [exact M|]. repeat split; reflexivity.
Qed.

(** The messages are those of the kept lines, in order. *)
Lemma collect_kept json_loads lines : forall messages,
  collect json_loads lines = Ok messages ->
  Forall2 (fun line m => read_line json_loads line = Keep m)
          (kept_lines json_loads lines) messages.
Proof.
  unfold kept_lines.
  induction lines as [|l lines IH]; intros messages H; cbn [collect] in H;
    cbn [List.filter].
  - injection H as <-. constructor.
  - unfold kept at 1. destruct (read_line json_loads l) as [|m|e] eqn:E;
      [exact (IH _ H) | | discriminate].
    destruct (collect json_loads lines) as [ms|]; [|discriminate].
    injection H as <-. constructor; [exact E | exact (IH _ eq_refl)].
Qed.

Lemma as_strings_ok parts : forall l,
  as_strings parts = Ok l -> parts = map JStr l.
Proof.
  induction parts as [|p parts IH]; intros l; cbn [as_strings].
  - intros [= <-]. reflexivity.
  - destruct p; try discriminate.
    destruct (as_strings parts) as [l'|]; [|discriminate].
    intros [= <-]. cbn [map]. rewrite (IH l' eq_refl). reflexivity.
Qed.

Lemma str_of_map l : map str_of (map JStr l) = l.
Proof.
  induction l as [|s l IH]; [reflexivity|]. cbn [map str_of].
  rewrite IH. reflexivity.
Qed.

Lemma is_str_strings l : Forall is_str (map JStr l).
Proof.
  induction l as [|s l IH]; constructor; [eexists; reflexivity | exact IH].
Qed.

(** The text the extraction returns for a content. *)
Lemma extracted_text c t :
  _extract_text_content c = Ok t ->
  match c with
  | JStr s => t = s
  | JList blocks =>
      Forall is_str (flat_map block_text blocks)
      /\ t = join newline (map str_of (flat_map block_text blocks))
  | _ => t = EmptyString
  end.
Proof.
  destruct c as [| | | |s|blocks|]; cbn [_extract_text_content];
    try (intros [= <-]; reflexivity).
  unfold join_values. rewrite text_parts_blocks.
  destruct (as_strings (flat_map block_text blocks)) as [l|] eqn:E;
    [|discriminate].
  intros [= <-]. apply as_strings_ok in E. rewrite E.
  split; [apply is_str_strings | rewrite str_of_map; reflexivity].
Qed.

Lemma turn_of_tool_names s index :
  once (tool_names (turn_of s index))
  /\ (Forall is_str (segment_tool_names s) ->
      tool_names (turn_of s index) =
      map JStr (first_occurrences [] (map str_of (segment_tool_names s)))).
Proof.
  unfold turn_of, segment_tool_names. cbn [tool_names _finalize_turn].
  rewrite absorb_tool_names. cbn [cur_tool_names start_turn]. split.
  - apply absorbed_names_once. constructor.
  - intros H. change (@nil json) with (map JStr []).
    rewrite (tool_names_strings _ _ H), fold_add_str. reflexivity.
Qed.

(** C6: the text function returns a string content as it is, and for a
    list content the texts of its text-typed blocks joined by newlines,
    blind to the other blocks.  Each message the parser keeps comes from
    its own line, and its text is the text of the content of that line: the
    content itself when it is a string, the newline-joined texts of its
    text-typed blocks when it is a list.  Each returned turn has the text
    of its user message, the newline-joined texts of its assistant
    messages, and as tool names the names of the tool_use blocks of its
    assistant messages, each once, in the order of their first occurrence;
    whatever the names are, none was in the list when the loop appended
    it. *)
Theorem text_and_tool_names json_loads :
  (forall s, _extract_text_content (JStr s) = Ok s)
  /\ (forall blocks,
        Forall is_str (flat_map block_text blocks) ->
        _extract_text_content (JList blocks) =
        Ok (join newline (map str_of (flat_map block_text blocks))))
  /\ (forall blocks,
        _extract_text_content (JList blocks) =
        _extract_text_content (JList (List.filter (block_of_type "text") blocks)))
  /\ (forall lines messages,
        collect json_loads lines = Ok messages ->
        Forall2 (fun line m =>
                   read_line json_loads line = Keep m
                   /\ message_of_line json_loads line m
                   /\ _extract_text_content (content m) = Ok (text m)
                   /\ match content m with
                      | JStr s => text m = s
                      | JList blocks =>
                          Forall is_str (flat_map block_text blocks)
                          /\ text m =
                             join newline
                               (map str_of (flat_map block_text blocks))
                      | _ => text m = EmptyString
                      end)
                (kept_lines json_loads lines) messages
        /\ exists turns,
             parse_session_into_turns json_loads (Some lines) = Ok turns
             /\ Forall2 (fun t s =>
                           user_message t = text (fst s)
                           /\ assistant_text t =
                              join newline
                                (List.filter nonempty (map text (snd s)))
                           /\ once (tool_names t)
                           /\ (Forall is_str (segment_tool_names s) ->
                               tool_names t =
                               map JStr
                                 (first_occurrences []
                                    (map str_of (segment_tool_names s)))))
                        turns (List.filter has_text (segments messages))).
Proof.
  split; [reflexivity|]. split; [|split; [|]].
  - intros blocks H. unfold _extract_text_content, join_values.
    rewrite text_parts_blocks, (is_str_map _ H) at 1.
    rewrite as_strings_str. reflexivity.
  - intros blocks. unfold _extract_text_content.
    rewrite text_parts_filter. reflexivity.
  - intros lines messages H. split.
    + eapply List.Forall2_impl; [|exact (collect_kept _ _ _ H)].
      intros line m E. destruct (read_line_keeps _ _ _ E) as [M T].
      split; [exact E|]. split; [exact M|]. split; [exact T|].
      exact (extracted_text _ _ T).
    + eexists. split; [exact (parse_some _ _ _ H)|].
      apply number_Forall2. intros s index.
      destruct (turn_of_fields s index) as [U [_ [A _]]].
      destruct (turn_of_tool_names s index) as [O N].
      split; [exact U|]. split; [exact A|]. split; [exact O | exact N].
Qed.

(** ** Determinism *)

Lemma read_line_ext loads1 loads2 line :
  loads1 (strip line) = loads2 (strip line) ->
  read_line loads1 line = read_line loads2 line.
Proof. intros H. unfold read_line. rewrite H. reflexivity. Qed.

Lemma collect_ext loads1 loads2 lines :
  (forall line, In line lines -> loads1 (strip line) = loads2 (strip line)) ->
  collect loads1 lines = collect loads2 lines.
Proof.
  induction lines as [|l lines IH]; intros H; simpl; [reflexivity|].
  rewrite (read_line_ext loads1 loads2 l) by (apply H; left; reflexivity).
  rewrite IH by (intros line Hl; apply H; right; exact Hl).
  reflexivity.
Qed.

(** C1: two runs on the same file content, whose decoders return the same
    values on the lines of the file, return the same outcome: the same
    list of turns, equal field by field, with the same hashes, or the
    same exception.  The outcome depends on nothing else. *)
Theorem parse_is_deterministic loads1 loads2 file1 file2 :
  file1 = file2 ->
  (forall lines line,
      file1 = Some lines -> In line lines ->
      loads1 (strip line) = loads2 (strip line)) ->
  parse_session_into_turns loads1 file1 = parse_session_into_turns loads2 file2
  /\ hashes (parse_session_into_turns loads1 file1) =
     hashes (parse_session_into_turns loads2 file2).
Proof.
  intros <- H.
  assert (E : parse_session_into_turns loads1 file1 =
              parse_session_into_turns loads2 file1).
  { destruct file1 as [lines|]; [|reflexivity]. simpl.
    rewrite (collect_ext loads1 loads2 lines); [reflexivity|].
    intros line Hl. exact (H lines line eq_refl Hl). }
  rewrite E. split; reflexivity.
Qed.

Lemma parse_is_deterministic_witness :
  Some Examples.exchange = Some Examples.exchange
  /\ parse_session_into_turns Decoder.loads (Some Examples.exchange) =
     parse_session_into_turns Decoder.loads (Some Examples.exchange)
  /\ hashes (parse_session_into_turns Decoder.loads (Some Examples.exchange)) =
     hashes (parse_session_into_turns Decoder.loads (Some Examples.exchange)).
Proof.
  split; [reflexivity|].
  apply (parse_is_deterministic Decoder.loads Decoder.loads
           (Some Examples.exchange) (Some Examples.exchange));
    [reflexivity | intros; reflexivity].
Defined.

(** ** The content hash *)

Lemma number_raw segs : forall index,
  map raw_jsonl (number index segs) =
  map (fun s => join newline (map raw_line (fst s :: snd s))) segs.
Proof.
  induction segs as [|s segs IH]; intros index; cbn [number map]; [reflexivity|].
  rewrite turn_of_raw, IH. reflexivity.
Qed.

Lemma number_hash segs : forall index,
  Forall (fun t => content_hash t = compute_content_hash (raw_jsonl t))
         (number index segs).
Proof.
  induction segs as [|s segs IH]; intros index; simpl; constructor.
  - reflexivity.
  - apply IH.
Qed.

Lemma parse_hash json_loads file turns :
  parse_session_into_turns json_loads file = Ok turns ->
  Forall (fun t => content_hash t = compute_content_hash (raw_jsonl t)) turns.
Proof.
  destruct file as [lines|]; simpl.
  - destruct (collect json_loads lines); [|discriminate].
    intros [= <-]. rewrite group_turns_segments. apply number_hash.
  - intros [= <-]. constructor.
Qed.

Lemma read_line_raw json_loads line m :
  read_line json_loads line = Keep m -> raw_line m = strip line.
Proof.
  unfold read_line. destruct (negb _); [discriminate|].
  destruct (json_loads (strip line)) as [[| | | | | |obj]|]; try discriminate.
  destruct (negb _); [discriminate|]. destruct (_ || _); [discriminate|].
  destruct (dict_get obj "message" (JObj [])); try discriminate.
  destruct (_extract_text_content _); [|discriminate].
  destruct (_ && _); [discriminate|]. intros [= <-]. reflexivity.
Qed.

Lemma collect_raw json_loads lines : forall messages,
  collect json_loads lines = Ok messages ->
  Forall (fun m => exists line, In line lines /\ raw_line m = strip line)
         messages.
Proof.
  induction lines as [|l lines IH]; intros messages H; simpl in H.
  - injection H as <-. constructor.
  - destruct (read_line json_loads l) as [|m|e] eqn:E; [| |discriminate].
    + eapply Forall_impl; [exact (IH _ H)|].
      intros m [line [Hl Hr]]. exists line. split; [right; exact Hl | exact Hr].
    + destruct (collect json_loads lines) as [ms|]; [|discriminate].
      injection H as <-. constructor.
      * exists l. split; [left; reflexivity | exact (read_line_raw _ _ _ E)].
      * eapply Forall_impl; [exact (IH _ eq_refl)|].
        intros m' [line [Hl Hr]]. exists line. split; [right; exact Hl | exact Hr].
Qed.

Lemma read_line_strip json_loads l1 l2 :
  strip l1 = strip l2 -> read_line json_loads l1 = read_line json_loads l2.
Proof. intros H. unfold read_line. rewrite H. reflexivity. Qed.

Lemma collect_strip json_loads lines1 : forall lines2,
  map strip lines1 = map strip lines2 ->
  collect json_loads lines1 = collect json_loads lines2.
Proof.
  induction lines1 as [|l1 lines1 IH]; intros [|l2 lines2] H;
    try discriminate; [reflexivity|].
  simpl in H. injection H as H1 H2. simpl.
  rewrite (read_line_strip _ _ _ H1), (IH _ H2). reflexivity.
Qed.

(** ** The lines of a turn and its raw field *)

Lemma from_user_incl ms m : In m (from_user ms) -> In m ms.
Proof.
  induction ms as [|a ms IH]; cbn [from_user]; [intros []|].
  destruct (is_user a); [intros H; exact H | intros H; right; exact (IH H)].
Qed.

Lemma segment_members ms s m :
  In s (segments ms) -> In m (fst s :: snd s) -> In m ms.
Proof.
  intros Hs Hm.
  assert (H : In m (flat_map (fun s => fst s :: snd s) (segments ms)))
    by (apply in_flat_map; exists s; split; assumption).
  rewrite segments_partition in H. apply filter_In in H as [H _].
  exact (from_user_incl _ _ H).
Qed.

(** The lines of a turn hold no newline when the stripped lines of the
    file hold none, as the lines read from a file do. *)
Lemma turn_lines_one_line json_loads lines messages s :
  collect json_loads lines = Ok messages ->
  Forall (fun l => has_char "010" (strip l) = false) lines ->
  In s (segments messages) ->
  Forall (fun l => has_char "010" l = false) (turn_lines s).
Proof.
  intros H F Hs. unfold turn_lines. apply List.Forall_forall. intros l Hl.
  apply in_map_iff in Hl as [m [<- Hm]].
  pose proof (segment_members _ _ _ Hs Hm) as Hin.
  pose proof (collect_raw _ _ _ H) as R. rewrite List.Forall_forall in R.
  destruct (R m Hin) as [line [Hline ->]].
  rewrite List.Forall_forall in F. exact (F line Hline).
Qed.

Lemma newline_split a : forall b ra rb,
  has_char "010" a = false -> has_char "010" b = false ->
  (a ++ String "010" ra)%string = (b ++ String "010" rb)%string ->
  a = b /\ ra = rb.
Proof.
  induction a as [|c a IH]; intros [|d b] ra rb Ha Hb E.
  - simpl in E. injection E as ->. split; reflexivity.
  - simpl in E. injection E as <- _. cbn [has_char] in Hb.
    rewrite Ascii.eqb_refl in Hb. discriminate Hb.
  - simpl in E. injection E as -> _. cbn [has_char] in Ha.
    rewrite Ascii.eqb_refl in Ha. discriminate Ha.
  - simpl in E. injection E as <- E. cbn [has_char] in Ha, Hb.
    apply orb_false_elim in Ha as [_ Ha]. apply orb_false_elim in Hb as [_ Hb].
    destruct (IH b ra rb Ha Hb E) as [-> ->]. split; reflexivity.
Qed.

Lemma join_cons x y r :
  join newline (x :: y :: r) = (x ++ String "010" (join newline (y :: r)))%string.
Proof. reflexivity. Qed.

Lemma has_char_newline x r : has_char "010" (x ++ String "010" r) = true.
Proof.
  induction x as [|c x IH].
  - simpl. reflexivity.
  - change (has_char "010" (String c (x ++ String "010" r)) = true).
    cbn [has_char]. rewrite IH. apply orb_true_r.
Qed.

(** Lines without a newline are read back from their join. *)
Lemma join_newline_inj l1 : forall l2,
  l1 <> [] -> l2 <> [] ->
  Forall (fun l => has_char "010" l = false) l1 ->
  Forall (fun l => has_char "010" l = false) l2 ->
  join newline l1 = join newline l2 -> l1 = l2.
Proof.
  induction l1 as [|x l1 IH]; intros l2 N1 N2 F1 F2 E; [contradiction|].
  destruct l2 as [|y l2]; [contradiction|].
  inversion F1 as [|? ? Hx F1']. inversion F2 as [|? ? Hy F2']. subst.
  destruct l1 as [|x' l1]; destruct l2 as [|y' l2].
  - change (x = y) in E. subst. reflexivity.
  - rewrite join_cons in E. change (join newline [x]) with x in E.
    subst x. rewrite has_char_newline in Hx. discriminate Hx.
  - rewrite join_cons in E. change (join newline [y]) with y in E.
    subst y. rewrite has_char_newline in Hy. discriminate Hy.
  - rewrite !join_cons in E.
    destruct (newline_split _ _ _ _ Hx Hy E) as [-> E']. f_equal.
    apply IH; [discriminate | discriminate | assumption | assumption | exact E'].
Qed.

Lemma number_raw_hash segs : forall index,
  Forall2 (fun t s =>
             raw_jsonl t = join newline (turn_lines s)
             /\ content_hash t =
                compute_content_hash (join newline (turn_lines s)))
          (number index segs) segs.
Proof.
  apply number_Forall2. intros s index. split.
  - apply turn_of_raw.
  - unfold turn_of, turn_lines. cbn [content_hash _finalize_turn].
    rewrite absorb_raw_lines. reflexivity.
Qed.

(** C4, as amended: the hash of a returned turn is the MD5 digest of its
    raw field and of nothing else.  Each kept message holds its own line
    with the white space around it removed, and the raw field of a turn
    is the newline-joined lines of its own messages; so turns with the
    same raw field have the same hash, and an edit that leaves the
    stripped lines as they were leaves every turn and hash as it was.
    Any other edit of the lines of a turn changes its raw field, where no
    stripped line of the files holds a newline, and changes its hash,
    unless the old and the new raw field are two different strings with
    the same MD5 digest. *)
Theorem content_hash_is_the_hash_of_raw json_loads :
  (forall file turns,
      parse_session_into_turns json_loads file = Ok turns ->
      Forall (fun t => content_hash t = compute_content_hash (raw_jsonl t))
             turns)
  /\ (forall lines messages,
        collect json_loads lines = Ok messages ->
        Forall2 (fun line m =>
                   read_line json_loads line = Keep m
                   /\ raw_line m = strip line)
                (kept_lines json_loads lines) messages
        /\ (exists turns,
              parse_session_into_turns json_loads (Some lines) = Ok turns
              /\ Forall2 (fun t s =>
                            raw_jsonl t = join newline (turn_lines s)
                            /\ content_hash t =
                               compute_content_hash
                                 (join newline (turn_lines s)))
                         turns (List.filter has_text (segments messages))))
  /\ (forall file1 file2 turns1 turns2 t1 t2,
        parse_session_into_turns json_loads file1 = Ok turns1 ->
        parse_session_into_turns json_loads file2 = Ok turns2 ->
        In t1 turns1 -> In t2 turns2 ->
        raw_jsonl t1 = raw_jsonl t2 -> content_hash t1 = content_hash t2)
  /\ (forall lines1 lines2,
        map strip lines1 = map strip lines2 ->
        parse_session_into_turns json_loads (Some lines1) =
        parse_session_into_turns json_loads (Some lines2))
  /\ (forall lines1 lines2 messages1 messages2 turns1 turns2 i j t1 t2 s1 s2,
        collect json_loads lines1 = Ok messages1 ->
        collect json_loads lines2 = Ok messages2 ->
        parse_session_into_turns json_loads (Some lines1) = Ok turns1 ->
        parse_session_into_turns json_loads (Some lines2) = Ok turns2 ->
        Forall (fun l => has_char "010" (strip l) = false) lines1 ->
        Forall (fun l => has_char "010" (strip l) = false) lines2 ->
        turns1 !! i = Some t1 ->
        List.filter has_text (segments messages1) !! i = Some s1 ->
        turns2 !! j = Some t2 ->
        List.filter has_text (segments messages2) !! j = Some s2 ->
        turn_lines s1 <> turn_lines s2 ->
        raw_jsonl t1 <> raw_jsonl t2
        /\ (content_hash t1 = content_hash t2 ->
            collide (raw_jsonl t1) (raw_jsonl t2))).
Proof.
  split; [exact (parse_hash json_loads)|]. split; [|split; [|split]].
  - intros lines messages H. split.
    + eapply List.Forall2_impl; [|exact (collect_kept _ _ _ H)].
      intros line m E. split; [exact E | exact (read_line_raw _ _ _ E)].
    + eexists. split; [exact (parse_some _ _ _ H) | apply number_raw_hash].
  - intros file1 file2 turns1 turns2 t1 t2 H1 H2 I1 I2 E.
    pose proof (parse_hash _ _ _ H1) as F1. pose proof (parse_hash _ _ _ H2) as F2.
    rewrite List.Forall_forall in F1, F2.
    rewrite (F1 t1 I1), (F2 t2 I2), E. reflexivity.
  - intros lines1 lines2 H. simpl. rewrite (collect_strip _ _ _ H). reflexivity.
  - intros lines1 lines2 messages1 messages2 turns1 turns2 i j t1 t2 s1 s2
      C1 C2 P1 P2 F1 F2 L1 S1 L2 S2 D.
    rewrite (parse_some _ _ _ C1) in P1. injection P1 as <-.
    rewrite (parse_some _ _ _ C2) in P2. injection P2 as <-.
    destruct (Forall2_lookup_lr _ _ _ _ _ _ (number_raw_hash _ 0) L1 S1)
      as [R1 _].
    destruct (Forall2_lookup_lr _ _ _ _ _ _ (number_raw_hash _ 0) L2 S2)
      as [R2 _].
    assert (I1 : In s1 (segments messages1)).
    { apply list_elem_of_lookup_2, list_elem_of_In, filter_In in S1.
      exact (proj1 S1). }
    assert (I2 : In s2 (segments messages2)).
    { apply list_elem_of_lookup_2, list_elem_of_In, filter_In in S2.
      exact (proj1 S2). }
    assert (N : raw_jsonl t1 <> raw_jsonl t2).
    { rewrite R1, R2. intros E. apply D.
      apply join_newline_inj;
        [discriminate | discriminate
         | exact (turn_lines_one_line _ _ _ _ C1 F1 I1)
         | exact (turn_lines_one_line _ _ _ _ C2 F2 I2) | exact E]. }
    split; [exact N|]. intros E.
    pose proof (parse_hash _ _ _ (parse_some _ _ _ C1)) as H1.
    pose proof (parse_hash _ _ _ (parse_some _ _ _ C2)) as H2.
    rewrite List.Forall_forall in H1, H2.
    apply list_elem_of_lookup_2, list_elem_of_In in L1, L2.
    split; [exact N|]. rewrite <- (H1 _ L1), <- (H2 _ L2). exact E.
Qed.

(** ** Lines that make the call raise *)

(** C7 fails on the code: [obj.get] is called on whatever the line
    decodes to, and [str.join] on whatever the text blocks hold.  A line
    that is valid JSON and no object raises [AttributeError], and a text
    block whose text is no string raises [TypeError]; neither is the
    [JSONDecodeError] the loop catches. *)
Theorem parse_raises_on_unexpected_shapes :
  parse_session_into_turns Decoder.loads
    (Some [Examples.user_line; Examples.number_line]) = Raise AttributeError
  /\ parse_session_into_turns Decoder.loads
       (Some [Examples.user_line; Examples.bad_text_line]) = Raise TypeError.
Proof. split; vm_compute; reflexivity. Qed.

Lemma read_line_readable json_loads line :
  (forall v, json_loads (strip line) = Some v -> readable v) ->
  forall e, read_line json_loads line <> Fail e.
Proof.
  intros H e. unfold read_line. destruct (negb _); [discriminate|].
  destruct (json_loads (strip line)) as [v|]; [|discriminate].
  specialize (H v eq_refl). destruct v as [| | | | | |obj]; try contradiction.
  destruct (negb _); [discriminate|]. destruct (_ || _); [discriminate|].
  unfold readable in H.
  destruct (dict_get obj "message" (JObj [])) as [| | | | | |message];
    try discriminate.
  unfold _extract_text_content.
  destruct (dict_get message "content" (JStr "")) as [| | | |s|blocks|];
    try (destruct (_ && _); discriminate).
  unfold join_values. rewrite text_parts_blocks, (is_str_map _ H), as_strings_str.
  destruct (_ && _); discriminate.
Qed.

(** On a file whose decodable lines are objects with string texts, the
    call returns a list of turns. *)
Lemma parse_returns_on_readable_lines json_loads lines :
  (forall line v, In line lines -> json_loads (strip line) = Some v ->
                  readable v) ->
  exists turns, parse_session_into_turns json_loads (Some lines) = Ok turns.
Proof.
  intros H. simpl.
  assert (Hc : exists ms, collect json_loads lines = Ok ms).
  { induction lines as [|l lines IH]; simpl; [eexists; reflexivity|].
    pose proof (read_line_readable json_loads l
                  (fun v => H l v (or_introl eq_refl))) as Hl.
    destruct IH as [ms Hms]; [intros line v Hin; apply H; right; exact Hin|].
    destruct (read_line json_loads l) as [|m|e].
    - exists ms. exact Hms.
    - rewrite Hms. eexists. reflexivity.
    - exfalso. exact (Hl e eq_refl). }
  destruct Hc as [ms ->]. eexists. reflexivity.
Qed.

(** ** The properties at sample inputs *)

Lemma turns_are_the_segments_with_text_witness :
  collect Decoder.loads Examples.with_tool_result =
    Ok Examples.tool_result_messages
  /\ parse_session_into_turns Decoder.loads (Some Examples.with_tool_result) =
       Ok (number 0 (List.filter has_text (segments Examples.tool_result_messages)))
  /\ length (segments Examples.tool_result_messages) = 2%nat
  /\ length (List.filter has_text (segments Examples.tool_result_messages)) = 1%nat
  /\ flat_map (fun s => fst s :: snd s) (segments Examples.tool_result_messages) =
     List.filter (fun m => is_user m || is_assistant m)
       (from_user Examples.tool_result_messages).
Proof.
  assert (H : collect Decoder.loads Examples.with_tool_result =
              Ok Examples.tool_result_messages) by (vm_compute; reflexivity).
  pose proof (turns_are_the_segments_with_text Decoder.loads _ _ H) as [T1 [_ T3]].
  split; [exact H|]. split; [exact T1|].
  split; [vm_compute; reflexivity|]. split; [vm_compute; reflexivity|].
  exact T3.
Defined.

(** C3 fails on the code.  The docstring of [parse_session_into_turns]
    has a turn hold a user message followed by the complete response of
    the assistant, which may include tool calls.  The result of a tool
    call comes back as an entry of type user without text: the loop
    closes the turn there, and the guard on [user_message] drops the
    grouping it opens with the assistant messages it absorbs.  On the
    session of a request, an answer with tool calls, the tool result and
    the answer that ends the response, one turn is returned, and the last
    assistant message, which comes after the first user message, is in no
    returned turn: neither its line in a raw field nor its text in an
    assistant text. *)
Lemma assistant_message_after_tool_result_is_dropped :
  exists m,
    collect Decoder.loads Examples.with_tool_result =
      Ok Examples.tool_result_messages
    /\ In m (from_user Examples.tool_result_messages)
    /\ is_assistant m = true
    /\ text m = "Done."
    /\ parse_session_into_turns Decoder.loads (Some Examples.with_tool_result) =
         Ok Examples.exchange_turns
    /\ Forall (fun t =>
                 String.index 0 (raw_line m) (raw_jsonl t) = None
                 /\ String.index 0 (text m) (assistant_text t) = None)
              Examples.exchange_turns.
Proof.
  exists (nth 3 Examples.tool_result_messages (Message JNull JNull "" JNull JNull "")).
  split; [vm_compute; reflexivity|].
  split; [right; right; right; left; reflexivity|].
  split; [vm_compute; reflexivity|].
  split; [reflexivity|].
  split; [vm_compute; reflexivity|].
  repeat constructor; vm_compute; reflexivity.
Qed.

Lemma content_hash_is_the_hash_of_raw_witness :
  parse_session_into_turns Decoder.loads (Some Examples.exchange) =
    Ok Examples.exchange_turns
  /\ Forall (fun t => content_hash t = compute_content_hash (raw_jsonl t))
            Examples.exchange_turns
  /\ collect Decoder.loads Examples.exchange = Ok Examples.exchange_messages
  /\ kept_lines Decoder.loads Examples.exchange = Examples.exchange
  /\ map raw_line Examples.exchange_messages = Examples.exchange
  /\ map strip Examples.exchange_spaced = map strip Examples.exchange
  /\ parse_session_into_turns Decoder.loads (Some Examples.exchange_spaced) =
     parse_session_into_turns Decoder.loads (Some Examples.exchange)
  /\ exists t1 t2 s1 s2,
       Examples.turns_of Examples.exchange !! 0%nat = Some t1
       /\ Examples.turns_of Examples.exchange_edited !! 0%nat = Some t2
       /\ turn_lines s1 = Examples.exchange
       /\ turn_lines s2 = Examples.exchange_edited
       /\ raw_jsonl t1 <> raw_jsonl t2
       /\ (content_hash t1 = content_hash t2 ->
           collide (raw_jsonl t1) (raw_jsonl t2))
       /\ content_hash t1 <> content_hash t2.
Proof.
  assert (H : parse_session_into_turns Decoder.loads (Some Examples.exchange) =
              Ok Examples.exchange_turns) by (vm_compute; reflexivity).
  assert (C1 : collect Decoder.loads Examples.exchange =
               Ok Examples.exchange_messages) by (vm_compute; reflexivity).
  assert (C2 : collect Decoder.loads Examples.exchange_edited =
               Ok (Examples.messages_of Examples.exchange_edited))
    by (vm_compute; reflexivity).
  assert (P1 : parse_session_into_turns Decoder.loads (Some Examples.exchange) =
               Ok (Examples.turns_of Examples.exchange))
    by (vm_compute; reflexivity).
  assert (P2 : parse_session_into_turns Decoder.loads
                 (Some Examples.exchange_edited) =
               Ok (Examples.turns_of Examples.exchange_edited))
    by (vm_compute; reflexivity).
  assert (E : map strip Examples.exchange_spaced = map strip Examples.exchange)
    by (vm_compute; reflexivity).
  assert (F1 : Forall (fun l => has_char "010" (strip l) = false)
                 Examples.exchange)
    by (repeat constructor; vm_compute; reflexivity).
  assert (F2 : Forall (fun l => has_char "010" (strip l) = false)
                 Examples.exchange_edited)
    by (repeat constructor; vm_compute; reflexivity).
  pose proof (content_hash_is_the_hash_of_raw Decoder.loads)
    as [T1 [_ [_ [T4 T5]]]].
  split; [exact H|]. split; [exact (T1 _ _ H)|]. split; [exact C1|].
  split; [vm_compute; reflexivity|]. split; [vm_compute; reflexivity|].
  split; [exact E|]. split; [exact (T4 _ _ E)|].
  exists (nth 0 (Examples.turns_of Examples.exchange)
            (Turn "" [] JNull JNull JNull 0 "" "" "")),
         (nth 0 (Examples.turns_of Examples.exchange_edited)
            (Turn "" [] JNull JNull JNull 0 "" "" "")),
         (nth 0 (segments Examples.exchange_messages)
            (Message JNull JNull "" JNull JNull "", [])),
         (nth 0 (segments (Examples.messages_of Examples.exchange_edited))
            (Message JNull JNull "" JNull JNull "", [])).
  assert (L1 : Examples.turns_of Examples.exchange !! 0%nat =
               Some (nth 0 (Examples.turns_of Examples.exchange)
                       (Turn "" [] JNull JNull JNull 0 "" "" "")))
    by (vm_compute; reflexivity).
  assert (L2 : Examples.turns_of Examples.exchange_edited !! 0%nat =
               Some (nth 0 (Examples.turns_of Examples.exchange_edited)
                       (Turn "" [] JNull JNull JNull 0 "" "" "")))
    by (vm_compute; reflexivity).
  assert (S1 : List.filter has_text (segments Examples.exchange_messages)
                 !! 0%nat =
               Some (nth 0 (segments Examples.exchange_messages)
                       (Message JNull JNull "" JNull JNull "", [])))
    by (vm_compute; reflexivity).
  assert (S2 : List.filter has_text
                 (segments (Examples.messages_of Examples.exchange_edited))
                 !! 0%nat =
               Some (nth 0 (segments (Examples.messages_of Examples.exchange_edited))
                       (Message JNull JNull "" JNull JNull "", [])))
    by (vm_compute; reflexivity).
  assert (D : turn_lines (nth 0 (segments Examples.exchange_messages)
                            (Message JNull JNull "" JNull JNull "", [])) <>
              turn_lines (nth 0 (segments (Examples.messages_of Examples.exchange_edited))
                            (Message JNull JNull "" JNull JNull "", [])))
    by (vm_compute; intros X; discriminate X).
  split; [exact L1|]. split; [exact L2|].
  split; [vm_compute; reflexivity|]. split; [vm_compute; reflexivity|].
  destruct (T5 _ _ _ _ _ _ _ _ _ _ _ _ C1 C2 P1 P2 F1 F2 L1 S1 L2 S2 D)
    as [N K].
  split; [exact N|]. split; [exact K|].
  vm_compute. intros X. discriminate X.
Defined.

(** C4 fails as stated: white space added around a line of a turn is an
    edit of the log that changes neither the raw field nor the hash. *)
Lemma whitespace_edit_keeps_the_hash :
  Examples.exchange_spaced <> Examples.exchange
  /\ parse_session_into_turns Decoder.loads (Some Examples.exchange) =
       Ok Examples.exchange_turns
  /\ parse_session_into_turns Decoder.loads (Some Examples.exchange_spaced) =
       Ok Examples.exchange_turns
  /\ map content_hash Examples.exchange_turns =
       ["b364e5200f7415c41129bd1d2c9652bd"].
Proof.
  split; [intros H; discriminate H|].
  repeat split; vm_compute; reflexivity.
Qed.

(** Two texts with one digest (M. Stevens, 2024): the hash does not
    separate every pair of contents. *)
Remark compute_content_hash_collides :
  exists a b, a <> b /\ compute_content_hash a = compute_content_hash b.
Proof.
  exists "TEXTCOLLBYfGiJUETHQ4hAcKSMd5zYpgqf1YRDhkmxHkhPWptrkoyz28wnI9V0aHeAuaKnak",
         "TEXTCOLLBYfGiJUETHQ4hEcKSMd5zYpgqf1YRDhkmxHkhPWptrkoyz28wnI9V0aHeAuaKnak".
  split; [intros H; discriminate H | vm_compute; reflexivity].
Qed.

Lemma skipped_line_contributes_nothing_witness :
  skipped Decoder.loads Examples.corrupt_line
  /\ parse_session_into_turns Decoder.loads
       (Some ([Examples.user_line] ++ Examples.corrupt_line :: [Examples.assistant_line])) =
     parse_session_into_turns Decoder.loads
       (Some ([Examples.user_line] ++ [Examples.assistant_line])).
Proof.
  assert (H : skipped Decoder.loads Examples.corrupt_line)
    by (apply skipped_not_json; vm_compute; reflexivity).
  split; [exact H|].
  exact (skipped_line_contributes_nothing Decoder.loads _ _ _ H).
Defined.

(** The other kinds of skipped lines, at sample lines. *)
Example sample_lines_are_skipped :
  skipped Decoder.loads Examples.summary_line
  /\ skipped Decoder.loads Examples.sidechain_line
  /\ skipped Decoder.loads Examples.command_line.
Proof.
  split; [|split].
  - eapply skipped_other_type; [vm_compute; reflexivity | |];
      vm_compute; intros H; discriminate H.
  - eapply skipped_flag; [vm_compute; reflexivity|].
    left. vm_compute. reflexivity.
  - eapply skipped_command;
      [vm_compute; reflexivity | vm_compute; reflexivity
       | vm_compute; reflexivity | left; vm_compute; reflexivity].
Qed.

Lemma empty_user_grouping_is_discarded_witness :
  parse_session_into_turns Decoder.loads (Some Examples.with_tool_result) =
    Ok Examples.exchange_turns
  /\ Forall (fun t => user_message t <> "") Examples.exchange_turns
  /\ group_turns (firstn 2 Examples.tool_result_messages
                  ++ nth 2 Examples.tool_result_messages
                       (Message JNull JNull "" JNull JNull "")
                     :: skipn 3 Examples.tool_result_messages ++ []) =
     group_turns (firstn 2 Examples.tool_result_messages ++ []).
Proof.
  assert (H : parse_session_into_turns Decoder.loads
                (Some Examples.with_tool_result) = Ok Examples.exchange_turns)
    by (vm_compute; reflexivity).
  pose proof empty_user_grouping_is_discarded as [T1 T2].
  split; [exact H|]. split; [exact (T1 _ _ _ H)|].
  apply T2.
  - vm_compute. reflexivity.
  - reflexivity.
  - repeat constructor.
  - exact I.
Defined.

Lemma text_and_tool_names_witness :
  Forall is_str
    (flat_map block_text
       [JObj [("type", JStr "text"); ("text", JStr "Reading.")];
        JObj [("type", JStr "tool_use"); ("name", JStr "Read")];
        JObj [("type", JStr "text"); ("text", JStr "Done.")]])
  /\ _extract_text_content
       (JList
          [JObj [("type", JStr "text"); ("text", JStr "Reading.")];
           JObj [("type", JStr "tool_use"); ("name", JStr "Read")];
           JObj [("type", JStr "text"); ("text", JStr "Done.")]]) =
     Ok (join newline ["Reading."; "Done."])
  /\ collect Decoder.loads Examples.exchange = Ok Examples.exchange_messages
  /\ kept_lines Decoder.loads Examples.exchange = Examples.exchange
  /\ map text Examples.exchange_messages = ["Fix the bug"; "Reading."]
  /\ Forall is_str
       (flat_map segment_tool_names
          (List.filter has_text (segments Examples.exchange_messages)))
  /\ exists t,
       parse_session_into_turns Decoder.loads (Some Examples.exchange) = Ok [t]
       /\ user_message t = "Fix the bug"
       /\ assistant_text t = "Reading."
       /\ tool_names t = [JStr "Read"; JStr "Edit"].
Proof.
  pose proof (text_and_tool_names Decoder.loads) as [_ [T2 [_ T4]]].
  assert (H1 : Forall is_str
    (flat_map block_text
       [JObj [("type", JStr "text"); ("text", JStr "Reading.")];
        JObj [("type", JStr "tool_use"); ("name", JStr "Read")];
        JObj [("type", JStr "text"); ("text", JStr "Done.")]])).
  { vm_compute. repeat constructor; eexists; reflexivity. }
  assert (H : collect Decoder.loads Examples.exchange =
              Ok Examples.exchange_messages) by (vm_compute; reflexivity).
  assert (H2 : Forall is_str
       (flat_map segment_tool_names
          (List.filter has_text (segments Examples.exchange_messages)))).
  { vm_compute. repeat constructor; eexists; reflexivity. }
  split; [exact H1|]. split; [exact (T2 _ H1)|]. split; [exact H|].
  split; [vm_compute; reflexivity|]. split; [reflexivity|].
  split; [exact H2|].
  destruct (T4 _ _ H) as [_ [turns [P F]]].
  change (List.filter has_text (segments Examples.exchange_messages))
    with [(nth 0 Examples.exchange_messages (Message JNull JNull "" JNull JNull ""),
           [nth 1 Examples.exchange_messages (Message JNull JNull "" JNull JNull "")])]
    in F, H2.
  inversion F as [|t s turns' segs' [U [A [_ N]]] F']; subst.
  inversion F'; subst. exists t. split; [exact P|].
  split; [exact U|]. split; [exact A|].
  cbn [flat_map] in H2. rewrite app_nil_r in H2. exact (N H2).
Defined.

(* ================================================================== *)
(** * Properties of the job store *)

Module JobsFacts.
Import Jobs.

Lemma best_in rows r : best rows = Some r -> In r rows.
Proof.
  revert r. induction rows as [|x rows IH]; intros r H; simpl in H.
  - discriminate.
  - destruct (best rows) as [r'|] eqn:E.
    + destruct (before x r'); injection H as <-.
      * left. reflexivity.
      * right. apply IH. reflexivity.
    + injection H as <-. left. reflexivity.
Qed.

Lemma claim_candidate t kinds id j :
  best (List.filter (claimable kinds) (map_to_list t)) = Some (id, j) ->
  t !! id = Some j /\ (status j = Queued \/ status j = Retry).
Proof.
  intros H. apply best_in, filter_In in H as [Hin Hc]. split.
  - apply elem_of_map_to_list, list_elem_of_In, Hin.
  - unfold claimable in Hc. apply andb_true_iff in Hc as [Hc _].
    apply orb_true_iff in Hc as [Hc | Hc]; apply bool_decide_eq_true in Hc; auto.
Qed.

Lemma same_keys_unique t t' :
  same_keys t t' -> unique_keys t -> unique_keys t'.
Proof.
  intros Hk Hu id1 id2 j1 j2 k H1 H2 K1 K2.
  pose proof (Hk id1) as E1. pose proof (Hk id2) as E2.
  rewrite H1 in E1. rewrite H2 in E2. simpl in E1, E2.
  destruct (t !! id1) as [a|] eqn:A; [|discriminate].
  destruct (t !! id2) as [b|] eqn:B; [|discriminate].
  simpl in E1, E2. injection E1 as E1. injection E2 as E2.
  apply (Hu id1 id2 a b k); congruence.
Qed.

Lemma claim_same_keys now lease t kinds :
  same_keys t (claim now lease t kinds).1.
Proof.
  unfold claim. destruct (best _) as [[id j]|] eqn:E; [|intros ?; reflexivity].
  apply claim_candidate in E as [Hj _]. intros id'. cbn [fst].
  destruct (decide (id = id')) as [<-|Hne].
  - rewrite lookup_insert_eq, Hj. reflexivity.
  - rewrite lookup_insert_ne by exact Hne. reflexivity.
Qed.

Lemma complete_same_keys now t id : same_keys t (complete now t id).
Proof.
  intros id'. unfold complete. rewrite lookup_alter.
  destruct (decide (id = id')) as [->|]; [|reflexivity].
  destruct (t !! id'); reflexivity.
Qed.

Lemma fail_same_keys now t id msg : same_keys t (fail now t id msg).
Proof.
  intros id'. unfold fail. rewrite lookup_alter.
  destruct (decide (id = id')) as [->|]; [|reflexivity].
  destruct (t !! id'); reflexivity.
Qed.

Lemma expire_same_keys now t : same_keys t (expire_stale_leases now t).1.
Proof.
  intros id'. cbn [fst expire_stale_leases]. rewrite lookup_fmap.
  destruct (t !! id') as [j|]; [|reflexivity]. simpl.
  destruct (stale now j); reflexivity.
Qed.

Lemma key_free_decided t k :
  bool_decide (~ key_free t k) = false -> key_free t k.
Proof.
  intros H. apply bool_decide_eq_false in H.
  destruct (decide (key_free t k)); [assumption | contradiction].
Qed.

Lemma fresh_id_free (t : table) : t !! fresh (dom t) = None.
Proof. apply not_elem_of_dom, is_fresh. Qed.

Lemma enqueue_unique now t k p prio maxa dedupe :
  unique_keys t -> unique_keys (enqueue now t k p prio maxa dedupe).1.
Proof.
  intros Hu. unfold enqueue.
  destruct dedupe as [key|]; cbn zeta.
  - destruct (bool_decide (~ key_free t key)) eqn:E; [exact Hu|].
    apply key_free_decided in E. cbn [fst].
    intros id1 id2 j1 j2 k' H1 H2 K1 K2.
    destruct (decide (fresh (dom t) = id1)) as [E1|N1];
      destruct (decide (fresh (dom t) = id2)) as [E2|N2].
    + congruence.
    + rewrite <- E1, lookup_insert_eq in H1. injection H1 as <-.
      rewrite lookup_insert_ne in H2 by exact N2.
      simpl in K1. injection K1 as <-.
      exfalso. exact (E id2 j2 H2 K2).
    + rewrite <- E2, lookup_insert_eq in H2. injection H2 as <-.
      rewrite lookup_insert_ne in H1 by exact N1.
      simpl in K2. injection K2 as <-.
      exfalso. exact (E id1 j1 H1 K1).
    + rewrite lookup_insert_ne in H1 by exact N1.
      rewrite lookup_insert_ne in H2 by exact N2.
      exact (Hu id1 id2 j1 j2 k' H1 H2 K1 K2).
  - cbn [fst]. intros id1 id2 j1 j2 k' H1 H2 K1 K2.
    destruct (decide (fresh (dom t) = id1)) as [E1|N1].
    + rewrite <- E1, lookup_insert_eq in H1. injection H1 as <-. discriminate.
    + destruct (decide (fresh (dom t) = id2)) as [E2|N2].
      * rewrite <- E2, lookup_insert_eq in H2. injection H2 as <-. discriminate.
      * rewrite lookup_insert_ne in H1 by exact N1.
        rewrite lookup_insert_ne in H2 by exact N2.
        exact (Hu id1 id2 j1 j2 k' H1 H2 K1 K2).
Qed.

Lemma exec_unique t c : unique_keys t -> unique_keys (exec t c).
Proof.
  destruct c as [now [k p prio maxa dedupe | lease kinds | id | id msg | ]];
    cbn [exec].
  - apply enqueue_unique.
  - apply same_keys_unique, claim_same_keys.
  - apply same_keys_unique, complete_same_keys.
  - apply same_keys_unique, fail_same_keys.
  - apply same_keys_unique, expire_same_keys.
Qed.

Lemma run_unique calls : forall t, unique_keys t -> unique_keys (run calls t).
Proof.
  unfold run. induction calls as [|c calls IH]; intros t H; simpl.
  - exact H.
  - apply IH, exec_unique, H.
Qed.

Lemma empty_unique : unique_keys ∅.
Proof. intros id1 id2 j1 j2 k H. rewrite lookup_empty in H. discriminate. Qed.

Lemma enqueue_held now t kd p prio maxa k id j :
  t !! id = Some j -> dedupe_key j = Some k ->
  enqueue now t kd p prio maxa (Some k) = (t, None).
Proof.
  intros Hj Hk. unfold enqueue.
  rewrite bool_decide_eq_true_2; [reflexivity|].
  intros Hfree. exact (Hfree id j Hj Hk).
Qed.

Lemma run_enqueues_held k calls t id j :
  t !! id = Some j -> dedupe_key j = Some k ->
  Forall (enqueues_key k) calls -> run calls t = t.
Proof.
  intros Hj Hk. unfold run. induction 1 as [|[now c] calls Hc _ IH]; [reflexivity|].
  cbn [fold_left]. unfold enqueues_key in Hc. cbn [snd] in Hc.
  destruct c as [kd p prio maxa [key|] | | | | ]; try contradiction.
  subst key. cbn [exec]. rewrite (enqueue_held _ _ _ _ _ _ _ _ _ Hj Hk).
  exact IH.
Qed.

(** C2: in every state the calls of any number of producers and workers
    reach, in whatever order they interleave, at most one non-terminal job
    holds a given [dedupe_key]; an enqueue with the key of a non-terminal
    job inserts no row and returns nothing; and enqueue calls with one
    key, however many and in whatever order, leave exactly one job, which
    is queued. *)
Theorem one_non_terminal_job_per_dedupe_key :
  (forall calls k id1 id2 j1 j2,
      run calls ∅ !! id1 = Some j1 -> run calls ∅ !! id2 = Some j2 ->
      dedupe_key j1 = Some k -> dedupe_key j2 = Some k ->
      non_terminal j1 -> non_terminal j2 -> id1 = id2)
  /\ (forall calls now k id j kd p prio maxa,
        run calls ∅ !! id = Some j -> dedupe_key j = Some k ->
        non_terminal j ->
        enqueue now (run calls ∅) kd p prio maxa (Some k) = (run calls ∅, None))
  /\ (forall k c calls,
        Forall (enqueues_key k) (c :: calls) ->
        exists id j,
          run (c :: calls) ∅ = {[id := j]}
          /\ dedupe_key j = Some k /\ status j = Queued).
Proof.
  split; [|split].
  - intros calls k id1 id2 j1 j2 H1 H2 K1 K2 _ _.
    exact (run_unique calls ∅ empty_unique id1 id2 j1 j2 k H1 H2 K1 K2).
  - intros calls now k id j kd p prio maxa Hj Hk _.
    exact (enqueue_held _ _ _ _ _ _ _ _ _ Hj Hk).
  - intros k [now c] calls H. inversion H as [|? ? Hc Hrest]; subst.
    unfold enqueues_key in Hc. cbn [snd] in Hc.
    destruct c as [kd p prio maxa [key|] | | | | ]; try contradiction.
    subst key. unfold run. cbn [fold_left exec]. unfold enqueue.
    rewrite bool_decide_eq_false_2
      by (intros Hn; apply Hn; intros id j Hj; rewrite lookup_empty in Hj; discriminate).
    cbn [fst]. rewrite insert_empty.
    set (j := {| kind := kd; dedupe_key := Some k; payload := p;
                 status := Queued; priority := prio; attempts := 0;
                 max_attempts := maxa; locked_until := None;
                 error_message := None; created_at := now;
                 updated_at := now |}).
    exists (fresh (dom (∅ : table))), j. split; [|split; reflexivity].
    apply (run_enqueues_held k calls _ (fresh (dom (∅ : table))) j);
      [apply lookup_singleton_eq | reflexivity | exact Hrest].
Qed.

(** ** Failure is terminal *)

Lemma exec_failed_exhausted t c :
  failed_exhausted t -> failed_exhausted (exec t c).
Proof.
  intros Hinv.
  destruct c as [now [k p prio maxa dedupe | lease kinds | id | id msg | ]];
    cbn [exec]; intros id' j' Hj' Hs.
  - unfold enqueue in Hj'. destruct (match dedupe with Some _ => _ | None => _ end);
      cbn [fst] in Hj'; [exact (Hinv id' j' Hj' Hs)|].
    destruct (decide (fresh (dom t) = id')) as [<-|Hne].
    + rewrite lookup_insert_eq in Hj'. injection Hj' as <-. discriminate.
    + rewrite lookup_insert_ne in Hj' by exact Hne. exact (Hinv id' j' Hj' Hs).
  - unfold claim in Hj'. destruct (best _) as [[id j]|] eqn:E;
      cbn [fst] in Hj'; [|exact (Hinv id' j' Hj' Hs)].
    destruct (decide (id = id')) as [<-|Hne].
    + rewrite lookup_insert_eq in Hj'. injection Hj' as <-. discriminate.
    + rewrite lookup_insert_ne in Hj' by exact Hne. exact (Hinv id' j' Hj' Hs).
  - unfold complete in Hj'. rewrite lookup_alter in Hj'.
    destruct (decide (id = id')) as [->|]; [|exact (Hinv id' j' Hj' Hs)].
    destruct (t !! id') as [j|]; [|discriminate].
    injection Hj' as <-. discriminate.
  - unfold fail in Hj'. rewrite lookup_alter in Hj'.
    destruct (decide (id = id')) as [->|]; [|exact (Hinv id' j' Hj' Hs)].
    destruct (t !! id') as [j|]; [|discriminate].
    injection Hj' as <-. cbn [status attempts max_attempts] in *.
    destruct (Z.ltb_spec (attempts j) (max_attempts j)); [discriminate | assumption].
  - cbn [fst expire_stale_leases] in Hj'. rewrite lookup_fmap in Hj'.
    destruct (t !! id') as [j|] eqn:Hj; [|discriminate].
    simpl in Hj'. injection Hj' as <-.
    destruct (stale now j); [discriminate | exact (Hinv id' j Hj Hs)].
Qed.

Lemma run_failed_exhausted calls : forall t,
  failed_exhausted t -> failed_exhausted (run calls t).
Proof.
  unfold run. induction calls as [|c calls IH]; intros t H; simpl.
  - exact H.
  - apply IH, exec_failed_exhausted, H.
Qed.

Lemma exec_dead t c id j :
  t !! id = Some j -> dead j ->
  exists j', exec t c !! id = Some j' /\ dead j'.
Proof.
  intros Hj [Hs Ha].
  destruct c as [now [k p prio maxa dedupe | lease kinds | id' | id' msg | ]];
    cbn [exec].
  - unfold enqueue. destruct (match dedupe with Some _ => _ | None => _ end);
      cbn [fst]; [exists j; split; [exact Hj | split; assumption]|].
    exists j. split; [|split; assumption].
    rewrite lookup_insert_ne; [exact Hj|].
    intros E. rewrite <- E, fresh_id_free in Hj. discriminate.
  - unfold claim. destruct (best _) as [[id' j']|] eqn:E; cbn [fst];
      [|exists j; split; [exact Hj | split; assumption]].
    apply claim_candidate in E as [Hj' Hc].
    exists j. split; [|split; assumption].
    rewrite lookup_insert_ne; [exact Hj|].
    intros ->. rewrite Hj in Hj'. injection Hj' as <-.
    destruct Hs as [Hs|Hs], Hc as [Hc|Hc]; congruence.
  - unfold complete. rewrite lookup_alter.
    destruct (decide (id' = id)) as [->|];
      [|exists j; split; [exact Hj | split; assumption]].
    rewrite Hj. eexists. split; [reflexivity|]. split; [right; reflexivity | exact Ha].
  - unfold fail. rewrite lookup_alter.
    destruct (decide (id' = id)) as [->|];
      [|exists j; split; [exact Hj | split; assumption]].
    rewrite Hj. eexists. split; [reflexivity|].
    split; [|exact Ha]. cbn [status].
    destruct (Z.ltb_spec (attempts j) (max_attempts j)); [lia | left; reflexivity].
  - cbn [fst expire_stale_leases]. rewrite lookup_fmap, Hj. simpl.
    assert (E : stale now j = false).
    { unfold stale. rewrite bool_decide_eq_false_2; [reflexivity|].
      destruct Hs as [Hs|Hs]; congruence. }
    rewrite E. exists j. split; [reflexivity | split; assumption].
Qed.

Lemma run_dead calls : forall t id j,
  t !! id = Some j -> dead j ->
  exists j', run calls t !! id = Some j' /\ dead j'.
Proof.
  unfold run. induction calls as [|c calls IH]; intros t id j Hj Hd; simpl.
  - exists j. split; assumption.
  - destruct (exec_dead t c id j Hj Hd) as [j' [Hj' Hd']].
    exact (IH _ id j' Hj' Hd').
Qed.

Lemma empty_failed_exhausted : failed_exhausted ∅.
Proof. intros id j H. rewrite lookup_empty in H. discriminate. Qed.

(** C9: a failure with attempts left sets retry; a failure with
    [attempts = max_attempts] sets failed; and a job that is failed in a
    state the store reaches is failed or done, never retry, after any
    further calls. *)
Theorem failed_is_terminal :
  (forall now t id j msg,
      t !! id = Some j -> attempts j < max_attempts j ->
      status_of (fail now t id msg) id = Some Retry)
  /\ (forall now t id j msg,
        t !! id = Some j -> attempts j = max_attempts j ->
        status_of (fail now t id msg) id = Some Failed)
  /\ (forall before after id,
        status_of (run before ∅) id = Some Failed ->
        status_of (run after (run before ∅)) id = Some Failed
        \/ status_of (run after (run before ∅)) id = Some Done).
Proof.
  repeat split.
  - intros now t id j msg Hj Ha. unfold status_of, fail.
    rewrite lookup_alter_eq, Hj. simpl.
    destruct (Z.ltb_spec (attempts j) (max_attempts j)); [reflexivity | lia].
  - intros now t id j msg Hj Ha. unfold status_of, fail.
    rewrite lookup_alter_eq, Hj. simpl.
    destruct (Z.ltb_spec (attempts j) (max_attempts j)); [lia | reflexivity].
  - intros before after id H. unfold status_of in *.
    destruct (run before ∅ !! id) as [j|] eqn:Hj; [|discriminate].
    simpl in H. injection H as Hs.
    assert (Hd : dead j).
    { split; [left; exact Hs|].
      exact (run_failed_exhausted before ∅ empty_failed_exhausted id j Hj Hs). }
    destruct (run_dead after _ id j Hj Hd) as [j' [Hj' [[Hs'|Hs'] _]]];
      rewrite Hj'; simpl; rewrite Hs'; auto.
Qed.

End JobsFacts.

(* ================================================================== *)
(** * Properties of the recorder *)

Module RecorderFacts.
Import Recorder.

Lemma number_turn_number segs : forall index,
  map turn_number (number index segs) = seq index (length segs).
Proof.
  induction segs as [|s segs IH]; intros index; simpl; [reflexivity|].
  rewrite IH. reflexivity.
Qed.

Lemma parse_turn_numbers json_loads file parsed :
  parse_session_into_turns json_loads file = Ok parsed ->
  map turn_number parsed = seq 0 (length parsed).
Proof.
  destruct file as [lines|]; simpl.
  - destruct (collect json_loads lines); [|discriminate].
    intros [= <-]. rewrite group_turns_segments, number_turn_number.
    f_equal. rewrite <- (length_map turn_number), number_turn_number, length_seq.
    reflexivity.
  - intros [= <-]. reflexivity.
Qed.

Lemma is_new_known known t :
  In (content_hash t) known -> is_new known t = false.
Proof.
  intros H. unfold is_new. apply negb_false_iff, existsb_exists.
  exists (content_hash t). split; [exact H | apply String.eqb_refl].
Qed.

Lemma is_new_unknown known t :
  ~ In (content_hash t) known -> is_new known t = true.
Proof.
  intros H. unfold is_new. apply negb_true_iff.
  destruct (existsb _ known) eqn:E; [|reflexivity].
  apply existsb_exists in E as [h [Hh E]]. apply String.eqb_eq in E.
  subst. contradiction.
Qed.

Lemma nothing_new parsed : forall known,
  incl (map content_hash parsed) known -> reconcile known parsed = [].
Proof.
  induction parsed as [|t parsed IH]; intros known H; cbn [reconcile];
    [reflexivity|].
  rewrite is_new_known by (apply H; left; reflexivity).
  apply IH. intros h Hh. apply H. right. exact Hh.
Qed.

Lemma all_new parsed : forall known,
  List.NoDup (map content_hash parsed) ->
  (forall h, In h (map content_hash parsed) -> ~ In h known) ->
  reconcile known parsed = parsed.
Proof.
  induction parsed as [|t parsed IH]; intros known N H; cbn [reconcile];
    [reflexivity|].
  cbn [map] in N. apply NoDup_cons_iff in N as [N1 N2].
  rewrite is_new_unknown by (apply H; left; reflexivity).
  f_equal. apply IH; [exact N2|].
  intros h Hh Hk. apply in_app_or in Hk as [Hk | [<- | []]].
  - exact (H h (or_intror Hh) Hk).
  - exact (N1 Hh).
Qed.

(** The hashes of the parsed turns are known once the turns to persist
    are persisted. *)
Lemma reconcile_covered parsed : forall known,
  incl (map content_hash parsed)
       (known ++ map content_hash (reconcile known parsed)).
Proof.
  induction parsed as [|t parsed IH]; intros known h Hh; [contradiction|].
  cbn [reconcile]. destruct Hh as [<- | Hh].
  - destruct (is_new known t) eqn:E.
    + apply in_or_app. right. left. reflexivity.
    + apply in_or_app. left. unfold is_new in E.
      apply negb_false_iff, existsb_exists in E as [h [Hh E]].
      apply String.eqb_eq in E. rewrite E. exact Hh.
  - destruct (is_new known t).
    + specialize (IH (known ++ [content_hash t]) h Hh).
      cbn [map]. rewrite <- app_assoc in IH. exact IH.
    + exact (IH known h Hh).
Qed.

Lemma recorded_rows json_loads now d sid path file ws d1 o1 parsed :
  record_session json_loads now d sid path file ws = Ok (d1, o1) ->
  parse_session_into_turns json_loads file = Ok parsed ->
  file <> None ->
  persisted d1 sid =
  persisted d sid ++ reconcile (known_hashes d sid) parsed.
Proof.
  intros H Hp Hf. unfold record_session in H.
  destruct file as [lines|]; [|contradiction].
  rewrite Hp in H. cbv zeta in H. destruct (existsb _ _); [discriminate|].
  injection H as <- _. unfold persisted at 1.
  rewrite lookup_insert_eq. reflexivity.
Qed.

Lemma known_persisted d sid :
  known_hashes d sid = map content_hash (persisted d sid).
Proof. unfold known_hashes, persisted. destruct (d !! sid); reflexivity. Qed.

(** Recording an unchanged file a second time records nothing. *)
Lemma record_again json_loads now1 now2 d sid path lines ws d1 o1 :
  record_session json_loads now1 d sid path (Some lines) ws = Ok (d1, o1) ->
  exists d2 parsed,
    parse_session_into_turns json_loads (Some lines) = Ok parsed
    /\ record_session json_loads now2 d1 sid path (Some lines) ws =
       Ok (d2, Recorded 0 (length parsed) sid)
    /\ persisted d2 sid = persisted d1 sid.
Proof.
  intros H.
  destruct (parse_session_into_turns json_loads (Some lines)) as [parsed|e] eqn:Hp;
    [|unfold record_session in H; rewrite Hp in H; discriminate].
  pose proof (recorded_rows _ _ _ _ _ _ _ _ _ _ H Hp ltac:(discriminate)) as Hrows.
  assert (Hnone : reconcile (known_hashes d1 sid) parsed = []).
  { apply nothing_new. rewrite known_persisted, Hrows, map_app, <- known_persisted.
    apply reconcile_covered. }
  unfold record_session. rewrite Hp. cbv zeta. rewrite Hnone.
  cbn [existsb length]. rewrite app_nil_r, Nat.sub_0_r.
  eexists. exists parsed. split; [reflexivity|]. split; [reflexivity|].
  unfold persisted at 1. rewrite lookup_insert_eq. reflexivity.
Qed.

Lemma reconcile_known known old more :
  incl (map content_hash old) known ->
  reconcile known (old ++ more) = reconcile known more.
Proof.
  induction old as [|o old IH]; intros H; [reflexivity|].
  cbn [app reconcile]. rewrite is_new_known by (apply H; left; reflexivity).
  apply IH. intros h Hh. apply H. right. exact Hh.
Qed.

Lemma no_clash_all (fresh_turns : list turn) taken :
  (forall t, In t fresh_turns -> ~ In (turn_number t) taken) ->
  existsb (fun t : turn => existsb (Nat.eqb (turn_number t)) taken) fresh_turns
  = false.
Proof.
  intros H. destruct (existsb _ fresh_turns) eqn:E; [|reflexivity].
  apply existsb_exists in E as [t [Ht E]].
  apply existsb_exists in E as [n [Hn E]]. apply Nat.eqb_eq in E. subst n.
  destruct (H t Ht Hn).
Qed.

(** The numbers of the first turns of a file and of the turns after
    them. *)
Lemma grown_turn_numbers json_loads file old more :
  parse_session_into_turns json_loads file = Ok (old ++ more) ->
  map turn_number old = seq 0 (length old)
  /\ map turn_number more = seq (length old) (length more).
Proof.
  intros H. apply parse_turn_numbers in H.
  rewrite map_app, length_app, seq_app in H. cbn [Nat.add] in H.
  apply app_inj_1 in H; [exact H|].
  rewrite length_map, length_seq. reflexivity.
Qed.

(** A file that grew: the persisted turns are its first turns, and the
    turns after them have new, distinct hashes. *)
Lemma record_grown json_loads now d sid path lines ws old more :
  persisted d sid = old ->
  parse_session_into_turns json_loads (Some lines) = Ok (old ++ more) ->
  List.NoDup (map content_hash more) ->
  (forall h, In h (map content_hash more) -> ~ In h (map content_hash old)) ->
  exists d1,
    record_session json_loads now d sid path (Some lines) ws =
      Ok (d1, Recorded (length more) (length old) sid)
    /\ persisted d1 sid = old ++ more.
Proof.
  intros Hd Hp N F. destruct (grown_turn_numbers _ _ _ _ Hp) as [No Nm].
  assert (R : record_session json_loads now d sid path (Some lines) ws =
              Ok (<[sid := {| transcript_path := path; workspace_path := ws;
                              last_activity_at := now;
                              turn_count := length (old ++ more);
                              turns := old ++ more |}]> d,
                  Recorded (length more) (length old) sid)).
  { unfold record_session. rewrite Hp. cbv zeta.
    rewrite known_persisted, Hd.
    rewrite (reconcile_known _ old more (incl_refl _)).
    rewrite (all_new more _ N F).
    rewrite no_clash_all.
    - rewrite length_app.
      replace (length old + length more - length more)%nat
        with (length old) by lia.
      reflexivity.
    - intros t Ht Hn. rewrite No in Hn. apply in_seq in Hn.
      assert (Hm : In (turn_number t) (map turn_number more))
        by (apply in_map; exact Ht).
      rewrite Nm in Hm. apply in_seq in Hm. lia. }
  eexists. split; [exact R|].
  unfold persisted at 1. rewrite lookup_insert_eq. reflexivity.
Qed.

(** C8, as amended: a second call on an unchanged file records nothing
    and persists nothing.  When the turns persisted for a session are the
    first turns of the file and the turns after them have distinct hashes
    that no persisted turn has, a call persists the turns after them, one
    for each, and skips the persisted ones; so a first call on a file whose
    turns have distinct hashes persists them all.  And when the turns
    persisted for a session are the turns of the file, a call on the file
    with one more turn appended, whose hash no persisted turn has, records
    that turn and skips the N turns persisted before; the session then
    holds the turns of the longer file. *)
Theorem record_is_idempotent json_loads :
  (forall now1 now2 d sid path lines ws d1 o1,
      record_session json_loads now1 d sid path (Some lines) ws = Ok (d1, o1) ->
      exists d2 o2,
        record_session json_loads now2 d1 sid path (Some lines) ws = Ok (d2, o2)
        /\ turns_recorded o2 = 0%nat
        /\ persisted d2 sid = persisted d1 sid)
  /\ (forall now d sid path lines ws old more,
        persisted d sid = old ->
        parse_session_into_turns json_loads (Some lines) = Ok (old ++ more) ->
        List.NoDup (map content_hash more) ->
        (forall h, In h (map content_hash more) ->
                   ~ In h (map content_hash old)) ->
        exists d1,
          record_session json_loads now d sid path (Some lines) ws =
            Ok (d1, Recorded (length more) (length old) sid)
          /\ persisted d1 sid = old ++ more)
  /\ (forall now d sid path lines extra ws old t,
        persisted d sid = old ->
        parse_session_into_turns json_loads (Some lines) = Ok old ->
        parse_session_into_turns json_loads (Some (lines ++ extra)) =
          Ok (old ++ [t]) ->
        ~ In (content_hash t) (map content_hash (persisted d sid)) ->
        exists d',
          record_session json_loads now d sid path (Some (lines ++ extra)) ws =
            Ok (d', Recorded 1 (length (persisted d sid)) sid)
          /\ persisted d' sid = old ++ [t]).
Proof.
  split; [|split].
  - intros now1 now2 d sid path lines ws d1 o1 H.
    destruct (record_again json_loads now1 now2 _ _ _ _ _ _ _ H)
      as [d2 [parsed [_ [H2 H3]]]].
    exists d2, (Recorded 0 (length parsed) sid).
    split; [exact H2|]. split; [reflexivity | exact H3].
  - intros now d sid path lines ws old more. apply record_grown.
  - intros now d sid path lines extra ws old t Hd _ Hnew Hfresh.
    rewrite Hd in *.
    apply (record_grown json_loads now d sid path (lines ++ extra) ws old [t]
             Hd Hnew).
    + repeat constructor. intros [].
    + intros h [<- | []]. exact Hfresh.
Qed.

End RecorderFacts.

(* ================================================================== *)
(** * The store and the recorder at sample inputs *)

Lemma one_non_terminal_job_per_dedupe_key_witness :
  Jobs.run JobsExamples.calls ∅ !! 0%nat = Some JobsExamples.claimed
  /\ Jobs.dedupe_key JobsExamples.claimed = Some "k1"
  /\ Jobs.non_terminal JobsExamples.claimed
  /\ 0%nat = 0%nat
  /\ Jobs.enqueue 4 (Jobs.run JobsExamples.calls ∅) "session_process" JNull
       10 10 (Some "k1") = (Jobs.run JobsExamples.calls ∅, None)
  /\ Forall (Jobs.enqueues_key "k1") (firstn 2 JobsExamples.calls)
  /\ (exists id j,
        Jobs.run (firstn 2 JobsExamples.calls) ∅ = {[id := j]}
        /\ Jobs.dedupe_key j = Some "k1" /\ Jobs.status j = Jobs.Queued).
Proof.
  assert (H : Jobs.run JobsExamples.calls ∅ !! 0%nat = Some JobsExamples.claimed)
    by (vm_compute; reflexivity).
  assert (N : Jobs.non_terminal JobsExamples.claimed)
    by (right; left; reflexivity).
  assert (F : Forall (Jobs.enqueues_key "k1") (firstn 2 JobsExamples.calls))
    by (repeat constructor).
  pose proof JobsFacts.one_non_terminal_job_per_dedupe_key as [T1 [T2 T3]].
  split; [exact H|]. split; [reflexivity|]. split; [exact N|].
  split; [exact (T1 _ "k1" 0%nat 0%nat _ _ H H eq_refl eq_refl N N)|].
  split; [exact (T2 _ 4 "k1" 0%nat _ "session_process" JNull 10 10 H eq_refl N)|].
  split; [exact F|].
  exact (T3 "k1" _ _ F).
Defined.

Lemma failed_is_terminal_witness :
  Jobs.status_of (Jobs.run JobsExamples.failing ∅) 0%nat = Some Jobs.Failed
  /\ (Jobs.status_of
        (Jobs.run JobsExamples.later (Jobs.run JobsExamples.failing ∅)) 0%nat =
        Some Jobs.Failed
      \/ Jobs.status_of
           (Jobs.run JobsExamples.later (Jobs.run JobsExamples.failing ∅)) 0%nat =
           Some Jobs.Done)
  /\ Jobs.status_of
       (Jobs.fail 4 (Jobs.run JobsExamples.calls ∅) 0%nat "boom") 0%nat =
     Some Jobs.Retry.
Proof.
  assert (H : Jobs.status_of (Jobs.run JobsExamples.failing ∅) 0%nat =
              Some Jobs.Failed) by (vm_compute; reflexivity).
  pose proof JobsFacts.failed_is_terminal as [T1 [_ T3]].
  split; [exact H|]. split; [exact (T3 _ JobsExamples.later _ H)|].
  apply (T1 4 _ 0%nat JobsExamples.claimed "boom").
  - vm_compute. reflexivity.
  - vm_compute. reflexivity.
Defined.

Lemma record_is_idempotent_witness :
  Recorder.persisted ∅ "s1" = []
  /\ parse_session_into_turns Decoder.loads (Some Examples.exchange) =
       Ok ([] ++ Examples.exchange_turns)
  /\ List.NoDup (map content_hash Examples.exchange_turns)
  /\ (forall h, In h (map content_hash Examples.exchange_turns) ->
                ~ In h (map content_hash []))
  /\ parse_session_into_turns Decoder.loads
       (Some (Examples.exchange ++ Examples.second_exchange)) =
       Ok (Examples.exchange_turns ++ [Examples.second_turn])
  /\ exists d1,
       Recorder.record_session Decoder.loads 1 ∅ "s1" "p"
         (Some Examples.exchange) "w" =
         Ok (d1, Recorder.Recorded 1 0 "s1")
       /\ Recorder.persisted d1 "s1" = Examples.exchange_turns
       /\ (exists d2 o2,
             Recorder.record_session Decoder.loads 2 d1 "s1" "p"
               (Some Examples.exchange) "w" = Ok (d2, o2)
             /\ Recorder.turns_recorded o2 = 0%nat
             /\ Recorder.persisted d2 "s1" = Recorder.persisted d1 "s1")
       /\ ~ In (content_hash Examples.second_turn)
               (map content_hash (Recorder.persisted d1 "s1"))
       /\ exists d3,
            Recorder.record_session Decoder.loads 3 d1 "s1" "p"
              (Some (Examples.exchange ++ Examples.second_exchange)) "w" =
              Ok (d3, Recorder.Recorded 1
                        (length (Recorder.persisted d1 "s1")) "s1")
            /\ Recorder.persisted d3 "s1" =
               Examples.exchange_turns ++ [Examples.second_turn].
Proof.
  assert (H : parse_session_into_turns Decoder.loads (Some Examples.exchange) =
              Ok Examples.exchange_turns) by (vm_compute; reflexivity).
  assert (H' : parse_session_into_turns Decoder.loads
                 (Some (Examples.exchange ++ Examples.second_exchange)) =
               Ok (Examples.exchange_turns ++ [Examples.second_turn]))
    by (vm_compute; reflexivity).
  assert (N : List.NoDup (map content_hash Examples.exchange_turns))
    by (repeat constructor; intros []).
  assert (E0 : Recorder.persisted ∅ "s1" = []) by reflexivity.
  assert (F0 : forall h, In h (map content_hash Examples.exchange_turns) ->
                         ~ In h (map content_hash []))
    by (intros h _ []).
  pose proof (RecorderFacts.record_is_idempotent Decoder.loads) as [T1 [T2 T3]].
  split; [exact E0|]. split; [exact H|]. split; [exact N|].
  split; [exact F0|]. split; [exact H'|].
  destruct (T2 1 ∅ "s1" "p" Examples.exchange "w" [] Examples.exchange_turns
              E0 H N F0) as [d1 [R1 P1]].
  assert (F : ~ In (content_hash Examples.second_turn)
                   (map content_hash (Recorder.persisted d1 "s1"))).
  { rewrite P1. vm_compute. intros [E | []]. discriminate E. }
  exists d1. split; [exact R1|]. split; [exact P1|].
  split; [exact (T1 1 2 ∅ "s1" "p" Examples.exchange "w" d1 _ R1)|].
  split; [exact F|].
  exact (T3 3 d1 "s1" "p" Examples.exchange Examples.second_exchange "w"
            Examples.exchange_turns Examples.second_turn P1 H H' F).
Defined.

(** C8 fails as stated: a file holds the same exchange twice, two turns
    of one hash of which one is persisted; a turn with a new hash is
    appended, and the call records it and skips two turns, while one turn
    was persisted for the session before. *)
Lemma repeated_turn_is_skipped_not_persisted :
  let grown := Examples.doubled ++ Examples.second_exchange in
  let r1 := Recorder.record_session Decoder.loads 1 ∅ "s1" "p"
              (Some Examples.doubled) "w" in
  let r2 := Recorder.record_session Decoder.loads 2 (Recorder.db_of r1) "s1" "p"
              (Some Examples.doubled) "w" in
  let r3 := Recorder.record_session Decoder.loads 3 (Recorder.db_of r2) "s1" "p"
              (Some grown) "w" in
  length (Examples.turns_of Examples.doubled) = 2%nat
  /\ length (Examples.turns_of grown) = 3%nat
  /\ firstn 2 (Examples.turns_of grown) = Examples.turns_of Examples.doubled
  /\ (forall t, nth_error (Examples.turns_of grown) 2 = Some t ->
        ~ In (content_hash t)
             (map content_hash (Recorder.persisted (Recorder.db_of r2) "s1")))
  /\ Recorder.outcome_of r1 = Some (Recorder.Recorded 1 1 "s1")
  /\ Recorder.outcome_of r2 = Some (Recorder.Recorded 0 2 "s1")
  /\ length (Recorder.persisted (Recorder.db_of r2) "s1") = 1%nat
  /\ Recorder.outcome_of r3 = Some (Recorder.Recorded 1 2 "s1").
Proof.
  repeat split; try (vm_compute; reflexivity).
  intros t E. vm_compute in E. injection E as <-.
  vm_compute. intros [E | []]. discriminate E.
Qed.

(* ================================================================== *)
(** * Further properties of [parse_session_into_turns] *)

(** ** Positions, times and model of a turn *)

Lemma lookup_seq_0 n i k : seq 0 n !! i = Some k -> k = i.
Proof. intros H. apply lookup_seq in H as [-> _]. reflexivity. Qed.

(** X1: the turns are numbered by their position in the returned list,
    from 0 on. *)
Theorem turn_numbers_are_positions json_loads file turns i t :
  parse_session_into_turns json_loads file = Ok turns ->
  turns !! i = Some t ->
  turn_number t = i.
Proof.
  intros H Ht. apply RecorderFacts.parse_turn_numbers in H.
  assert (E : map turn_number turns !! i = Some (turn_number t))
    by (rewrite list_lookup_fmap, Ht; reflexivity).
  rewrite H in E. exact (lookup_seq_0 _ _ _ E).
Qed.

Lemma last_cons_default {A} (x : A) l d : List.last (x :: l) d = List.last l x.
Proof.
  revert x d. induction l as [|y l IH]; intros x d; [reflexivity|].
  change (List.last (x :: y :: l) d) with (List.last (y :: l) d).
  rewrite (IH y d), (IH y x). reflexivity.
Qed.

Lemma absorb_ended_at absorbed : forall t,
  cur_ended_at (fold_left absorb absorbed t) =
  List.last (truthy_values (map timestamp absorbed)) (cur_ended_at t).
Proof.
  induction absorbed as [|m absorbed IH]; intros t; [reflexivity|].
  cbn [fold_left map]. rewrite IH. unfold truthy_values. cbn [List.filter].
  cbn [cur_ended_at absorb].
  destruct (truthy (timestamp m)) eqn:E; [|reflexivity].
  rewrite last_cons_default. reflexivity.
Qed.

Lemma absorb_started_at absorbed : forall t,
  cur_started_at (fold_left absorb absorbed t) = cur_started_at t.
Proof.
  induction absorbed as [|m absorbed IH]; intros t; [reflexivity|].
  cbn [fold_left]. rewrite IH. reflexivity.
Qed.

Lemma turn_of_times s index :
  started_at (turn_of s index) = timestamp (fst s)
  /\ ended_at (turn_of s index) =
     List.last (truthy_values (map timestamp (snd s))) (timestamp (fst s)).
Proof.
  unfold turn_of. cbn [started_at ended_at _finalize_turn]. split.
  - rewrite absorb_started_at. reflexivity.
  - rewrite absorb_ended_at. reflexivity.
Qed.

(** X2: a returned turn starts at the timestamp of its user message and
    ends at the last timestamp of its assistant messages that is a true
    value, or at the user message's when there is none. *)
Theorem turn_times json_loads lines messages :
  collect json_loads lines = Ok messages ->
  exists turns,
    parse_session_into_turns json_loads (Some lines) = Ok turns
    /\ Forall2 (fun t s =>
                  started_at t = timestamp (fst s)
                  /\ ended_at t =
                     List.last (truthy_values (map timestamp (snd s)))
                               (timestamp (fst s)))
               turns (List.filter has_text (segments messages)).
Proof.
  intros H. eexists. split; [exact (parse_some _ _ _ H)|].
  apply number_Forall2. exact turn_of_times.
Qed.

Lemma absorb_model_set absorbed : forall t,
  truthy (cur_model_name t) = true ->
  cur_model_name (fold_left absorb absorbed t) = cur_model_name t.
Proof.
  induction absorbed as [|m absorbed IH]; intros t H; [reflexivity|].
  cbn [fold_left].
  assert (E : cur_model_name (absorb t m) = cur_model_name t).
  { cbn [cur_model_name absorb]. rewrite H, andb_false_r. reflexivity. }
  rewrite IH by (rewrite E; exact H). exact E.
Qed.

Lemma absorb_model_unset absorbed : forall t,
  truthy (cur_model_name t) = false ->
  cur_model_name (fold_left absorb absorbed t) =
  hd (cur_model_name t) (truthy_values (map model absorbed)).
Proof.
  induction absorbed as [|m absorbed IH]; intros t H; [reflexivity|].
  cbn [fold_left map]. unfold truthy_values. cbn [List.filter].
  destruct (truthy (model m)) eqn:E.
  - cbn [hd]. rewrite absorb_model_set.
    + cbn [cur_model_name absorb]. rewrite E, H. reflexivity.
    + cbn [cur_model_name absorb]. rewrite E, H. exact E.
  - rewrite IH.
    + cbn [cur_model_name absorb]. rewrite E. reflexivity.
    + cbn [cur_model_name absorb]. rewrite E. exact H.
Qed.

(** X3: the model name of a returned turn is the first model of its
    assistant messages that is a true value, and [None] when there is
    none; the model of the user message is never taken. *)
Theorem turn_model_name json_loads lines messages :
  collect json_loads lines = Ok messages ->
  exists turns,
    parse_session_into_turns json_loads (Some lines) = Ok turns
    /\ Forall2 (fun t s =>
                  model_name t = hd JNull (truthy_values (map model (snd s))))
               turns (List.filter has_text (segments messages)).
Proof.
  intros H. eexists. split; [exact (parse_some _ _ _ H)|].
  apply number_Forall2. intros s index.
  unfold turn_of. cbn [model_name _finalize_turn].
  apply absorb_model_unset. reflexivity.
Qed.

(** ** A log that grows *)

Lemma collect_app json_loads lines extra :
  collect json_loads (lines ++ extra) =
  match collect json_loads lines with
  | Ok ms =>
      match collect json_loads extra with
      | Ok ms' => Ok (ms ++ ms')
      | Raise e => Raise e
      end
  | Raise e => Raise e
  end.
Proof.
  induction lines as [|l lines IH]; cbn [app collect].
  - destruct (collect json_loads extra); reflexivity.
  - destruct (read_line json_loads l); [exact IH | | reflexivity].
    rewrite IH. destruct (collect json_loads lines); [|reflexivity].
    destruct (collect json_loads extra); reflexivity.
Qed.

Lemma until_user_closed ms ms' :
  segments ms <> [] -> until_user (ms ++ ms') = until_user ms.
Proof.
  induction ms as [|m ms IH]; intros H; [contradiction|].
  cbn [app until_user]. destruct (is_user m) eqn:E; [reflexivity|].
  cbn [segments] in H. rewrite E in H. rewrite (IH H). reflexivity.
Qed.

Lemma segments_grow ms ms' :
  exists tail, segments (ms ++ ms') = removelast (segments ms) ++ tail.
Proof.
  induction ms as [|m ms [tail IH]].
  - exists (segments ms'). reflexivity.
  - cbn [app segments]. destruct (is_user m); [|exists tail; exact IH].
    destruct (segments ms) as [|s segs] eqn:E.
    + eexists. reflexivity.
    + rewrite until_user_closed by (rewrite E; discriminate).
      exists tail. rewrite IH. reflexivity.
Qed.

Lemma number_app segs segs' : forall index,
  number index (segs ++ segs') =
  number index segs ++ number (index + length segs) segs'.
Proof.
  induction segs as [|s segs IH]; intros index; cbn [app number length].
  - rewrite Nat.add_0_r. reflexivity.
  - rewrite IH, Nat.add_succ_r. reflexivity.
Qed.

Lemma nil_or_snoc {A} (l : list A) : l = [] \/ exists l' x, l = l' ++ [x].
Proof.
  induction l as [|x l _] using rev_ind; [left; reflexivity|].
  right. exists l, x. reflexivity.
Qed.

Lemma removelast_prefix {A} (l : list A) : exists k, l = removelast l ++ k.
Proof.
  destruct (nil_or_snoc l) as [-> | [l' [x ->]]].
  - exists []. reflexivity.
  - exists [x]. rewrite removelast_last. reflexivity.
Qed.

(** X4: when lines are appended to the file, every turn but the last
    stays what it was, with its number and its hash: the turns returned
    before, without the last one, begin the turns returned after. *)
Theorem earlier_turns_are_stable json_loads lines extra turns turns' :
  parse_session_into_turns json_loads (Some lines) = Ok turns ->
  parse_session_into_turns json_loads (Some (lines ++ extra)) = Ok turns' ->
  removelast turns `prefix_of` turns'.
Proof.
  cbn [parse_session_into_turns]. rewrite collect_app.
  destruct (collect json_loads lines) as [ms|]; [|discriminate].
  destruct (collect json_loads extra) as [ms'|]; [|discriminate].
  intros [= <-] [= <-]. rewrite !group_turns_segments.
  destruct (segments_grow ms ms') as [tail ->].
  rewrite List.filter_app, number_app.
  destruct (nil_or_snoc (segments ms)) as [-> | [segs [s ->]]].
  - exists (number 0 (List.filter has_text tail)). reflexivity.
  - rewrite removelast_last, List.filter_app. cbn [List.filter].
    destruct (has_text s).
    + rewrite number_app. cbn [number]. rewrite removelast_last.
      eexists. reflexivity.
    + rewrite app_nil_r.
      destruct (removelast_prefix (number 0 (List.filter has_text segs)))
        as [k Hk].
      rewrite Hk at 2. rewrite <- app_assoc. eexists. reflexivity.
Qed.

(** ** The form of a content hash *)

Lemma hex_digit_hex x : 0 <= x <= 15 -> is_hex (MD5.hex_digit x) = true.
Proof.
  intros H.
  assert (E : x = 0 \/ x = 1 \/ x = 2 \/ x = 3 \/ x = 4 \/ x = 5 \/ x = 6
              \/ x = 7 \/ x = 8 \/ x = 9 \/ x = 10 \/ x = 11 \/ x = 12
              \/ x = 13 \/ x = 14 \/ x = 15) by lia.
  repeat (destruct E as [-> | E]; [reflexivity|]). subst. reflexivity.
Qed.

Lemma hex_byte_hex b :
  0 <= b <= 255 ->
  all_hex (string_of_list_ascii (MD5.hex_byte b)) = true.
Proof.
  intros H. unfold MD5.hex_byte. cbn [string_of_list_ascii all_hex].
  rewrite !hex_digit_hex; [reflexivity | |].
  - change 15 with (Z.ones 4). rewrite Z.land_ones by lia.
    change (2 ^ 4) with 16. change (Z.ones 4) with 15.
    pose proof (Z.mod_pos_bound b 16). lia.
  - rewrite Z.shiftr_div_pow2 by lia. change (2 ^ 4) with 16.
    split; [apply Z.div_pos; lia|].
    apply Z.lt_succ_r. apply Z.div_lt_upper_bound; lia.
Qed.

Lemma all_hex_app s1 s2 :
  all_hex (s1 ++ s2)%string = all_hex s1 && all_hex s2.
Proof.
  induction s1 as [|c s1 IH]; [reflexivity|].
  simpl. rewrite IH, andb_assoc. reflexivity.
Qed.

Lemma string_of_list_ascii_app l1 l2 :
  string_of_list_ascii (l1 ++ l2) =
  (string_of_list_ascii l1 ++ string_of_list_ascii l2)%string.
Proof.
  induction l1 as [|c l1 IH]; [reflexivity|].
  simpl. rewrite IH. reflexivity.
Qed.

Lemma string_length_append s1 s2 :
  String.length (s1 ++ s2)%string = (String.length s1 + String.length s2)%nat.
Proof.
  induction s1 as [|c s1 IH]; [reflexivity|]. simpl. rewrite IH. reflexivity.
Qed.

Lemma hex_bytes_form bs :
  Forall (fun b => 0 <= b <= 255) bs ->
  let s := string_of_list_ascii (concat (map MD5.hex_byte bs)) in
  String.length s = (2 * length bs)%nat /\ all_hex s = true.
Proof.
  induction 1 as [|b bs Hb _ [IHl IHh]]; [split; reflexivity|].
  cbn zeta in *. cbn [map concat].
  rewrite string_of_list_ascii_app, all_hex_app, IHh.
  rewrite (hex_byte_hex b Hb). split; [|reflexivity].
  rewrite string_length_append, IHl. cbn [length]. unfold MD5.hex_byte.
  cbn [string_of_list_ascii String.length]. lia.
Qed.

Lemma le_bytes_range n x :
  Forall (fun b => 0 <= b <= 255) (MD5.le_bytes n x).
Proof.
  unfold MD5.le_bytes. apply List.Forall_forall. intros b Hb.
  apply in_map_iff in Hb as [i [<- _]].
  change 255 with (Z.ones 8). rewrite Z.land_ones by lia.
  change (2 ^ 8) with 256. change (Z.ones 8) with 255.
  pose proof (Z.mod_pos_bound (Z.shiftr x (8 * Z.of_nat i)) 256). lia.
Qed.

Lemma md5_form s :
  String.length (MD5.md5 s) = 32%nat /\ all_hex (MD5.md5 s) = true.
Proof.
  unfold MD5.md5, MD5.hexdigest.
  set (r := MD5.digest _).
  pose proof (hex_bytes_form
    (MD5.le_bytes 4 (MD5.rA r) ++ MD5.le_bytes 4 (MD5.rB r) ++
     MD5.le_bytes 4 (MD5.rC r) ++ MD5.le_bytes 4 (MD5.rD r))) as H.
  cbn zeta in H. destruct H as [Hl Hh].
  - repeat (apply Forall_app; split); apply le_bytes_range.
  - split; [|exact Hh]. rewrite Hl, !length_app.
    unfold MD5.le_bytes. rewrite !length_map, !length_seq. reflexivity.
Qed.

(** ** Turns with one hash *)

Lemma bounded_search (f : nat -> string) h n :
  (exists i, (i <= n)%nat /\ f i = h) \/ (forall i, (i <= n)%nat -> f i <> h).
Proof.
  induction n as [|n IH].
  - destruct (string_dec (f 0%nat) h) as [E|E].
    + left. exists 0%nat. split; [lia | exact E].
    + right. intros i Hi. replace i with 0%nat by lia. exact E.
  - destruct IH as [[i [Hi E]]|IH].
    + left. exists i. split; [lia | exact E].
    + destruct (string_dec (f (S n)) h) as [E|E].
      * left. exists (S n). split; [lia | exact E].
      * right. intros i Hi.
        destruct (Nat.eq_dec i (S n)) as [->|D]; [exact E | apply IH; lia].
Qed.

(** More values than the list [l] holds, all of [l]: two are equal. *)
Lemma pigeonhole n : forall (l : list string) (f : nat -> string),
  (length l <= n)%nat -> (forall i, (i <= n)%nat -> In (f i) l) ->
  exists i j, (i < j <= n)%nat /\ f i = f j.
Proof.
  induction n as [|n IH]; intros l f Hl Hf.
  - destruct l as [|x l]; [destruct (Hf 0%nat (le_n _)) | cbn [length] in Hl; lia].
  - destruct (bounded_search f (f (S n)) n) as [[i [Hi E]]|Hno].
    + exists i, (S n). split; [lia | exact E].
    + destruct (IH (List.remove string_dec (f (S n)) l) f) as [i [j [Hij E]]].
      * pose proof (List.remove_length_lt string_dec l (f (S n))
                      (Hf (S n) (le_n _))). lia.
      * intros i Hi. apply List.in_in_remove; [apply Hno; exact Hi|].
        apply Hf. lia.
      * exists i, j. split; [lia | exact E].
Qed.

Lemma is_hex_digit c : is_hex c = true -> In c hex_digits.
Proof.
  destruct c as [[] [] [] [] [] [] [] []]; vm_compute; intros H;
    try discriminate H;
    repeat (first [left; reflexivity | right]).
Qed.

Lemma all_hex_strings s :
  all_hex s = true -> In s (hex_strings (String.length s)).
Proof.
  induction s as [|c s IH]; cbn [all_hex String.length hex_strings].
  - intros _. left. reflexivity.
  - intros H. apply andb_true_iff in H as [Hc Hs]. apply in_flat_map.
    exists c. split; [exact (is_hex_digit _ Hc) | apply in_map, IH, Hs].
Qed.

Lemma collect_repeat n :
  collect Decoder.loads (repeat Examples.assistant_line n) =
  Ok (repeat Examples.assistant_entry n).
Proof.
  assert (R : read_line Decoder.loads Examples.assistant_line =
              Keep Examples.assistant_entry) by (vm_compute; reflexivity).
  induction n as [|n IH]; [reflexivity|].
  cbn [repeat collect]. rewrite R, IH. reflexivity.
Qed.

Lemma segments_repeat n :
  until_user (repeat Examples.assistant_entry n) =
    repeat Examples.assistant_entry n
  /\ List.filter is_assistant (repeat Examples.assistant_entry n) =
     repeat Examples.assistant_entry n
  /\ segments (repeat Examples.assistant_entry n) = [].
Proof.
  assert (U : is_user Examples.assistant_entry = false)
    by (vm_compute; reflexivity).
  assert (A : is_assistant Examples.assistant_entry = true)
    by (vm_compute; reflexivity).
  induction n as [|n [IH1 [IH2 IH3]]]; [repeat split|].
  cbn [repeat until_user List.filter segments]. rewrite U, A, IH1, IH2, IH3.
  repeat split.
Qed.

(** The one turn of the exchange with [n] entries of the assistant. *)
Lemma parse_long_exchange n :
  parse_session_into_turns Decoder.loads (Some (Examples.long_exchange n)) =
  Ok [turn_of (Examples.user_entry, repeat Examples.assistant_entry n) 0].
Proof.
  assert (R : read_line Decoder.loads Examples.user_line =
              Keep Examples.user_entry) by (vm_compute; reflexivity).
  assert (U : is_user Examples.user_entry = true) by (vm_compute; reflexivity).
  assert (C : collect Decoder.loads (Examples.long_exchange n) =
              Ok (Examples.user_entry :: repeat Examples.assistant_entry n)).
  { unfold Examples.long_exchange. cbn [collect].
    rewrite R, collect_repeat. reflexivity. }
  rewrite (parse_some _ _ _ C). cbn [segments]. rewrite U.
  destruct (segments_repeat n) as [-> [-> ->]]. reflexivity.
Qed.

Lemma long_exchange_raw n :
  raw_jsonl (turn_of (Examples.user_entry, repeat Examples.assistant_entry n) 0)
  = Examples.long_raw n.
Proof.
  rewrite turn_of_raw. cbn [fst snd map]. rewrite map_repeat. reflexivity.
Qed.

Lemma long_raw_inj i j : Examples.long_raw i = Examples.long_raw j -> i = j.
Proof.
  assert (Fu : has_char "010" Examples.user_line = false)
    by (vm_compute; reflexivity).
  assert (Fa : has_char "010" Examples.assistant_line = false)
    by (vm_compute; reflexivity).
  assert (F : forall n, Forall (fun l => has_char "010" l = false)
                          (Examples.user_line :: repeat Examples.assistant_line n)).
  { intros n. constructor; [exact Fu|]. apply List.Forall_forall.
    intros l Hl. apply repeat_spec in Hl. subst l. exact Fa. }
  intros E. unfold Examples.long_raw in E.
  apply join_newline_inj in E; [| discriminate | discriminate | apply F | apply F].
  injection E as E. apply (f_equal (@length string)) in E.
  rewrite !repeat_length in E. exact E.
Qed.

(** The digest has 16^32 values and the turns of a session are without
    number: two turns of two sessions, made of different lines, have the
    same hash.  Each is the one turn of the exchange with the entry of the
    assistant written a number of times. *)
Remark two_turns_with_one_hash :
  exists i j t1 t2,
    (i < j)%nat
    /\ parse_session_into_turns Decoder.loads
         (Some (Examples.long_exchange i)) = Ok [t1]
    /\ parse_session_into_turns Decoder.loads
         (Some (Examples.long_exchange j)) = Ok [t2]
    /\ raw_jsonl t1 <> raw_jsonl t2
    /\ content_hash t1 = content_hash t2.
Proof.
  destruct (pigeonhole (length (hex_strings 32)) (hex_strings 32)
              (fun n => compute_content_hash (Examples.long_raw n)) (le_n _))
    as [i [j [Hij E]]].
  - intros n _. destruct (md5_form (Examples.long_raw n)) as [L H].
    apply all_hex_strings in H. unfold compute_content_hash.
    rewrite L in H. exact H.
  - exists i, j. eexists. eexists. split; [lia|].
    split; [apply parse_long_exchange|]. split; [apply parse_long_exchange|].
    assert (H : forall n,
      content_hash
        (turn_of (Examples.user_entry, repeat Examples.assistant_entry n) 0) =
      compute_content_hash (Examples.long_raw n))
      by (intros n; rewrite <- long_exchange_raw; reflexivity).
    rewrite !long_exchange_raw, !H. split; [|exact E].
    intros R. apply long_raw_inj in R. lia.
Qed.

(** X5: for a content that [encode] accepts, one that holds no lone
    surrogate, the hash is a string of 32 lower-case hexadecimal digits. *)
Theorem content_hash_form content :
  encodable content = true ->
  String.length (compute_content_hash content) = 32%nat
  /\ all_hex (compute_content_hash content) = true.
Proof. intros _. apply md5_form. Qed.

Lemma content_hash_form_witness :
  encodable "Fix the bug" = true
  /\ String.length (compute_content_hash "Fix the bug") = 32%nat
  /\ all_hex (compute_content_hash "Fix the bug") = true.
Proof.
  split; [reflexivity|]. apply (content_hash_form "Fix the bug"). reflexivity.
Defined.

(* ================================================================== *)
(** * The further properties of the parser on the sample sessions *)

Lemma turn_numbers_are_positions_witness :
  parse_session_into_turns Decoder.loads
    (Some (Examples.exchange ++ Examples.second_exchange)) =
    Ok (Examples.turns_of (Examples.exchange ++ Examples.second_exchange))
  /\ Examples.turns_of (Examples.exchange ++ Examples.second_exchange) !! 1%nat =
     Some Examples.second_turn
  /\ turn_number Examples.second_turn = 1%nat.
Proof.
  assert (H1 : parse_session_into_turns Decoder.loads
                 (Some (Examples.exchange ++ Examples.second_exchange)) =
               Ok (Examples.turns_of (Examples.exchange ++ Examples.second_exchange)))
    by (vm_compute; reflexivity).
  assert (H2 : Examples.turns_of (Examples.exchange ++ Examples.second_exchange)
                 !! 1%nat = Some Examples.second_turn)
    by (vm_compute; reflexivity).
  split; [exact H1|]. split; [exact H2|].
  exact (turn_numbers_are_positions Decoder.loads _ _ _ _ H1 H2).
Defined.

Lemma turn_times_witness :
  collect Decoder.loads Examples.exchange = Ok Examples.exchange_messages
  /\ exists turns,
       parse_session_into_turns Decoder.loads (Some Examples.exchange) = Ok turns
       /\ Forall2 (fun t s =>
                     started_at t = timestamp (fst s)
                     /\ ended_at t =
                        List.last (truthy_values (map timestamp (snd s)))
                                  (timestamp (fst s)))
                  turns (List.filter has_text (segments Examples.exchange_messages)).
Proof.
  assert (H : collect Decoder.loads Examples.exchange =
              Ok Examples.exchange_messages) by (vm_compute; reflexivity).
  split; [exact H|].
  exact (turn_times Decoder.loads _ _ H).
Defined.

Lemma turn_model_name_witness :
  collect Decoder.loads Examples.exchange = Ok Examples.exchange_messages
  /\ exists turns,
       parse_session_into_turns Decoder.loads (Some Examples.exchange) = Ok turns
       /\ Forall2 (fun t s =>
                     model_name t = hd JNull (truthy_values (map model (snd s))))
                  turns (List.filter has_text (segments Examples.exchange_messages)).
Proof.
  assert (H : collect Decoder.loads Examples.exchange =
              Ok Examples.exchange_messages) by (vm_compute; reflexivity).
  split; [exact H|].
  exact (turn_model_name Decoder.loads _ _ H).
Defined.

Lemma earlier_turns_are_stable_witness :
  parse_session_into_turns Decoder.loads
    (Some (Examples.exchange ++ Examples.second_exchange)) =
    Ok (Examples.exchange_turns ++ [Examples.second_turn])
  /\ parse_session_into_turns Decoder.loads
       (Some ((Examples.exchange ++ Examples.second_exchange)
              ++ [Examples.followup_line])) =
       Ok (Examples.turns_of ((Examples.exchange ++ Examples.second_exchange)
                              ++ [Examples.followup_line]))
  /\ removelast (Examples.exchange_turns ++ [Examples.second_turn]) `prefix_of`
       Examples.turns_of ((Examples.exchange ++ Examples.second_exchange)
                          ++ [Examples.followup_line]).
Proof.
  assert (H1 : parse_session_into_turns Decoder.loads
                 (Some (Examples.exchange ++ Examples.second_exchange)) =
               Ok (Examples.exchange_turns ++ [Examples.second_turn]))
    by (vm_compute; reflexivity).
  assert (H2 : parse_session_into_turns Decoder.loads
                 (Some ((Examples.exchange ++ Examples.second_exchange)
                        ++ [Examples.followup_line])) =
               Ok (Examples.turns_of ((Examples.exchange ++ Examples.second_exchange)
                                      ++ [Examples.followup_line])))
    by (vm_compute; reflexivity).
  split; [exact H1|]. split; [exact H2|].
  exact (earlier_turns_are_stable Decoder.loads _ _ _ _ H1 H2).
Defined.

(* ================================================================== *)
(** * Properties of [parse_session_file] *)

Lemma read_line_transcribed json_loads line :
  match read_line json_loads line with
  | Skip => SessionFile.read_line json_loads line = SessionFile.Skip
  | Fail e => SessionFile.read_line json_loads line = SessionFile.Fail e
  | Keep m =>
      if long_text (text m)
      then exists e, SessionFile.read_line json_loads line = SessionFile.Keep e
                     /\ transcribed e = spoken m
      else SessionFile.read_line json_loads line = SessionFile.Skip
  end.
Proof.
  unfold read_line, SessionFile.read_line.
  destruct (nonempty (strip line)); cbn [negb]; [|reflexivity].
  destruct (json_loads (strip line)) as [[| | | | | |obj]|]; try reflexivity.
  destruct (negb _); [reflexivity|].
  destruct (truthy (dict_get obj "isSidechain" JNull)); cbn [orb]; [reflexivity|].
  destruct (truthy (dict_get obj "isMeta" JNull)); [reflexivity|].
  destruct (dict_get obj "message" (JObj [])) as [| | | | | |message];
    try reflexivity.
  destruct (_extract_text_content _) as [t|e]; [|reflexivity].
  unfold command_marker, long_text.
  destruct (nonempty t) eqn:Ne; cbn [negb orb andb].
  - destruct (startswith (strip t) "<command-name>") eqn:M1; cbn [orb].
    + destruct (py_len (strip t) <? 10)%nat; reflexivity.
    + destruct (startswith (strip t) "<local-command") eqn:M2.
      * destruct (py_len (strip t) <? 10)%nat; reflexivity.
      * cbn [text]. destruct (Nat.ltb_spec (py_len (strip t)) 10) as [L|L].
        -- apply Nat.leb_gt in L. rewrite L. reflexivity.
        -- apply Nat.leb_le in L. rewrite L. eexists. split; reflexivity.
  - cbn [text]. destruct t; [|discriminate Ne].
    reflexivity.
Qed.

(** X6: the transcript holds, in order, the messages the first pass of
    [parse_session_into_turns] keeps whose text has ten characters or more
    between its outer white space, with the same role, text and timestamp;
    and it raises on the lines on which the first pass raises. *)
Theorem transcript_is_the_long_messages json_loads lines :
  match collect json_loads lines with
  | Ok messages =>
      exists turns,
        SessionFile.parse_session_file json_loads lines = Ok turns
        /\ map transcribed turns =
           map spoken (List.filter (fun m => long_text (text m)) messages)
  | Raise e => SessionFile.parse_session_file json_loads lines = Raise e
  end.
Proof.
  induction lines as [|line lines IH];
    cbn [collect SessionFile.parse_session_file].
  - exists []. split; reflexivity.
  - pose proof (read_line_transcribed json_loads line) as R.
    destruct (read_line json_loads line) as [|m|e].
    + rewrite R. exact IH.
    + destruct (collect json_loads lines) as [ms|e].
      * destruct IH as [turns [E1 E2]]. cbn [List.filter].
        destruct (long_text (text m)).
        -- destruct R as [e [R1 R2]]. rewrite R1, E1.
           exists (e :: turns). split; [reflexivity|].
           cbn [map]. rewrite R2, E2. reflexivity.
        -- rewrite R. exists turns. split; assumption.
      * destruct (long_text (text m)).
        -- destruct R as [e' [R1 _]]. rewrite R1, IH. reflexivity.
        -- rewrite R. exact IH.
    + rewrite R. reflexivity.
Qed.

Lemma read_line_kept json_loads line e :
  SessionFile.read_line json_loads line = SessionFile.Keep e ->
  long_text (SessionFile.content e) = true
  /\ command_marker (strip (SessionFile.content e)) = false.
Proof.
  unfold SessionFile.read_line.
  destruct (nonempty (strip line)); cbn [negb]; [|discriminate].
  destruct (json_loads (strip line)) as [[| | | | | |obj]|]; try discriminate.
  destruct (negb _); [discriminate|].
  destruct (truthy (dict_get obj "isSidechain" JNull)); [discriminate|].
  destruct (truthy (dict_get obj "isMeta" JNull)); [discriminate|].
  destruct (dict_get obj "message" (JObj [])) as [| | | | | |message];
    try discriminate.
  destruct (_extract_text_content _) as [t|x]; [|discriminate].
  destruct (nonempty t); cbn [negb orb]; [|discriminate].
  destruct (Nat.ltb_spec (py_len (strip t)) 10) as [L|L]; [discriminate|].
  destruct (startswith (strip t) "<command-name>") eqn:M1; [discriminate|].
  destruct (startswith (strip t) "<local-command") eqn:M2; [discriminate|].
  intros [= <-]. cbn [SessionFile.content]. unfold long_text, command_marker.
  rewrite M1, M2. split; [apply Nat.leb_le; exact L | reflexivity].
Qed.

(** X7: every entry of the transcript has a text of ten characters or
    more between its outer white space, and that text starts with neither
    command marker. *)
Theorem transcript_entries_are_long json_loads lines turns :
  SessionFile.parse_session_file json_loads lines = Ok turns ->
  Forall (fun e => long_text (SessionFile.content e) = true
                   /\ command_marker (strip (SessionFile.content e)) = false)
         turns.
Proof.
  revert turns. induction lines as [|line lines IH]; intros turns;
    cbn [SessionFile.parse_session_file].
  - intros [= <-]. constructor.
  - destruct (SessionFile.read_line json_loads line) as [|e|x] eqn:R;
      [apply IH | | discriminate].
    destruct (SessionFile.parse_session_file json_loads lines) as [es|x];
      [|discriminate].
    intros [= <-]. constructor; [|apply IH; reflexivity].
    exact (read_line_kept _ _ _ R).
Qed.

(* ================================================================== *)
(** * Properties of [build_session_summary] *)

Lemma py_len_append s1 s2 : py_len (s1 ++ s2) = (py_len s1 + py_len s2)%nat.
Proof.
  unfold py_len. rewrite bytes_append, List.filter_app, length_app. reflexivity.
Qed.

Lemma bytes_bounded s : Forall (fun b => (b < 256)%N) (bytes s).
Proof.
  unfold bytes. induction s as [|a s IH]; simpl; constructor;
    [apply N_ascii_bounded | exact IH].
Qed.

Lemma bytes_of_bytes l :
  Forall (fun b => (b < 256)%N) l -> bytes (of_bytes l) = l.
Proof.
  unfold bytes, of_bytes, byte_of. induction 1 as [|b l Hb _ IH]; simpl;
    [reflexivity|].
  rewrite N_ascii_embedding by exact Hb. f_equal. exact IH.
Qed.

Lemma take_chars_bounded n : forall l,
  Forall (fun b => (b < 256)%N) l ->
  Forall (fun b => (b < 256)%N) (take_chars n l).
Proof.
  intros l H. revert n. induction H as [|b l Hb _ IH]; intros n; cbn [take_chars];
    [constructor|].
  destruct (continuation b); [constructor; [exact Hb | apply IH]|].
  destruct n; constructor; [exact Hb | apply IH].
Qed.

Lemma take_chars_count l : forall n,
  (length (List.filter (fun b => negb (continuation b)) (take_chars n l)) <= n)%nat.
Proof.
  induction l as [|b l IH]; intros n; cbn [take_chars]; [simpl; lia|].
  destruct (continuation b) eqn:C.
  - cbn [List.filter]. rewrite C. cbn [negb]. apply IH.
  - destruct n; [simpl; lia|]. cbn [List.filter]. rewrite C. cbn [negb length].
    specialize (IH n). lia.
Qed.

Lemma py_len_take n s : (py_len (py_take n s) <= n)%nat.
Proof.
  unfold py_len, py_take.
  rewrite bytes_of_bytes by (apply take_chars_bounded, bytes_bounded).
  apply take_chars_count.
Qed.

Lemma py_len_shorten c : (py_len (SessionFile.shorten c) <= 1003)%nat.
Proof.
  unfold SessionFile.shorten.
  destruct (Nat.ltb_spec 1000 (py_len c)) as [L|L]; [|lia].
  rewrite py_len_append. pose proof (py_len_take 1000 c).
  change (py_len "...") with 3%nat. lia.
Qed.

Lemma py_len_entry_text upper r c :
  py_len (SessionFile.entry_text upper r c) =
  (4 + py_len (upper r) + py_len (SessionFile.shorten c))%nat.
Proof.
  unfold SessionFile.entry_text. rewrite !py_len_append.
  change (py_len "[") with 1%nat. change (py_len "]: ") with 3%nat. lia.
Qed.

Lemma py_len_join sep p parts :
  Z.of_nat (py_len (join sep (p :: parts))) =
  total_len (p :: parts) + Z.of_nat (py_len sep) * Z.of_nat (length parts).
Proof.
  revert p. induction parts as [|q parts IH]; intros p.
  - unfold join, total_len. cbn [String.concat fold_right length]. lia.
  - change (join sep (p :: q :: parts))
      with (String.append p (String.append sep (join sep (q :: parts)))).
    rewrite !py_len_append, !Nat2Z.inj_add, IH.
    unfold total_len. cbn [fold_right length]. lia.
Qed.

Lemma summary_parts_fit upper max_chars turns : forall total parts,
  SessionFile.summary_parts upper max_chars total turns = Ok parts ->
  parts <> [] -> total + total_len parts <= max_chars.
Proof.
  induction turns as [|t turns IH]; intros total parts;
    cbn [SessionFile.summary_parts].
  - intros [= <-] H. contradiction.
  - destruct (SessionFile.role t) as [| | | |r| |]; try discriminate.
    destruct (Z.ltb_spec max_chars
                (total + Z.of_nat (py_len (SessionFile.entry_text upper r
                                             (SessionFile.content t)))))
      as [L|L].
    + intros [= <-] H. contradiction.
    + destruct (SessionFile.summary_parts upper max_chars _ turns)
        as [ps|x] eqn:E; [|discriminate].
      intros [= <-] _.
      destruct ps as [|p ps]; [unfold total_len; cbn [fold_right]; lia|].
      specialize (IH _ _ E ltac:(discriminate)).
      unfold total_len in *. cbn [fold_right] in *. lia.
Qed.

Lemma summary_parts_entries upper max_chars turns : forall total parts,
  SessionFile.summary_parts upper max_chars total turns = Ok parts ->
  exists kept rest,
    turns = kept ++ rest
    /\ map (entry_of upper) kept = map Some parts
    /\ match rest with
       | [] => True
       | t :: _ =>
           exists e, entry_of upper t = Some e
                     /\ max_chars < total + total_len parts + Z.of_nat (py_len e)
       end.
Proof.
  induction turns as [|t turns IH]; intros total parts;
    cbn [SessionFile.summary_parts].
  - intros [= <-]. exists [], []. repeat split.
  - unfold entry_of at 2.
    destruct (SessionFile.role t) as [| | | |r| |] eqn:R; try discriminate.
    destruct (Z.ltb_spec max_chars
                (total + Z.of_nat (py_len (SessionFile.entry_text upper r
                                             (SessionFile.content t)))))
      as [L|L].
    + intros [= <-]. exists [], (t :: turns). split; [reflexivity|].
      split; [reflexivity|]. unfold entry_of. rewrite R.
      eexists. split; [reflexivity|]. unfold total_len. cbn [fold_right]. lia.
    + destruct (SessionFile.summary_parts upper max_chars _ turns)
        as [ps|x] eqn:E; [|discriminate].
      intros [= <-]. destruct (IH _ _ E) as [kept [rest [E1 [E2 E3]]]].
      exists (t :: kept), rest. split; [rewrite E1; reflexivity|].
      split.
      * cbn [map]. rewrite E2. unfold entry_of. rewrite R. reflexivity.
      * destruct rest as [|t' rest]; [exact I|].
        destruct E3 as [e [E3 E4]]. exists e. split; [exact E3|].
        unfold total_len in *. cbn [fold_right] in *. lia.
Qed.

Lemma entries_at_least_four upper kept : forall parts,
  map (entry_of upper) kept = map Some parts ->
  4 * Z.of_nat (length parts) <= total_len parts.
Proof.
  induction kept as [|t kept IH]; intros [|p parts]; cbn [map]; intros E.
  - unfold total_len. cbn [fold_right length]. lia.
  - discriminate E.
  - discriminate E.
  - injection E as E1 E2. specialize (IH _ E2).
    unfold entry_of in E1. destruct (SessionFile.role t); try discriminate.
    injection E1 as <-. unfold total_len in *. cbn [fold_right length].
    rewrite py_len_entry_text. lia.
Qed.

(** X8: the summary is the entries of the turns up to the first one that
    does not fit, joined by blank lines: the characters of the entries kept
    are [max_chars] at most, and the entry of the next turn, if there is
    one, would exceed it. *)
Theorem summary_is_the_entries_that_fit upper turns max_chars s :
  SessionFile.build_session_summary upper turns max_chars = Ok s ->
  exists kept rest parts,
    turns = kept ++ rest
    /\ map (entry_of upper) kept = map Some parts
    /\ s = join SessionFile.blank_line parts
    /\ (parts <> [] -> total_len parts <= max_chars)
    /\ match rest with
       | [] => True
       | t :: _ =>
           exists e, entry_of upper t = Some e
                     /\ max_chars < total_len parts + Z.of_nat (py_len e)
       end.
Proof.
  unfold SessionFile.build_session_summary.
  destruct (SessionFile.summary_parts upper max_chars 0 turns) as [parts|x] eqn:E;
    [|discriminate].
  intros [= <-].
  destruct (summary_parts_entries _ _ _ _ _ E) as [kept [rest [E1 [E2 E3]]]].
  exists kept, rest, parts. split; [exact E1|]. split; [exact E2|].
  split; [reflexivity|]. split.
  - intros H. pose proof (summary_parts_fit _ _ _ _ _ E H). lia.
  - destruct rest as [|t rest]; [exact I|].
    destruct E3 as [e [E3 E4]]. exists e. split; [exact E3 | lia].
Qed.

(** X9: the separators are not counted, so the summary can be longer than
    [max_chars]; it has at most one and a half times [max_chars]
    characters. *)
Theorem summary_length_bound upper turns max_chars s :
  0 <= max_chars ->
  SessionFile.build_session_summary upper turns max_chars = Ok s ->
  2 * Z.of_nat (py_len s) <= 3 * max_chars.
Proof.
  intros Hmax. unfold SessionFile.build_session_summary.
  destruct (SessionFile.summary_parts upper max_chars 0 turns) as [parts|x] eqn:E;
    [|discriminate].
  intros [= <-].
  destruct (summary_parts_entries _ _ _ _ _ E) as [kept [rest [_ [E2 _]]]].
  pose proof (entries_at_least_four _ _ _ E2) as F.
  destruct parts as [|p parts]; [change (py_len (join SessionFile.blank_line [])) with 0%nat; lia|].
  pose proof (summary_parts_fit _ _ _ _ _ E ltac:(discriminate)) as T.
  rewrite py_len_join. change (py_len SessionFile.blank_line) with 2%nat.
  cbn [length] in F. unfold total_len in *. cbn [fold_right] in *. lia.
Qed.

(** X10: the summary raises for a role that is no [str] only; with roles
    that are strings it returns. *)
Theorem summary_of_string_roles upper turns max_chars :
  Forall (fun t => is_str (SessionFile.role t)) turns ->
  exists s, SessionFile.build_session_summary upper turns max_chars = Ok s.
Proof.
  intros H. unfold SessionFile.build_session_summary.
  assert (G : forall total, exists parts,
             SessionFile.summary_parts upper max_chars total turns = Ok parts).
  { induction H as [|t turns Ht _ IH]; intros total;
      cbn [SessionFile.summary_parts]; [eexists; reflexivity|].
    destruct Ht as [r ->].
    destruct (_ <? _); [eexists; reflexivity|].
    destruct (IH (total + Z.of_nat (py_len (SessionFile.entry_text upper r
                                              (SessionFile.content t)))))
      as [ps ->].
    eexists; reflexivity. }
  destruct (G 0) as [parts ->]. eexists; reflexivity.
Qed.

(* ================================================================== *)
(** * Properties of [get_session_metadata] *)

Lemma compare_le_trans s : forall t u,
  (s ?= t)%string <> Gt -> (t ?= u)%string <> Gt -> (s ?= u)%string <> Gt.
Proof.
  induction s as [|a s IH]; intros [|b t] [|c u]; simpl; try congruence.
  unfold Ascii.compare.
  destruct (N.compare_spec (N_of_ascii a) (N_of_ascii b)) as [E1|L1|L1],
           (N.compare_spec (N_of_ascii b) (N_of_ascii c)) as [E2|L2|L2],
           (N.compare_spec (N_of_ascii a) (N_of_ascii c)) as [E3|L3|L3];
    try congruence; try lia.
  apply IH.
Qed.

Lemma leb_trans s t u :
  String.leb s t = true -> String.leb t u = true -> String.leb s u = true.
Proof.
  unfold String.leb. intros H1 H2.
  pose proof (compare_le_trans s t u) as T.
  destruct (s ?= t)%string, (t ?= u)%string, (s ?= u)%string;
    try reflexivity; try discriminate H1; try discriminate H2;
    exfalso; (apply T; [discriminate | discriminate | reflexivity]).
Qed.

Lemma leb_refl s : String.leb s s = true.
Proof. destruct (String.leb_total s s); assumption. Qed.

Lemma ltb_leb s t : String.ltb s t = true -> String.leb s t = true.
Proof. unfold String.ltb, String.leb. destruct (s ?= t)%string; congruence. Qed.

Lemma not_ltb_leb s t : String.ltb s t = false -> String.leb t s = true.
Proof.
  unfold String.ltb, String.leb. rewrite (String.compare_antisym s t).
  destruct (t ?= s)%string; simpl; congruence.
Qed.

(** [min] and [max] on strings. *)
Lemma pick_min_str items : forall b,
  exists r,
    pick false (JStr b) (map JStr items) = Ok (JStr r)
    /\ In r (b :: items)
    /\ Forall (fun x => String.leb r x = true) (b :: items).
Proof.
  induction items as [|x items IH]; intros b; cbn [pick map].
  - exists b. split; [reflexivity|]. split; [left; reflexivity|].
    constructor; [apply leb_refl | constructor].
  - cbn [py_order]. destruct (String.ltb x b) eqn:L.
    + destruct (IH x) as [r [E [I F]]]. exists r. split; [exact E|].
      split; [right; exact I|].
      inversion F as [|? ? Fx Fr]; subst.
      constructor; [|constructor; assumption].
      exact (leb_trans _ _ _ Fx (ltb_leb _ _ L)).
    + destruct (IH b) as [r [E [I F]]]. exists r. split; [exact E|].
      split; [destruct I as [I | I]; [left; exact I | right; right; exact I]|].
      inversion F as [|? ? Fb Fr]; subst.
      constructor; [exact Fb|]. constructor; [|exact Fr].
      exact (leb_trans _ _ _ Fb (not_ltb_leb _ _ L)).
Qed.

Lemma pick_max_str items : forall b,
  exists r,
    pick true (JStr b) (map JStr items) = Ok (JStr r)
    /\ In r (b :: items)
    /\ Forall (fun x => String.leb x r = true) (b :: items).
Proof.
  induction items as [|x items IH]; intros b; cbn [pick map].
  - exists b. split; [reflexivity|]. split; [left; reflexivity|].
    constructor; [apply leb_refl | constructor].
  - cbn [py_order]. destruct (String.ltb b x) eqn:L.
    + destruct (IH x) as [r [E [I F]]]. exists r. split; [exact E|].
      split; [right; exact I|].
      inversion F as [|? ? Fx Fr]; subst.
      constructor; [|constructor; assumption].
      exact (leb_trans _ _ _ (ltb_leb _ _ L) Fx).
    + destruct (IH b) as [r [E [I F]]]. exists r. split; [exact E|].
      split; [destruct I as [I | I]; [left; exact I | right; right; exact I]|].
      inversion F as [|? ? Fb Fr]; subst.
      constructor; [exact Fb|]. constructor; [|exact Fr].
      exact (leb_trans _ _ _ (not_ltb_leb _ _ L) Fb).
Qed.

(** X11: when the timestamps that are true are strings, [start_time] and
    [end_time] are the least and the greatest of them in the order of
    strings, and [None] when there is none. *)
Theorem metadata_times_are_the_extremes stem parent_name turns :
  Forall is_str (SessionFile.timestamps turns) ->
  exists m,
    SessionFile.get_session_metadata stem parent_name turns = Ok m
    /\ match SessionFile.timestamps turns with
       | [] =>
           SessionFile.Metadata.start_time m = JNull
           /\ SessionFile.Metadata.end_time m = JNull
       | _ :: _ =>
           In (SessionFile.Metadata.start_time m) (SessionFile.timestamps turns)
           /\ In (SessionFile.Metadata.end_time m) (SessionFile.timestamps turns)
           /\ Forall (fun x =>
                        String.leb (str_of (SessionFile.Metadata.start_time m))
                                   (str_of x) = true
                        /\ String.leb (str_of x)
                             (str_of (SessionFile.Metadata.end_time m)) = true)
                     (SessionFile.timestamps turns)
       end.
Proof.
  intros H. unfold SessionFile.get_session_metadata.
  rewrite (is_str_map _ H).
  destruct (map str_of (SessionFile.timestamps turns)) as [|b items];
    cbn [map min_or_none max_or_none].
  - eexists. split; [reflexivity|]. split; reflexivity.
  - destruct (pick_min_str items b) as [lo [E1 [I1 F1]]].
    destruct (pick_max_str items b) as [hi [E2 [I2 F2]]].
    rewrite E1, E2. eexists. split; [reflexivity|].
    cbn [SessionFile.Metadata.start_time SessionFile.Metadata.end_time].
    change (JStr b :: map JStr items) with (map JStr (b :: items)).
    split; [apply in_map; exact I1|]. split; [apply in_map; exact I2|].
    apply List.Forall_forall. intros x Hx.
    apply in_map_iff in Hx as [y [<- Hy]]. cbn [str_of].
    rewrite List.Forall_forall in F1, F2. split; [apply F1 | apply F2]; exact Hy.
Qed.

Lemma py_order_raises greater : forall a b e,
  py_order greater a b = Raise e -> e = TypeError.
Proof.
  fix IH 1. intros [|a0|n|f|s|l|f] b e.
  - destruct b as [| | |[]| | |]; simpl; congruence.
  - destruct b as [| | |[]| | |]; simpl; congruence.
  - destruct b as [| | |[]| | |]; simpl; congruence.
  - destruct f as [| | |]; destruct b as [| | |[]| | |]; simpl; congruence.
  - destruct b as [| | |[]| | |]; simpl; congruence.
  - destruct b as [| | |[]| |m|]; try (simpl; congruence).
    cbn [py_order]. revert m. revert l. fix IHl 1.
    intros [|x l] [|y m]; try discriminate.
    destruct (py_eq x y); [apply IHl | apply IH].
  - destruct b as [| | |[]| | |]; simpl; congruence.
Qed.

Lemma py_order_other greater v s :
  (forall t, v <> JStr t) ->
  py_order greater v (JStr s) = Raise TypeError
  /\ py_order greater (JStr s) v = Raise TypeError.
Proof.
  intros H. destruct v as [| | |[]| t | |]; try (split; reflexivity).
  contradiction (H t). reflexivity.
Qed.

Lemma pick_other_after_str greater items : forall s v,
  In v items -> (forall t, v <> JStr t) ->
  pick greater (JStr s) items = Raise TypeError.
Proof.
  induction items as [|x items IH]; intros s v Hin Hv; [contradiction|].
  cbn [pick]. destruct Hin as [-> | Hin].
  - rewrite (proj1 (py_order_other greater v s Hv)). reflexivity.
  - assert (C : (exists t, x = JStr t) \/ (forall t, x <> JStr t))
      by (destruct x; try (right; discriminate); left; eexists; reflexivity).
    destruct C as [[t ->] | C].
    + cbn [py_order]. destruct (if greater then _ else _);
        exact (IH _ v Hin Hv).
    + rewrite (proj1 (py_order_other greater x s C)). reflexivity.
Qed.

Lemma pick_str_after_other greater items : forall best s,
  In (JStr s) items -> (forall t, best <> JStr t) ->
  pick greater best items = Raise TypeError.
Proof.
  induction items as [|x items IH]; intros best s Hin Hb; [contradiction|].
  cbn [pick].
  assert (C : (exists t, x = JStr t) \/ (forall t, x <> JStr t))
    by (destruct x; try (right; discriminate); left; eexists; reflexivity).
  destruct C as [[t ->] | C].
  - rewrite (proj2 (py_order_other greater best t Hb)). reflexivity.
  - destruct Hin as [-> | Hin]; [contradiction (C s); reflexivity|].
    destruct (py_order greater x best) as [[|]|e] eqn:E.
    + exact (IH _ s Hin C).
    + exact (IH _ s Hin Hb).
    + rewrite (py_order_raises _ _ _ _ E). reflexivity.
Qed.

(** X12: when a timestamp that is true is a string and another one is
    not, the call raises [TypeError]. *)
Theorem metadata_of_mixed_timestamps stem parent_name turns s v :
  In (JStr s) (SessionFile.timestamps turns) ->
  In v (SessionFile.timestamps turns) ->
  (forall t, v <> JStr t) ->
  SessionFile.get_session_metadata stem parent_name turns = Raise TypeError.
Proof.
  intros Hs Hv Hn. unfold SessionFile.get_session_metadata.
  destruct (SessionFile.timestamps turns) as [|x items]; [contradiction|].
  cbn [min_or_none].
  assert (C : (exists t, x = JStr t) \/ (forall t, x <> JStr t))
    by (destruct x; try (right; discriminate); left; eexists; reflexivity).
  destruct C as [[t ->] | C].
  - destruct Hv as [<- | Hv]; [contradiction (Hn t); reflexivity|].
    rewrite (pick_other_after_str _ _ _ _ Hv Hn). reflexivity.
  - destruct Hs as [-> | Hs]; [contradiction (C s); reflexivity|].
    rewrite (pick_str_after_other _ _ _ _ Hs C). reflexivity.
Qed.

Lemma count_roles turns :
  (SessionFile.count_role "user" turns + SessionFile.count_role "assistant" turns
   <= length turns)%nat.
Proof.
  unfold SessionFile.count_role.
  induction turns as [|t turns IH]; cbn [List.filter length]; [lia|].
  destruct (py_eq (SessionFile.role t) (JStr "user")) eqn:U.
  - apply py_eq_str in U. rewrite U. cbn [py_eq length].
    change (String.eqb "user" "assistant") with false. cbn [length]. lia.
  - destruct (py_eq (SessionFile.role t) (JStr "assistant")); cbn [length]; lia.
Qed.

(** X13: the turns counted as user turns and as assistant turns are
    turns of the list, and no turn is counted twice. *)
Theorem metadata_counts stem parent_name turns m :
  SessionFile.get_session_metadata stem parent_name turns = Ok m ->
  SessionFile.Metadata.turn_count m = length turns
  /\ (SessionFile.Metadata.user_turns m + SessionFile.Metadata.assistant_turns m
      <= SessionFile.Metadata.turn_count m)%nat.
Proof.
  unfold SessionFile.get_session_metadata.
  destruct (min_or_none _); [|discriminate].
  destruct (max_or_none _); [|discriminate].
  intros [= <-]. cbn. split; [reflexivity | apply count_roles].
Qed.

(* ================================================================== *)
(** * Properties of [_parse_timestamp] and [_parse_decisions] *)

Lemma string_append_assoc (s1 s2 s3 : string) :
  ((s1 ++ s2) ++ s3 = s1 ++ (s2 ++ s3))%string.
Proof.
  induction s1 as [|a s1 IH]; [reflexivity|].
  change (String a ((s1 ++ s2) ++ s3) = String a (s1 ++ (s2 ++ s3)))%string.
  rewrite IH. reflexivity.
Qed.

Lemma replace_char_append c r s1 s2 :
  replace_char c r (s1 ++ s2) = (replace_char c r s1 ++ replace_char c r s2)%string.
Proof.
  induction s1 as [|a s1 IH]; [reflexivity|].
  change (String a s1 ++ s2)%string with (String a (s1 ++ s2)).
  cbn [replace_char]. rewrite IH. destruct (Ascii.eqb a c); [|reflexivity].
  rewrite string_append_assoc. reflexivity.
Qed.

Lemma nonempty_append s a r : nonempty (s ++ String a r) = true.
Proof. destruct s; reflexivity. Qed.

(** X14: a timestamp that ends in [Z] is read as the timestamp that ends
    in [+00:00] in its place. *)
Theorem utc_suffix_is_an_offset (datetime : Type)
    (fromisoformat : string -> option datetime) s :
  SessionFile._parse_timestamp datetime fromisoformat (JStr (s ++ "Z")) =
  SessionFile._parse_timestamp datetime fromisoformat (JStr (s ++ "+00:00")).
Proof.
  unfold SessionFile._parse_timestamp. cbn [truthy].
  rewrite !nonempty_append. cbn [negb].
  rewrite !replace_char_append. reflexivity.
Qed.

(** ** What [strip] leaves around visible ASCII characters *)

Lemma drop_space_keeps c tail : inert c = true -> forall front r,
  drop_space (front ++ c :: tail) = Some r ->
  exists w front', front = w ++ front' /\ r = front' ++ c :: tail.
Proof.
  intros H. apply inert_facts in H as [H1 H2].
  intros [|y1 [|y2 [|y3 front]]] r; cbn [app drop_space].
  - rewrite H1. destruct tail as [|b tail]; [discriminate|].
    rewrite space2_first by exact H2. destruct tail as [|d tail]; [discriminate|].
    rewrite space3_first by exact H2. discriminate.
  - destruct (space1 y1); [intros [= <-]; exists [y1], []; split; reflexivity|].
    rewrite space2_last by exact H2.
    destruct tail as [|b tail]; [discriminate|].
    rewrite space3_middle by exact H2. discriminate.
  - destruct (space1 y1); [intros [= <-]; exists [y1], [y2]; split; reflexivity|].
    destruct (space2 y1 y2);
      [intros [= <-]; exists [y1; y2], []; split; reflexivity|].
    rewrite space3_last by exact H2. discriminate.
  - destruct (space1 y1);
      [intros [= <-]; exists [y1], (y2 :: y3 :: front); split; reflexivity|].
    destruct (space2 y1 y2);
      [intros [= <-]; exists [y1; y2], (y3 :: front); split; reflexivity|].
    destruct (space3 y1 y2 y3);
      [intros [= <-]; exists [y1; y2; y3], front; split; reflexivity|].
    discriminate.
Qed.

Lemma drop_space_rev_keeps c tail : inert c = true -> forall front r,
  drop_space_rev (front ++ c :: tail) = Some r ->
  exists w front', front = w ++ front' /\ r = front' ++ c :: tail.
Proof.
  intros H. apply inert_facts in H as [H1 H2].
  intros [|y1 [|y2 [|y3 front]]] r; cbn [app drop_space_rev].
  - rewrite H1. destruct tail as [|b tail]; [discriminate|].
    rewrite space2_last by exact H2. destruct tail as [|d tail]; [discriminate|].
    rewrite space3_last by exact H2. discriminate.
  - destruct (space1 y1); [intros [= <-]; exists [y1], []; split; reflexivity|].
    rewrite space2_first by exact H2.
    destruct tail as [|b tail]; [discriminate|].
    rewrite space3_middle by exact H2. discriminate.
  - destruct (space1 y1); [intros [= <-]; exists [y1], [y2]; split; reflexivity|].
    destruct (space2 y2 y1);
      [intros [= <-]; exists [y1; y2], []; split; reflexivity|].
    rewrite space3_first by exact H2. discriminate.
  - destruct (space1 y1);
      [intros [= <-]; exists [y1], (y2 :: y3 :: front); split; reflexivity|].
    destruct (space2 y2 y1);
      [intros [= <-]; exists [y1; y2], (y3 :: front); split; reflexivity|].
    destruct (space3 y3 y2 y1);
      [intros [= <-]; exists [y1; y2; y3], front; split; reflexivity|].
    discriminate.
Qed.

Lemma drop_while_keeps drop c tail :
  (forall front r, drop (front ++ c :: tail) = Some r ->
     exists w front', front = w ++ front' /\ r = front' ++ c :: tail) ->
  forall fuel front,
  exists w front',
    front = w ++ front'
    /\ drop_while drop fuel (front ++ c :: tail) = front' ++ c :: tail.
Proof.
  intros Hdrop. induction fuel as [|fuel IH]; intros front; cbn [drop_while].
  - exists [], front. split; reflexivity.
  - destruct (drop (front ++ c :: tail)) as [r|] eqn:E.
    + destruct (Hdrop _ _ E) as [w [front' [-> ->]]].
      destruct (IH front') as [w' [front'' [-> E']]].
      exists (w ++ w'), front''. split; [apply app_assoc | exact E'].
    + exists [], front. split; reflexivity.
Qed.

Lemma lstrip_keeps front c tail : inert c = true ->
  exists w front',
    front = w ++ front' /\ lstrip_bytes (front ++ c :: tail) = front' ++ c :: tail.
Proof.
  intros H. unfold lstrip_bytes.
  apply (drop_while_keeps drop_space c tail (drop_space_keeps c tail H)).
Qed.

Lemma rstrip_keeps front c tail : inert c = true ->
  exists tail' w,
    tail = tail' ++ w /\ rstrip_bytes (front ++ c :: tail) = front ++ c :: tail'.
Proof.
  intros H. unfold rstrip_bytes.
  rewrite rev_app_distr. cbn [rev]. rewrite <- app_assoc. cbn [app].
  destruct (drop_while_keeps drop_space_rev c (rev front)
              (drop_space_rev_keeps c (rev front) H)
              (length (front ++ c :: tail)) (rev tail)) as [w [t' [E1 E2]]].
  rewrite E2. exists (rev t'), (rev w). split.
  - rewrite <- rev_app_distr, <- E1, rev_involutive. reflexivity.
  - rewrite rev_app_distr. cbn [rev]. rewrite rev_involutive, <- app_assoc.
    reflexivity.
Qed.

Lemma bytes_cons a s : bytes (String a s) = byte_of a :: bytes s.
Proof. reflexivity. Qed.

Lemma of_bytes_cons_bytes a s :
  of_bytes (byte_of a :: bytes s) = String a s.
Proof. rewrite <- bytes_cons. apply of_bytes_bytes. Qed.

(** [rstrip] keeps a string up to a visible ASCII character of it, and a
    part of what follows. *)
Lemma rstrip_upto front c post : inert (byte_of c) = true ->
  exists post' w,
    post = (post' ++ w)%string
    /\ rstrip (front ++ String c post) = (front ++ String c post')%string.
Proof.
  intros H. unfold rstrip. rewrite bytes_append, bytes_cons.
  destruct (rstrip_keeps (bytes front) _ (bytes post) H) as [t' [w [E1 E2]]].
  rewrite E2. exists (of_bytes t'), (of_bytes w). split.
  - rewrite <- of_bytes_app, <- E1, of_bytes_bytes. reflexivity.
  - assert (B : bytes (of_bytes t') = t').
    { apply bytes_of_bytes. pose proof (bytes_bounded post) as F.
      rewrite E1 in F. apply Forall_app in F as [F _]. exact F. }
    rewrite <- B at 1. rewrite <- bytes_cons, <- bytes_append.
    apply of_bytes_bytes.
Qed.

(** [strip] keeps what lies between two visible ASCII characters, a part
    of what precedes the first one and a part of what follows the second
    one. *)
Lemma strip_between pre c1 mid c2 post :
  inert (byte_of c1) = true -> inert (byte_of c2) = true ->
  exists w pre' post' w',
    pre = (w ++ pre')%string /\ post = (post' ++ w')%string
    /\ strip (pre ++ String c1 (mid ++ String c2 post)) =
       (pre' ++ String c1 (mid ++ String c2 post'))%string.
Proof.
  intros H1 H2. unfold strip. rewrite bytes_append, bytes_cons.
  destruct (lstrip_keeps (bytes pre) _ (bytes (mid ++ String c2 post)) H1)
    as [wb [fb [E1 E2]]].
  rewrite E2.
  assert (Bf : bytes (of_bytes fb) = fb).
  { apply bytes_of_bytes. pose proof (bytes_bounded pre) as F.
    rewrite E1 in F. apply Forall_app in F as [_ F]. exact F. }
  rewrite <- Bf, <- bytes_cons, <- bytes_append.
  change (of_bytes (rstrip_bytes (bytes (of_bytes fb ++ String c1 (mid ++ String c2 post)))))
    with (rstrip (of_bytes fb ++ String c1 (mid ++ String c2 post))).
  replace (of_bytes fb ++ String c1 (mid ++ String c2 post))%string
    with ((of_bytes fb ++ String c1 mid) ++ String c2 post)%string
    by (rewrite string_append_assoc; reflexivity).
  destruct (rstrip_upto (of_bytes fb ++ String c1 mid) c2 post H2)
    as [post' [w' [E3 E4]]].
  rewrite E4. exists (of_bytes wb), (of_bytes fb), post', w'.
  split; [rewrite <- of_bytes_app, <- E1, of_bytes_bytes; reflexivity|].
  split; [exact E3|].
  rewrite string_append_assoc. reflexivity.
Qed.

(** ** Searching and cutting a string *)

Lemma has_char_append c s1 s2 :
  has_char c (s1 ++ s2) = has_char c s1 || has_char c s2.
Proof.
  induction s1 as [|a s1 IH]; [reflexivity|].
  change (String a s1 ++ s2)%string with (String a (s1 ++ s2)).
  cbn [has_char]. rewrite IH. apply orb_assoc.
Qed.

Lemma index_of_first c pre rest :
  has_char c pre = false ->
  index_of c (pre ++ String c rest) = Some (String.length pre).
Proof.
  induction pre as [|a pre IH]; intros H.
  - change ("" ++ String c rest)%string with (String c rest).
    cbn [index_of]. rewrite Ascii.eqb_refl. reflexivity.
  - change (String a pre ++ String c rest)%string
      with (String a (pre ++ String c rest)).
    cbn [has_char] in H. apply orb_false_iff in H as [H1 H2].
    cbn [index_of String.length]. rewrite H1, (IH H2). reflexivity.
Qed.

Lemma rindex_of_absent c s : has_char c s = false -> rindex_of c s = None.
Proof.
  induction s as [|a s IH]; [reflexivity|]. cbn [has_char rindex_of].
  intros H. apply orb_false_iff in H as [H1 H2]. rewrite (IH H2), H1.
  reflexivity.
Qed.

Lemma rindex_of_last c front post :
  has_char c post = false ->
  rindex_of c (front ++ String c post) = Some (String.length front).
Proof.
  intros H. induction front as [|a front IH].
  - change ("" ++ String c post)%string with (String c post).
    cbn [rindex_of String.length].
    rewrite (rindex_of_absent _ _ H), Ascii.eqb_refl. reflexivity.
  - change (String a front ++ String c post)%string
      with (String a (front ++ String c post)).
    cbn [rindex_of String.length]. rewrite IH. reflexivity.
Qed.

Lemma substring_whole s rest : substring 0 (String.length s) (s ++ rest) = s.
Proof.
  induction s as [|a s IH]; [destruct rest; reflexivity|].
  change (String a s ++ rest)%string with (String a (s ++ rest)).
  cbn [String.length substring]. rewrite IH. reflexivity.
Qed.

Lemma substring_skip pre n s :
  substring (String.length pre) n (pre ++ s) = substring 0 n s.
Proof.
  induction pre as [|a pre IH]; [reflexivity|].
  change (String a pre ++ s)%string with (String a (pre ++ s)).
  cbn [String.length substring]. exact IH.
Qed.

(** The slice from the first [[] to the last []]. *)
Lemma slice_brackets pre mid post :
  slice (pre ++ String "[" (mid ++ String "]" post))
        (String.length pre)
        (S (String.length (pre ++ String "[" mid))) =
  String "[" (mid ++ "]").
Proof.
  unfold slice. rewrite substring_skip.
  rewrite string_length_append. cbn [String.length].
  replace (S (String.length pre + S (String.length mid)) - String.length pre)%nat
    with (String.length (String "[" (mid ++ "]")))
    by (cbn [String.length]; rewrite string_length_append; cbn [String.length]; lia).
  replace (String "[" (mid ++ String "]" post))
    with (String "[" (mid ++ "]") ++ post)%string
    by (change (String "[" (mid ++ "]") ++ post)%string
          with (String "[" ((mid ++ "]") ++ post));
        rewrite string_append_assoc; reflexivity).
  apply substring_whole.
Qed.

Lemma snoc_last (s1 : string) a : forall s2 b,
  (s1 ++ String a "")%string = (s2 ++ String b "")%string -> a = b.
Proof.
  induction s1 as [|x s1 IH]; intros [|y s2] b.
  - intros [= ->]. reflexivity.
  - destruct s2; discriminate.
  - destruct s1; discriminate.
  - change ((String x (s1 ++ String a "") = String y (s2 ++ String b ""))%string
            -> a = b).
    intros [= _ E]. exact (IH _ _ E).
Qed.

Lemma endswith_last p b : forall s a,
  endswith (s ++ String a "") (p ++ String b "") = true -> a = b.
Proof.
  induction s as [|x s IH]; intros a.
  - change ("" ++ String a "")%string with (String a "").
    cbn [endswith]. intros H.
    apply orb_true_iff in H as [H | H].
    + apply String.eqb_eq in H. exact (snoc_last "" a p b H).
    + apply orb_true_iff in H as [H | H]; [|discriminate].
      apply String.eqb_eq in H. destruct p; discriminate.
  - change (String x s ++ String a "")%string with (String x (s ++ String a "")).
    cbn [endswith]. intros H. apply orb_true_iff in H as [H | H].
    + apply String.eqb_eq in H.
      exact (snoc_last (String x s) a p b H).
    + exact (IH _ H).
Qed.

Lemma endswith_suffix p : forall front, endswith (front ++ p) p = true.
Proof.
  induction front as [|x front IH].
  - change ("" ++ p)%string with p.
    destruct p; cbn [endswith]; rewrite String.eqb_refl; reflexivity.
  - change (String x front ++ p)%string with (String x (front ++ p)).
    cbn [endswith]. rewrite IH. apply orb_true_r.
Qed.

Lemma string_snoc (s : string) :
  s = "" \/ exists front a, s = (front ++ String a "")%string.
Proof.
  induction s as [|x s IH]; [left; reflexivity|]. right.
  destruct IH as [-> | [front [a ->]]].
  - exists "", x. reflexivity.
  - exists (String x front), a. reflexivity.
Qed.

(** A string whose last character is no backtick does not end with the
    fence. *)
Lemma no_fence_at_end front c post :
  c <> "`"%char -> has_char "`" post = false ->
  endswith (front ++ String c post) SessionFile.fence = false.
Proof.
  intros Hc Hp. destruct (endswith _ _) eqn:E; [|reflexivity]. exfalso.
  destruct (string_snoc post) as [-> | [q [z ->]]].
  - apply (endswith_last "``" "`" front c) in E. contradiction.
  - rewrite has_char_append in Hp. apply orb_false_iff in Hp as [_ Hz].
    cbn [has_char] in Hz. rewrite orb_false_r in Hz.
    replace (front ++ String c (q ++ String z ""))%string
      with ((front ++ String c q) ++ String z "")%string in E
      by (rewrite string_append_assoc; reflexivity).
    apply (endswith_last "``" "`") in E. subst z.
    vm_compute in Hz. discriminate Hz.
Qed.

Lemma no_fence_at_start pre c rest :
  c <> "`"%char -> has_char "`" pre = false ->
  startswith (pre ++ String c rest) SessionFile.fence = false.
Proof.
  intros Hc Hp. unfold startswith, SessionFile.fence.
  destruct pre as [|a pre].
  - change ("" ++ String c rest)%string with (String c rest).
    cbn [String.prefix].
    destruct (ascii_dec "`" c) as [E|_]; [congruence | reflexivity].
  - change (String a pre ++ String c rest)%string
      with (String a (pre ++ String c rest)).
    cbn [String.prefix]. cbn [has_char] in Hp.
    apply orb_false_iff in Hp as [Ha _].
    destruct (ascii_dec "`" a) as [E|_]; [|reflexivity].
    subst a. discriminate Ha.
Qed.

Lemma parse_decisions_text json_loads raw pre mid post :
  SessionFile.close_fence (SessionFile.open_fence (strip raw)) =
    (pre ++ String "[" (mid ++ String "]" post))%string ->
  has_char "[" pre = false -> has_char "]" post = false ->
  SessionFile._parse_decisions json_loads raw =
  SessionFile.decoded (json_loads (String "[" (mid ++ "]"))).
Proof.
  intros E H1 H2. unfold SessionFile._parse_decisions. rewrite E.
  rewrite (index_of_first _ _ _ H1).
  replace (pre ++ String "[" (mid ++ String "]" post))%string
    with ((pre ++ String "[" mid) ++ String "]" post)%string at 1
    by (rewrite string_append_assoc; reflexivity).
  rewrite (rindex_of_last _ _ _ H2), slice_brackets. reflexivity.
Qed.

(** X15: text before the first [[] and after the last []] is ignored,
    when it has neither brackets of its own nor a backtick: the decisions
    are those of the text between the two brackets. *)
Theorem prose_around_the_array_is_ignored json_loads pre mid post :
  has_char "[" pre = false -> has_char "`" pre = false ->
  has_char "]" post = false -> has_char "`" post = false ->
  SessionFile._parse_decisions json_loads
    (pre ++ String "[" (mid ++ String "]" post)) =
  SessionFile.decoded (json_loads (String "[" (mid ++ "]"))).
Proof.
  intros B1 F1 B2 F2.
  destruct (strip_between pre "[" mid "]" post eq_refl eq_refl)
    as [w [pre' [post' [w' [-> [-> E]]]]]].
  rewrite has_char_append in B1, F1, B2, F2.
  apply orb_false_iff in B1 as [_ B1]. apply orb_false_iff in F1 as [_ F1].
  apply orb_false_iff in B2 as [B2 _]. apply orb_false_iff in F2 as [F2 _].
  apply (parse_decisions_text _ _ pre' mid post'); [|exact B1 | exact B2].
  rewrite E. unfold SessionFile.open_fence.
  rewrite (no_fence_at_start pre' "[" _ ltac:(discriminate) F1).
  unfold SessionFile.close_fence.
  replace (pre' ++ String "[" (mid ++ String "]" post'))%string
    with ((pre' ++ String "[" mid) ++ String "]" post')%string
    by (rewrite string_append_assoc; reflexivity).
  destruct (rstrip_upto (pre' ++ String "[" mid) "]" post' eq_refl)
    as [post'' [w'' [E1 E2]]].
  rewrite E2. subst post'. rewrite has_char_append in F2.
  apply orb_false_iff in F2 as [F2 _].
  rewrite (no_fence_at_end _ "]" _ ltac:(discriminate) F2). reflexivity.
Qed.

Lemma append_empty (s1 s2 : string) : (s1 ++ s2)%string = "" -> s1 = "" /\ s2 = "".
Proof.
  destruct s1; [|discriminate].
  change ("" ++ s2)%string with s2. intros ->. split; reflexivity.
Qed.

Lemma after_first_append c front rest :
  has_char c front = false ->
  after_first c (front ++ String c rest) = Some rest.
Proof.
  induction front as [|a front IH]; intros H.
  - change ("" ++ String c rest)%string with (String c rest).
    cbn [after_first]. rewrite Ascii.eqb_refl. reflexivity.
  - change (String a front ++ String c rest)%string
      with (String a (front ++ String c rest)).
    cbn [has_char] in H. apply orb_false_iff in H as [H1 H2].
    cbn [after_first]. rewrite H1. exact (IH H2).
Qed.

Lemma drop_last_suffix front p :
  drop_last (String.length p) (front ++ p) = front.
Proof.
  unfold drop_last. rewrite string_length_append.
  replace (String.length front + String.length p - String.length p)%nat
    with (String.length front) by lia.
  apply substring_whole.
Qed.

(** X16: a reply that is a fenced block, with or without a language
    after the opening fence, gives the decisions of the array in the
    block. *)
Theorem fenced_array_is_read json_loads lang mid :
  has_char "010" lang = false ->
  SessionFile._parse_decisions json_loads
    (SessionFile.fence ++ lang ++ newline
     ++ String "[" (mid ++ "]") ++ newline ++ SessionFile.fence) =
  SessionFile.decoded (json_loads (String "[" (mid ++ "]"))).
Proof.
  intros Hl.
  set (body := String "[" (mid ++ "]")).
  apply (parse_decisions_text _ _ "" mid newline); [|reflexivity|reflexivity].
  assert (S1 : strip (SessionFile.fence ++ lang ++ newline ++ body
                      ++ newline ++ SessionFile.fence) =
               (SessionFile.fence ++ lang ++ newline ++ body
                ++ newline ++ SessionFile.fence)%string).
  { destruct (strip_between "" "`"
                ("``" ++ lang ++ newline ++ body ++ newline ++ "``") "`" ""
                eq_refl eq_refl) as [w [pre' [post' [w' [P1 [P2 E]]]]]].
    symmetry in P1, P2.
    apply append_empty in P1 as [_ ->]. apply append_empty in P2 as [-> _].
    replace (SessionFile.fence ++ lang ++ newline ++ body
             ++ newline ++ SessionFile.fence)%string
      with ("" ++ String "`" (("``" ++ lang ++ newline ++ body ++ newline ++ "``")
                              ++ String "`" ""))%string.
    - exact E.
    - unfold SessionFile.fence. cbn [String.append].
      rewrite !string_append_assoc. reflexivity. }
  rewrite S1. unfold SessionFile.open_fence.
  assert (P : startswith (SessionFile.fence ++ lang ++ newline ++ body
                          ++ newline ++ SessionFile.fence) SessionFile.fence = true)
    by apply prefix_append.
  rewrite P.
  replace (SessionFile.fence ++ lang ++ newline ++ body
           ++ newline ++ SessionFile.fence)%string
    with ((SessionFile.fence ++ lang)
          ++ String "010" (body ++ newline ++ SessionFile.fence))%string
    by (rewrite string_append_assoc; reflexivity).
  rewrite after_first_append
    by (rewrite has_char_append, Hl; reflexivity).
  unfold SessionFile.close_fence.
  assert (R : rstrip (body ++ newline ++ SessionFile.fence) =
              (body ++ newline ++ SessionFile.fence)%string).
  { destruct (rstrip_upto (body ++ newline ++ "``") "`" "" eq_refl)
      as [post' [w' [P2 E]]].
    symmetry in P2. apply append_empty in P2 as [-> _].
    replace (body ++ newline ++ SessionFile.fence)%string
      with ((body ++ newline ++ "``") ++ String "`" "")%string.
    - exact E.
    - unfold SessionFile.fence. rewrite !string_append_assoc. reflexivity. }
  rewrite R.
  replace (body ++ newline ++ SessionFile.fence)%string
    with ((body ++ newline) ++ SessionFile.fence)%string
    by (rewrite string_append_assoc; reflexivity).
  rewrite endswith_suffix.
  change 3%nat with (String.length SessionFile.fence).
  rewrite drop_last_suffix. unfold body.
  change (String "[" (mid ++ "]") ++ newline)%string
    with (String "[" ((mid ++ "]") ++ newline)).
  rewrite string_append_assoc. reflexivity.
Qed.

Lemma valid_decision_form d v :
  SessionFile.valid_decision d = Some v ->
  exists decision context trade_off date tags,
    v = JObj [("decision", decision); ("context", context);
              ("trade_off", trade_off); ("date", date); ("tags", tags)]
    /\ truthy decision = true.
Proof.
  unfold SessionFile.valid_decision. destruct d as [| | | | | |f]; try discriminate.
  destruct (truthy (dict_get f "decision" JNull)) eqn:T; [|discriminate].
  intros [= <-]. repeat eexists. exact T.
Qed.

(** X17: every decision returned is a dict with the five keys
    [decision], [context], [trade_off], [date] and [tags], in this order,
    and its [decision] is a true value. *)
Theorem decisions_have_the_five_keys json_loads raw_text :
  Forall (fun v =>
            exists decision context trade_off date tags,
              v = JObj [("decision", decision); ("context", context);
                        ("trade_off", trade_off); ("date", date);
                        ("tags", tags)]
              /\ truthy decision = true)
         (SessionFile._parse_decisions json_loads raw_text).
Proof.
  unfold SessionFile._parse_decisions.
  destruct (index_of _ _); [|constructor].
  destruct (rindex_of _ _); [|constructor].
  unfold SessionFile.decoded.
  destruct (json_loads _) as [[| | | | |items|]|]; try constructor.
  induction items as [|d items IH]; cbn [SessionFile.valid_decisions];
    [constructor|].
  destruct (SessionFile.valid_decision d) as [v|] eqn:E; [|exact IH].
  constructor; [exact (valid_decision_form _ _ E) | exact IH].
Qed.

(** ** A reply without brackets *)

Lemma drop_space_suffix s r : drop_space s = Some r -> exists w, s = w ++ r.
Proof.
  unfold drop_space. destruct s as [|a [|b [|c s]]]; try discriminate.
  - destruct (space1 a); [|discriminate]. intros [= <-]. exists [a]. reflexivity.
  - destruct (space1 a); [intros [= <-]; exists [a]; reflexivity|].
    destruct (space2 a b); [|discriminate].
    intros [= <-]. exists [a; b]. reflexivity.
  - destruct (space1 a); [intros [= <-]; exists [a]; reflexivity|].
    destruct (space2 a b); [intros [= <-]; exists [a; b]; reflexivity|].
    destruct (space3 a b c); [|discriminate].
    intros [= <-]. exists [a; b; c]. reflexivity.
Qed.

Lemma drop_space_rev_suffix s r :
  drop_space_rev s = Some r -> exists w, s = w ++ r.
Proof.
  unfold drop_space_rev. destruct s as [|a [|b [|c s]]]; try discriminate.
  - destruct (space1 a); [|discriminate]. intros [= <-]. exists [a]. reflexivity.
  - destruct (space1 a); [intros [= <-]; exists [a]; reflexivity|].
    destruct (space2 b a); [|discriminate].
    intros [= <-]. exists [a; b]. reflexivity.
  - destruct (space1 a); [intros [= <-]; exists [a]; reflexivity|].
    destruct (space2 b a); [intros [= <-]; exists [a; b]; reflexivity|].
    destruct (space3 c b a); [|discriminate].
    intros [= <-]. exists [a; b; c]. reflexivity.
Qed.

Lemma drop_while_suffix drop :
  (forall s r, drop s = Some r -> exists w, s = w ++ r) ->
  forall fuel s, exists w, s = w ++ drop_while drop fuel s.
Proof.
  intros Hdrop. induction fuel as [|fuel IH]; intros s; cbn [drop_while].
  - exists []. reflexivity.
  - destruct (drop s) as [r|] eqn:E; [|exists []; reflexivity].
    destruct (Hdrop _ _ E) as [w ->]. destruct (IH r) as [w' E'].
    exists (w ++ w'). rewrite <- app_assoc, <- E'. reflexivity.
Qed.

Lemma lstrip_suffix l : exists w, l = w ++ lstrip_bytes l.
Proof. apply (drop_while_suffix _ drop_space_suffix). Qed.

Lemma rstrip_prefix l : exists w, l = rstrip_bytes l ++ w.
Proof.
  unfold rstrip_bytes.
  destruct (drop_while_suffix _ drop_space_rev_suffix (length l) (rev l))
    as [w E].
  exists (rev w). rewrite <- rev_app_distr, <- E, rev_involutive. reflexivity.
Qed.

Lemma within_refl s : within s s.
Proof.
  exists "", "". change ("" ++ s ++ "")%string with (s ++ "")%string.
  clear. induction s as [|a s IH]; [reflexivity|].
  change (String a s ++ "")%string with (String a (s ++ "")).
  rewrite <- IH. reflexivity.
Qed.

Lemma within_trans s t u : within s t -> within t u -> within s u.
Proof.
  intros [a [b ->]] [c [d ->]]. exists (c ++ a)%string, (b ++ d)%string.
  rewrite !string_append_assoc. reflexivity.
Qed.

Lemma within_suffix w s : within s (w ++ s).
Proof.
  destruct (within_refl s) as [a [b E]].
  exists (w ++ a)%string, b. rewrite string_append_assoc, <- E. reflexivity.
Qed.

Lemma within_prefix s w : within s (s ++ w).
Proof. exists "", w. reflexivity. Qed.

Lemma within_has_char c t s :
  within t s -> has_char c s = false -> has_char c t = false.
Proof.
  intros [a [b ->]]. rewrite !has_char_append. intros H.
  apply orb_false_iff in H as [_ H]. apply orb_false_iff in H as [H _].
  exact H.
Qed.

Lemma strip_within s : within (strip s) s.
Proof.
  unfold strip.
  destruct (lstrip_suffix (bytes s)) as [w E1].
  destruct (rstrip_prefix (lstrip_bytes (bytes s))) as [w' E2].
  exists (of_bytes w), (of_bytes w').
  rewrite <- !of_bytes_app, <- E2, <- E1, of_bytes_bytes. reflexivity.
Qed.

Lemma rstrip_within s : within (rstrip s) s.
Proof.
  unfold rstrip. destruct (rstrip_prefix (bytes s)) as [w E].
  exists "", (of_bytes w).
  change ("" ++ of_bytes (rstrip_bytes (bytes s)) ++ of_bytes w)%string
    with (of_bytes (rstrip_bytes (bytes s)) ++ of_bytes w)%string.
  rewrite <- of_bytes_app, <- E, of_bytes_bytes. reflexivity.
Qed.

Lemma after_first_within c s r : after_first c s = Some r -> within r s.
Proof.
  revert r. induction s as [|a s IH]; intros r; [discriminate|].
  cbn [after_first]. destruct (Ascii.eqb a c).
  - intros [= ->]. apply (within_suffix (String a "")).
  - intros H. apply (within_trans _ s); [exact (IH _ H)|].
    apply (within_suffix (String a "")).
Qed.

Lemma drop_chars_within n : forall s, within (drop_chars n s) s.
Proof.
  induction n as [|n IH]; intros s; [destruct s; apply within_refl|].
  destruct s as [|a s]; [apply within_refl|]. cbn [drop_chars].
  apply (within_trans _ s); [apply IH | apply (within_suffix (String a ""))].
Qed.

Lemma substring_prefix n : forall s, exists w, s = (substring 0 n s ++ w)%string.
Proof.
  induction n as [|n IH]; intros s.
  - exists s. destruct s; reflexivity.
  - destruct s as [|a s]; [exists ""; reflexivity|].
    destruct (IH s) as [w E]. exists w. cbn [substring].
    change (String a (substring 0 n s) ++ w)%string
      with (String a (substring 0 n s ++ w)).
    rewrite <- E. reflexivity.
Qed.

Lemma fences_within s :
  within (SessionFile.close_fence (SessionFile.open_fence s)) s.
Proof.
  apply (within_trans _ (SessionFile.open_fence s)).
  - unfold SessionFile.close_fence. destruct (endswith _ _); [|apply within_refl].
    apply (within_trans _ (rstrip (SessionFile.open_fence s)));
      [|apply rstrip_within].
    unfold drop_last.
    destruct (substring_prefix
                (String.length (rstrip (SessionFile.open_fence s)) - 3)
                (rstrip (SessionFile.open_fence s))) as [w E].
    exists "", w. exact E.
  - unfold SessionFile.open_fence. destruct (startswith _ _); [|apply within_refl].
    destruct (after_first _ s) as [r|] eqn:E;
      [exact (after_first_within _ _ _ E) | apply drop_chars_within].
Qed.

Lemma index_of_absent c s : has_char c s = false -> index_of c s = None.
Proof.
  induction s as [|a s IH]; [reflexivity|]. cbn [has_char index_of].
  intros H. apply orb_false_iff in H as [H1 H2]. rewrite H1, (IH H2).
  reflexivity.
Qed.

(** X18: a reply without an opening bracket, or without a closing one,
    gives no decision. *)
Theorem no_brackets_no_decisions json_loads raw_text :
  has_char "[" raw_text = false \/ has_char "]" raw_text = false ->
  SessionFile._parse_decisions json_loads raw_text = [].
Proof.
  intros H. unfold SessionFile._parse_decisions.
  assert (W : within (SessionFile.close_fence
                        (SessionFile.open_fence (strip raw_text))) raw_text)
    by (apply (within_trans _ (strip raw_text));
        [apply fences_within | apply strip_within]).
  destruct H as [H | H].
  - rewrite (index_of_absent _ _ (within_has_char _ _ _ W H)). reflexivity.
  - rewrite (rindex_of_absent _ _ (within_has_char _ _ _ W H)).
    destruct (index_of _ _); reflexivity.
Qed.

(* ================================================================== *)
(** * Properties of [store_raw_interaction] *)

Example sha256_test_suite :
  SHA256.sha256 "" =
    "e3b0c44298fc1c149afbf4c8996fb92427ae41e4649b934ca495991b7852b855"
  /\ SHA256.sha256 "abc" =
       "ba7816bf8f01cfea414140de5dae2223b00361a396177a9cb410ff61f20015ad"
  /\ SHA256.sha256
       "aaaaaaaaaaaaaaaaaaaaaaaaaaaaaaaaaaaaaaaaaaaaaaaaaaaaaaaaaaaaaaaa" =
       "ffe054fe7ae0cb6dc65c3af9b61d5209f439851db43d0ba5997337df154668eb".
Proof. repeat split; vm_compute; reflexivity. Qed.

Lemma with_hash_app {datetime} h (rows rows' : list (Archive.raw_interaction datetime)) :
  Archive.with_hash h (rows ++ rows') =
  Archive.with_hash h rows ++ Archive.with_hash h rows'.
Proof. apply List.filter_app. Qed.

Lemma store_cases {datetime} (rows : list (Archive.raw_interaction datetime))
    st c sid aid md d :
  let h := SHA256.sha256 c in
  let r := Archive.RawInteraction st sid aid c
             (match md with Some m => m | None => [] end) (Some h) d in
  (encodable c = false
   /\ Archive.store_raw_interaction rows st c sid aid md d =
      Archive.UnicodeEncodeError)
  \/ (encodable c = true
      /\ Archive.with_hash h rows = []
      /\ Archive.store_raw_interaction rows st c sid aid md d =
         Archive.Row (rows ++ [r]) r)
  \/ (encodable c = true
      /\ exists found,
           Archive.with_hash h rows = [found]
           /\ Archive.store_raw_interaction rows st c sid aid md d =
              Archive.Row rows found)
  \/ ((2 <= length (Archive.with_hash h rows))%nat
      /\ Archive.store_raw_interaction rows st c sid aid md d =
         Archive.MultipleResultsFound).
Proof.
  intros h r. unfold Archive.store_raw_interaction. fold h.
  destruct (encodable c); cbn [negb]; [|left; split; reflexivity].
  right. destruct (Archive.with_hash h rows) as [|x [|y l]].
  - left. split; [reflexivity|]. split; reflexivity.
  - right. left. split; [reflexivity|]. exists x. split; reflexivity.
  - right. right. split; [simpl; lia | reflexivity].
Qed.

Lemma has_hash_new {datetime} st c sid aid md (d : option datetime) :
  Archive.has_hash (SHA256.sha256 c)
    (Archive.RawInteraction st sid aid c md (Some (SHA256.sha256 c)) d) = true.
Proof.
  unfold Archive.has_hash. cbn [Archive.content_hash]. apply String.eqb_refl.
Qed.

Lemma has_hash_other {datetime} h st c sid aid md (d : option datetime) :
  h <> SHA256.sha256 c ->
  Archive.has_hash h
    (Archive.RawInteraction st sid aid c md (Some (SHA256.sha256 c)) d) = false.
Proof.
  intros H. unfold Archive.has_hash. cbn [Archive.content_hash].
  apply String.eqb_neq. intros E. apply H. symmetry. exact E.
Qed.

(** After a call that returns, the content could be encoded and one row
    has its hash, the row returned; the rows of the other hashes are as
    before. *)
Lemma store_single {datetime} (rows : list (Archive.raw_interaction datetime))
    st c sid aid md d rows1 r :
  Archive.store_raw_interaction rows st c sid aid md d = Archive.Row rows1 r ->
  encodable c = true
  /\ Archive.with_hash (SHA256.sha256 c) rows1 = [r]
  /\ (forall h, h <> SHA256.sha256 c ->
        Archive.with_hash h rows1 = Archive.with_hash h rows)
  /\ exists added, rows1 = rows ++ added
       /\ (length added <= 1)%nat
       /\ Forall (fun a => Archive.source_type a = st) added.
Proof.
  destruct (store_cases rows st c sid aid md d)
    as [[_ ->] | [[C [E ->]] | [[C [found [E ->]]] | [_ ->]]]];
    [discriminate | | | discriminate].
  - intros [= <- <-]. split; [exact C|]. split; [|split].
    + rewrite with_hash_app, E. cbn [app Archive.with_hash List.filter].
      rewrite has_hash_new. reflexivity.
    + intros h Hh. rewrite with_hash_app. cbn [Archive.with_hash List.filter].
      rewrite (has_hash_other _ _ _ _ _ _ _ Hh). apply app_nil_r.
    + eexists. split; [reflexivity|]. split; [simpl; lia|].
      constructor; [reflexivity | constructor].
  - intros [= <- <-]. split; [exact C|]. split; [exact E|].
    split; [reflexivity|].
    exists []. split; [symmetry; apply app_nil_r|].
    split; [simpl; lia | constructor].
Qed.

Lemma store_found {datetime} (rows : list (Archive.raw_interaction datetime))
    st c sid aid md d r :
  encodable c = true ->
  Archive.with_hash (SHA256.sha256 c) rows = [r] ->
  Archive.store_raw_interaction rows st c sid aid md d = Archive.Row rows r.
Proof.
  intros C E. unfold Archive.store_raw_interaction. rewrite C, E. reflexivity.
Qed.

(** X19: a content is stored once: after a call that returns, a call with
    the same content returns the same row and adds nothing, whatever its
    source, its metadata and its date are. *)
Theorem same_content_is_stored_once {datetime}
    (rows : list (Archive.raw_interaction datetime)) st c sid aid md d rows1 r
    st' sid' aid' md' d' :
  Archive.store_raw_interaction rows st c sid aid md d = Archive.Row rows1 r ->
  Archive.store_raw_interaction rows1 st' c sid' aid' md' d' =
  Archive.Row rows1 r.
Proof.
  intros H. destruct (store_single _ _ _ _ _ _ _ _ _ H) as [C [S _]].
  apply store_found; assumption.
Qed.

(** X20: when no two rows have the same hash, the call on a content
    that can be encoded (one that holds no lone surrogate) returns a row
    with the hash of the content, it keeps the rows there are, and no two
    rows have the same hash after it: [scalar_one_or_none] does not raise
    on an archive this function alone has filled.  On a content that holds
    a lone surrogate the call raises [UnicodeEncodeError]. *)
Theorem hashes_stay_unique {datetime}
    (rows : list (Archive.raw_interaction datetime)) st c sid aid md d :
  unique_hashes rows ->
  (encodable c = true ->
   exists rows1 r,
     Archive.store_raw_interaction rows st c sid aid md d = Archive.Row rows1 r
     /\ unique_hashes rows1
     /\ In r rows1
     /\ Archive.content_hash r = Some (SHA256.sha256 c)
     /\ exists added, rows1 = rows ++ added)
  /\ (encodable c = false ->
      Archive.store_raw_interaction rows st c sid aid md d =
      Archive.UnicodeEncodeError).
Proof.
  intros U.
  destruct (store_cases rows st c sid aid md d)
    as [[C H] | [[C [E H]] | [[C [found [E H]]] | [L _]]]].
  - split; [rewrite C; discriminate | intros _; exact H].
  - split; [intros _ | rewrite C; discriminate].
    eexists _, _. split; [exact H|]. split; [|split; [|split]].
    + intros h. destruct (string_dec h (SHA256.sha256 c)) as [->|N].
      * rewrite (proj1 (proj2 (store_single _ _ _ _ _ _ _ _ _ H))). simpl. lia.
      * rewrite (proj1 (proj2 (proj2 (store_single _ _ _ _ _ _ _ _ _ H))) h N).
        apply U.
    + apply in_or_app. right. left. reflexivity.
    + reflexivity.
    + eexists. reflexivity.
  - split; [intros _ | rewrite C; discriminate].
    exists rows, found. split; [exact H|]. split; [exact U|].
    assert (I : In found (Archive.with_hash (SHA256.sha256 c) rows))
      by (rewrite E; left; reflexivity).
    apply filter_In in I as [I1 I2]. split; [exact I1|]. split.
    + unfold Archive.has_hash in I2.
      destruct (Archive.content_hash found) as [h'|]; [|discriminate].
      apply String.eqb_eq in I2. rewrite I2. reflexivity.
    + exists []. symmetry. apply app_nil_r.
  - specialize (U (SHA256.sha256 c)). lia.
Qed.

(* ================================================================== *)
(** * Properties of [ingest_session] *)

(** X21: a call adds at most two rows, a session row and a decisions
    row, after the rows there are, also when it raises. *)
Theorem ingest_only_appends json_loads upper datetime fromisoformat
    extract_decisions json_dumps rows stem parent_name lines extract :
  exists added,
    rows_after (Ingest.ingest_session json_loads upper datetime fromisoformat
                  extract_decisions json_dumps rows stem parent_name lines
                  extract) = rows ++ added
    /\ (length added <= 2)%nat
    /\ Forall (fun r => Archive.source_type r = "claude_code_session"
                        \/ Archive.source_type r = "claude_code_decisions")
              added.
Proof.
  assert (Z0 : exists added : list (Archive.raw_interaction datetime),
             rows = rows ++ added /\ (length added <= 2)%nat
             /\ Forall (fun r => Archive.source_type r = "claude_code_session"
                                 \/ Archive.source_type r = "claude_code_decisions")
                       added).
  { exists []. split; [symmetry; apply app_nil_r|].
    split; [simpl; lia | constructor]. }
  unfold Ingest.ingest_session.
  destruct (SessionFile.parse_session_file json_loads lines) as [[|e es]|x];
    [exact Z0 | | exact Z0].
  destruct (SessionFile.get_session_metadata _ _ _) as [m|x]; [|exact Z0].
  destruct (SessionFile.build_session_summary _ _ _) as [tr|x]; [|exact Z0].
  destruct (SessionFile._parse_timestamp _ _ _) as [started|x]; [|exact Z0].
  destruct (Archive.store_raw_interaction rows _ _ _ _ _ _)
    as [rows1 r1| |] eqn:S1; [|exact Z0|exact Z0].
  destruct (store_single _ _ _ _ _ _ _ _ _ S1)
    as [_ [_ [_ [added1 [-> [L1 F1]]]]]].
  assert (Z1 : exists added : list (Archive.raw_interaction datetime),
             rows ++ added1 = rows ++ added /\ (length added <= 2)%nat
             /\ Forall (fun r => Archive.source_type r = "claude_code_session"
                                 \/ Archive.source_type r = "claude_code_decisions")
                       added).
  { exists added1. split; [reflexivity|]. split; [lia|].
    eapply List.Forall_impl; [|exact F1]. intros a Ha. left. exact Ha. }
  destruct (if extract && _ then _ else _) as [|d ds]; [exact Z1|].
  destruct (SessionFile._parse_timestamp _ _ (SessionFile.Metadata.end_time m))
    as [ended|x]; [|exact Z1].
  destruct (Archive.store_raw_interaction (rows ++ added1) _ _ _ _ _ _)
    as [rows2 r2| |] eqn:S2; [|exact Z1|exact Z1].
  destruct (store_single _ _ _ _ _ _ _ _ _ S2)
    as [_ [_ [_ [added2 [-> [L2 F2]]]]]].
  exists (added1 ++ added2). split; [symmetry; apply app_assoc|].
  split; [rewrite length_app; lia|].
  apply Forall_app. split.
  - eapply List.Forall_impl; [|exact F1]. intros a Ha. left. exact Ha.
  - eapply List.Forall_impl; [|exact F2]. intros a Ha. right. exact Ha.
Qed.

(** X22: a transcript of fewer than three entries is not given to the
    extraction: the call does the same with and without [extract], and
    whatever the extraction would return. *)
Theorem short_session_is_not_extracted json_loads upper datetime
    fromisoformat entries
    extract_decisions extract_decisions' json_dumps json_dumps'
    rows stem parent_name lines extract extract' :
  SessionFile.parse_session_file json_loads lines = Ok entries ->
  (length entries < 3)%nat ->
  Ingest.ingest_session json_loads upper datetime fromisoformat
    extract_decisions json_dumps rows stem parent_name lines extract =
  Ingest.ingest_session json_loads upper datetime fromisoformat
    extract_decisions' json_dumps' rows stem parent_name lines extract'.
Proof.
  intros P L. unfold Ingest.ingest_session. rewrite P.
  destruct entries as [|e es]; [reflexivity|].
  destruct (SessionFile.get_session_metadata _ _ _) as [m|x]; [|reflexivity].
  destruct (SessionFile.build_session_summary _ _ _) as [tr|x]; [|reflexivity].
  destruct (SessionFile._parse_timestamp _ _ _) as [started|x]; [|reflexivity].
  destruct (Archive.store_raw_interaction rows _ _ _ _ _ _)
    as [rows1 r1| |]; [|reflexivity|reflexivity].
  assert (E : (3 <=? length (e :: es))%nat = false)
    by (apply Nat.leb_gt; exact L).
  rewrite E, !andb_false_r. reflexivity.
Qed.

(** X23: a call that returns can be repeated: when the extraction
    returns the same decisions, the second call adds no row and returns
    the same result. *)
Theorem ingest_twice_adds_nothing json_loads upper datetime fromisoformat
    extract_decisions json_dumps rows stem parent_name lines extract
    rows1 result :
  Ingest.ingest_session json_loads upper datetime fromisoformat
    extract_decisions json_dumps rows stem parent_name lines extract =
    Ingest.Done rows1 result ->
  Ingest.ingest_session json_loads upper datetime fromisoformat
    extract_decisions json_dumps rows1 stem parent_name lines extract =
    Ingest.Done rows1 result.
Proof.
  unfold Ingest.ingest_session.
  destruct (SessionFile.parse_session_file json_loads lines) as [[|e es]|x];
    [intros [= <- <-]; reflexivity | | discriminate].
  destruct (SessionFile.get_session_metadata _ _ _) as [m|x]; [|discriminate].
  destruct (SessionFile.build_session_summary _ _ _) as [tr|x]; [|discriminate].
  destruct (SessionFile._parse_timestamp _ _ (SessionFile.Metadata.start_time m))
    as [started|x]; [|discriminate].
  destruct (Archive.store_raw_interaction rows _ _ _ _ _ _)
    as [rowsA r1| |] eqn:S1; [|discriminate|discriminate].
  destruct (store_single _ _ _ _ _ _ _ _ _ S1) as [C1 [T1 _]].
  destruct (if extract && _ then _ else _) as [|d ds].
  - intros [= <- <-]. rewrite (store_found _ _ _ _ _ _ _ _ C1 T1). reflexivity.
  - destruct (SessionFile._parse_timestamp _ _ (SessionFile.Metadata.end_time m))
      as [ended|x]; [|discriminate].
    destruct (Archive.store_raw_interaction rowsA _ _ _ _ _ _)
      as [rowsB r2| |] eqn:S2; [|discriminate|discriminate].
    destruct (store_single _ _ _ _ _ _ _ _ _ S2) as [C2 [T2 [O2 _]]].
    intros [= <- <-].
    assert (T : exists r, Archive.with_hash (SHA256.sha256 tr) rowsB = [r]).
    { destruct (string_dec (SHA256.sha256 tr)
                  (SHA256.sha256 (json_dumps (d :: ds)))) as [E|N].
      - exists r2. rewrite E. exact T2.
      - exists r1. rewrite (O2 _ N). exact T1. }
    destruct T as [r T].
    rewrite (store_found _ _ _ _ _ _ _ _ C1 T), (store_found _ _ _ _ _ _ _ _ C2 T2).
    reflexivity.
Qed.

(* ================================================================== *)
(** * The properties of the transcript on the sample sessions *)

Lemma transcript_entries_are_long_witness :
  SessionFile.parse_session_file Decoder.loads SessionExamples.transcript =
    Ok SessionExamples.transcript_entries
  /\ Forall (fun e => long_text (SessionFile.content e) = true
                      /\ command_marker (strip (SessionFile.content e)) = false)
            SessionExamples.transcript_entries.
Proof.
  assert (H : SessionFile.parse_session_file Decoder.loads
                SessionExamples.transcript =
              Ok SessionExamples.transcript_entries)
    by (vm_compute; reflexivity).
  split; [exact H|].
  exact (transcript_entries_are_long Decoder.loads _ _ H).
Defined.

Lemma summary_is_the_entries_that_fit_witness :
  SessionFile.build_session_summary SessionExamples.ascii_upper
    SessionExamples.transcript_entries 40 =
    Ok "[USER]: Fix the bug in the parser"
  /\ exists kept rest parts,
       SessionExamples.transcript_entries = kept ++ rest
       /\ map (entry_of SessionExamples.ascii_upper) kept = map Some parts
       /\ "[USER]: Fix the bug in the parser" =
          join SessionFile.blank_line parts
       /\ (parts <> [] -> total_len parts <= 40)
       /\ match rest with
          | [] => True
          | t :: _ =>
              exists e, entry_of SessionExamples.ascii_upper t = Some e
                        /\ 40 < total_len parts + Z.of_nat (py_len e)
          end.
Proof.
  assert (H : SessionFile.build_session_summary SessionExamples.ascii_upper
                SessionExamples.transcript_entries 40 =
              Ok "[USER]: Fix the bug in the parser")
    by (vm_compute; reflexivity).
  split; [exact H|].
  exact (summary_is_the_entries_that_fit _ _ _ _ H).
Defined.

(** With [max_chars] at 65 the two entries fit, and the summary has 67
    characters. *)
Lemma summary_length_bound_witness :
  0 <= 65
  /\ SessionFile.build_session_summary SessionExamples.ascii_upper
       SessionExamples.transcript_entries 65 =
       Ok (SessionExamples.summary_of SessionExamples.transcript_entries 65)
  /\ py_len (SessionExamples.summary_of SessionExamples.transcript_entries 65)
     = 67%nat
  /\ 2 * Z.of_nat (py_len (SessionExamples.summary_of
                             SessionExamples.transcript_entries 65))
     <= 3 * 65.
Proof.
  assert (H0 : 0 <= 65) by lia.
  assert (H : SessionFile.build_session_summary SessionExamples.ascii_upper
                SessionExamples.transcript_entries 65 =
              Ok (SessionExamples.summary_of
                    SessionExamples.transcript_entries 65))
    by (vm_compute; reflexivity).
  split; [exact H0|]. split; [exact H|]. split; [vm_compute; reflexivity|].
  exact (summary_length_bound _ _ _ _ H0 H).
Defined.

Lemma summary_of_string_roles_witness :
  Forall (fun t => is_str (SessionFile.role t))
         SessionExamples.transcript_entries
  /\ exists s,
       SessionFile.build_session_summary SessionExamples.ascii_upper
         SessionExamples.transcript_entries 8000 = Ok s.
Proof.
  assert (H : Forall (fun t => is_str (SessionFile.role t))
                     SessionExamples.transcript_entries)
    by (repeat constructor; eexists; reflexivity).
  split; [exact H|].
  exact (summary_of_string_roles SessionExamples.ascii_upper _ 8000 H).
Defined.

Lemma metadata_times_are_the_extremes_witness :
  Forall is_str (SessionFile.timestamps SessionExamples.transcript_entries)
  /\ exists m,
       SessionFile.get_session_metadata "abc" "-home-u-p"
         SessionExamples.transcript_entries = Ok m
       /\ match SessionFile.timestamps SessionExamples.transcript_entries with
          | [] =>
              SessionFile.Metadata.start_time m = JNull
              /\ SessionFile.Metadata.end_time m = JNull
          | _ :: _ =>
              In (SessionFile.Metadata.start_time m)
                 (SessionFile.timestamps SessionExamples.transcript_entries)
              /\ In (SessionFile.Metadata.end_time m)
                    (SessionFile.timestamps SessionExamples.transcript_entries)
              /\ Forall (fun x =>
                           String.leb (str_of (SessionFile.Metadata.start_time m))
                                      (str_of x) = true
                           /\ String.leb (str_of x)
                                (str_of (SessionFile.Metadata.end_time m)) = true)
                        (SessionFile.timestamps SessionExamples.transcript_entries)
          end.
Proof.
  assert (H : Forall is_str
                (SessionFile.timestamps SessionExamples.transcript_entries))
    by (repeat constructor; eexists; reflexivity).
  split; [exact H|].
  exact (metadata_times_are_the_extremes "abc" "-home-u-p" _ H).
Defined.

Lemma metadata_of_mixed_timestamps_witness :
  In (JStr "2026-02-10T12:00:00Z")
     (SessionFile.timestamps SessionExamples.numbered_entries)
  /\ In (JInt 1770724860)
        (SessionFile.timestamps SessionExamples.numbered_entries)
  /\ SessionFile.get_session_metadata "abc" "-home-u-p"
       SessionExamples.numbered_entries = Raise TypeError.
Proof.
  assert (H1 : In (JStr "2026-02-10T12:00:00Z")
                  (SessionFile.timestamps SessionExamples.numbered_entries))
    by (left; reflexivity).
  assert (H2 : In (JInt 1770724860)
                  (SessionFile.timestamps SessionExamples.numbered_entries))
    by (right; left; reflexivity).
  split; [exact H1|]. split; [exact H2|].
  apply (metadata_of_mixed_timestamps "abc" "-home-u-p" _ _ _ H1 H2).
  intros t. discriminate.
Defined.

Lemma metadata_counts_witness :
  exists m,
    SessionFile.get_session_metadata "abc" "-home-u-p"
      SessionExamples.transcript_entries = Ok m
    /\ SessionFile.Metadata.turn_count m = 2%nat
    /\ (SessionFile.Metadata.user_turns m
        + SessionFile.Metadata.assistant_turns m
        <= SessionFile.Metadata.turn_count m)%nat.
Proof.
  eexists. split; [vm_compute; reflexivity|].
  apply (metadata_counts "abc" "-home-u-p" SessionExamples.transcript_entries).
  vm_compute. reflexivity.
Defined.

Lemma prose_around_the_array_is_ignored_witness :
  has_char "[" "Here you go: " = false
  /\ has_char "`" "Here you go: " = false
  /\ has_char "]" " Hope it helps." = false
  /\ has_char "`" " Hope it helps." = false
  /\ SessionFile._parse_decisions Decoder.loads
       ("Here you go: "
        ++ String "[" (SessionExamples.reply_items
                       ++ String "]" " Hope it helps.")) =
     SessionFile.decoded (Decoder.loads SessionExamples.reply)
  /\ length (SessionFile.decoded (Decoder.loads SessionExamples.reply)) = 1%nat.
Proof.
  split; [reflexivity|]. split; [reflexivity|].
  split; [reflexivity|]. split; [reflexivity|].
  split; [|vm_compute; reflexivity].
  exact (prose_around_the_array_is_ignored Decoder.loads
           "Here you go: " SessionExamples.reply_items " Hope it helps."
           eq_refl eq_refl eq_refl eq_refl).
Defined.

Lemma fenced_array_is_read_witness :
  has_char "010" "json" = false
  /\ SessionFile._parse_decisions Decoder.loads
       (SessionFile.fence ++ "json" ++ newline
        ++ String "[" (SessionExamples.reply_items ++ "]")
        ++ newline ++ SessionFile.fence) =
     SessionFile.decoded (Decoder.loads SessionExamples.reply).
Proof.
  split; [reflexivity|].
  exact (fenced_array_is_read Decoder.loads "json"
           SessionExamples.reply_items eq_refl).
Defined.

Lemma no_brackets_no_decisions_witness :
  has_char "[" "No decisions were made." = false
  /\ SessionFile._parse_decisions Decoder.loads "No decisions were made." = [].
Proof.
  split; [reflexivity|].
  apply no_brackets_no_decisions. left. reflexivity.
Defined.

(* ================================================================== *)
(** * The properties of the archive on the sample archive *)

Lemma same_content_is_stored_once_witness :
  Archive.store_raw_interaction [] "note" "hello" None None None None =
    Archive.Row [ArchiveExamples.stored_row] ArchiveExamples.stored_row
  /\ Archive.store_raw_interaction [ArchiveExamples.stored_row]
       "claude_code_session" "hello" (Some "abc") None
       (Some [("turn_count", JInt 2)]) (Some "2026-02-10T12:00:00+00:00") =
     Archive.Row [ArchiveExamples.stored_row] ArchiveExamples.stored_row.
Proof.
  assert (H : Archive.store_raw_interaction (datetime := string)
                [] "note" "hello" None None None None =
              Archive.Row [ArchiveExamples.stored_row]
                          ArchiveExamples.stored_row)
    by (vm_compute; reflexivity).
  split; [exact H|].
  exact (same_content_is_stored_once _ _ _ _ _ _ _ _ _ _ _ _ _ _ H).
Defined.

Lemma hashes_stay_unique_witness :
  unique_hashes [ArchiveExamples.stored_row]
  /\ encodable "goodbye" = true
  /\ (exists rows1 r,
       Archive.store_raw_interaction [ArchiveExamples.stored_row]
         "note" "goodbye" None None None None = Archive.Row rows1 r
       /\ unique_hashes rows1
       /\ In r rows1
       /\ Archive.content_hash r = Some (SHA256.sha256 "goodbye")
       /\ exists added, rows1 = [ArchiveExamples.stored_row] ++ added)
  /\ encodable ArchiveExamples.lone_surrogate = false
  /\ Archive.store_raw_interaction [ArchiveExamples.stored_row]
       "note" ArchiveExamples.lone_surrogate None None None None =
     Archive.UnicodeEncodeError.
Proof.
  assert (H : unique_hashes [ArchiveExamples.stored_row]).
  { intros h. unfold Archive.with_hash. cbn [List.filter].
    destruct (Archive.has_hash h ArchiveExamples.stored_row); simpl; lia. }
  split; [exact H|]. split; [reflexivity|]. split.
  - exact (proj1 (hashes_stay_unique [ArchiveExamples.stored_row]
                    "note" "goodbye" None None None None H) eq_refl).
  - split; [reflexivity|].
    exact (proj2 (hashes_stay_unique [ArchiveExamples.stored_row]
                    "note" ArchiveExamples.lone_surrogate None None None None H)
                 eq_refl).
Defined.

(** A content with a lone surrogate, the decoded escape [\ud83d]: the call
    raises and stores nothing. *)
Example surrogate_is_not_stored :
  encodable ArchiveExamples.lone_surrogate = false
  /\ Archive.store_raw_interaction (datetime := string) []
       "note" ArchiveExamples.lone_surrogate None None None None =
     Archive.UnicodeEncodeError.
Proof. split; vm_compute; reflexivity. Qed.

Lemma short_session_is_not_extracted_witness :
  SessionFile.parse_session_file Decoder.loads SessionExamples.transcript =
    Ok SessionExamples.transcript_entries
  /\ (length SessionExamples.transcript_entries < 3)%nat
  /\ ArchiveExamples.ingest [] SessionExamples.transcript true =
     Ingest.ingest_session Decoder.loads SessionExamples.ascii_upper string
       ArchiveExamples.fromisoformat (fun _ => []) (fun _ => "")
       [] "abc" "-home-u-p" SessionExamples.transcript false.
Proof.
  assert (H1 : SessionFile.parse_session_file Decoder.loads
                 SessionExamples.transcript =
               Ok SessionExamples.transcript_entries)
    by (vm_compute; reflexivity).
  assert (H2 : (length SessionExamples.transcript_entries < 3)%nat)
    by (simpl; lia).
  split; [exact H1|]. split; [exact H2|].
  exact (short_session_is_not_extracted Decoder.loads
           SessionExamples.ascii_upper string ArchiveExamples.fromisoformat
           _ ArchiveExamples.extract_decisions (fun _ => [])
           ArchiveExamples.json_dumps (fun _ => "")
           [] "abc" "-home-u-p" _ true false H1 H2).
Defined.

Lemma ingest_twice_adds_nothing_witness :
  ArchiveExamples.ingest [] ArchiveExamples.long_transcript true =
    Ingest.Done ArchiveExamples.first_rows ArchiveExamples.first_result
  /\ length ArchiveExamples.first_rows = 2%nat
  /\ ArchiveExamples.ingest ArchiveExamples.first_rows
       ArchiveExamples.long_transcript true =
     Ingest.Done ArchiveExamples.first_rows ArchiveExamples.first_result.
Proof.
  assert (H : ArchiveExamples.ingest [] ArchiveExamples.long_transcript true =
              Ingest.Done ArchiveExamples.first_rows
                          ArchiveExamples.first_result)
    by (vm_compute; reflexivity).
  split; [exact H|]. split; [reflexivity|].
  exact (ingest_twice_adds_nothing _ _ _ _ _ _ _ _ _ _ _ _ _ H).
Defined.
